(** * next-redux-wrapper: store lifecycle and hydration protocol

    A shallow embedding of [packages/wrapper/src/index.tsx].  JavaScript
    objects live in a heap and are referred to by location, so that reference
    identity and in-place mutation are visible; the effectful functions of the
    source are written in a state-and-exception monad over that heap. *)

From stdpp Require Import gmap strings list fin_maps pretty.
From Stdlib Require Import ZArith.

Open Scope string_scope.

(** ** JavaScript values and the heap *)

Definition loc := positive.

(** Primitive values carry their data; every object (plain object, request,
    context, props, Redux store) is a reference into the heap. *)
Inductive value : Type :=
| VUndef
| VNull
| VBool (b : bool)
| VNum (n : Z)
| VStr (s : string)
| VObj (l : loc).

Arguments VObj l%_positive.

Global Instance value_eq_dec : EqDecision value.
Proof. solve_decision. Defined.

(** A heap object: its own enumerable properties and, when the object is a
    Redux store, the state that [getState()] returns.  The methods of a store
    are not represented as properties. *)
Record object : Type := Object {
  props : gmap string value;
  redux : option value;
}.

Definition plain (m : gmap string value) : object :=
  {| props := m; redux := None |}.

(** A Redux action [{type, payload}]. *)
Record action : Type := Action {
  type : string;
  payload : value;
}.

Inductive level : Type := LOG | WARN.

Inductive exn : Type :=
| TypeError (msg : string)
| ReferenceError (msg : string)
| Thrown (v : value).

(** The world a call runs in.  [window] is [None] exactly when
    [typeof window === 'undefined']; otherwise it holds the properties of the
    global object.  [console] collects what [console.log] and [console.warn]
    print (latest first), [made] the contexts the store factory was invoked
    with and [dispatched] the actions dispatched, with the store they went
    to (both latest first). *)
Record World : Type := MkWorld {
  heap : gmap loc object;
  window : option (gmap string value);
  console : list (level * string * list value);
  made : list value;
  dispatched : list (value * action);
}.

Definition with_heap (h : gmap loc object) (w : World) : World :=
  {| heap := h; window := window w; console := console w; made := made w;
     dispatched := dispatched w |}.

Definition with_window (g : gmap string value) (w : World) : World :=
  {| heap := heap w; window := Some g; console := console w; made := made w;
     dispatched := dispatched w |}.

Definition with_console (c : list (level * string * list value)) (w : World) : World :=
  {| heap := heap w; window := window w; console := c; made := made w;
     dispatched := dispatched w |}.

Definition with_dispatched (d : list (value * action)) (w : World) : World :=
  {| heap := heap w; window := window w; console := console w; made := made w;
     dispatched := d |}.

Definition with_made (m : list value) (w : World) : World :=
  {| heap := heap w; window := window w; console := console w; made := m;
     dispatched := dispatched w |}.

(** ** The monad of effectful JavaScript code *)

Inductive Result (A : Type) : Type :=
| Ok (a : A)
| Throw (e : exn).
Arguments Ok {A} a.
Arguments Throw {A} e.

Definition M (A : Type) : Type := World → Result A * World.

Definition ret {A} (a : A) : M A := λ w, (Ok a, w).

Definition throw {A} (e : exn) : M A := λ w, (Throw e, w).

Definition bind {A B} (k : A → M B) (m : M A) : M B :=
  λ w, match m w with
       | (Ok a, w') => k a w'
       | (Throw e, w') => (Throw e, w')
       end.

Global Instance M_ret : MRet M := @ret.
Global Instance M_bind : MBind M := @bind.

(** ** Primitive operations *)

(** [if (v)]: JavaScript truthiness. *)
Definition truthy (v : value) : bool :=
  match v with
  | VUndef | VNull => false
  | VBool b => b
  | VNum n => negb (n =? 0)%Z
  | VStr s => negb (String.eqb s "")
  | VObj _ => true
  end.

(** The indexed characters of a string, which are its own enumerable
    properties. *)
Fixpoint str_props (i : nat) (s : string) : gmap string value :=
  match s with
  | EmptyString => ∅
  | String c r => <[pretty i := VStr (String c EmptyString)]> (str_props (S i) r)
  end.

(** The own enumerable properties of a value, as copied by the spread
    [{...v}] and by a rest pattern. *)
Definition own_props (h : gmap loc object) (v : value) : gmap string value :=
  match v with
  | VObj l => match h !! l with Some o => props o | None => ∅ end
  | VStr s => str_props 0 s
  | _ => ∅
  end.

(** [v.k] on a value that is neither [undefined] nor [null].  Inherited
    properties are not modelled; none of the keys the wrapper reads is one. *)
Definition get_own (h : gmap loc object) (v : value) (k : string) : value :=
  default VUndef (own_props h v !! k).

(** [v.k] *)
Definition get (v : value) (k : string) : M value :=
  λ w, match v with
       | VUndef | VNull => (Throw (TypeError ("Cannot read property " +:+ k)), w)
       | _ => (Ok (get_own (heap w) v k), w)
       end.

(** [v?.k] *)
Definition get_opt (v : value) (k : string) : M value :=
  match v with
  | VUndef | VNull => ret VUndef
  | _ => get v k
  end.

(** [o.k = x]; the module is strict code, so assigning to a property of a
    primitive throws. *)
Definition set (v : value) (k : string) (x : value) : M unit :=
  λ w, match v with
       | VObj l =>
           match heap w !! l with
           | Some o =>
               (Ok tt, with_heap (<[l := {| props := <[k := x]> (props o); redux := redux o |}]> (heap w)) w)
           | None => (Throw (TypeError ("Cannot set property " +:+ k)), w)
           end
       | _ => (Throw (TypeError ("Cannot set property " +:+ k)), w)
       end.

(** [delete o.k] on an object. *)
Definition delete_prop (v : value) (k : string) : M unit :=
  λ w, match v with
       | VObj l =>
           match heap w !! l with
           | Some o =>
               (Ok tt, with_heap (<[l := {| props := delete k (props o); redux := redux o |}]> (heap w)) w)
           | None => (Throw (TypeError ("Cannot convert undefined or null to object")), w)
           end
       | VUndef | VNull => (Throw (TypeError ("Cannot convert undefined or null to object")), w)
       | _ => (Ok tt, w)
       end.

(** Allocation of a new object at a location not in use. *)
Definition alloc (o : object) : M value :=
  λ w, let l := fresh (dom (heap w)) in
       (Ok (VObj l), with_heap (<[l := o]> (heap w)) w).

(** An object literal with the given properties. *)
Definition new_object (m : gmap string value) : M value := alloc (plain m).

(** The heap as the running code sees it. *)
Definition read_heap : M (gmap loc object) := λ w, (Ok (heap w), w).

(** [{...a, ...b}]: later spreads overwrite earlier ones. *)
Definition spread2 (h : gmap loc object) (a b : value) : gmap string value :=
  own_props h b ∪ own_props h a.

Definition console_log (msg : string) (args : list value) : M unit :=
  λ w, (Ok tt, with_console ((LOG, msg, args) :: console w) w).

Definition console_warn (msg : string) : M unit :=
  λ w, (Ok tt, with_console ((WARN, msg, []) :: console w) w).

(** The state of the store [s], when [s] is a store. *)
Definition store_state (w : World) (s : value) : option value :=
  match s with
  | VObj l => heap w !! l ≫= redux
  | _ => None
  end.

(** A reference is allocated when it points to an object of the heap. *)
Definition allocated (h : gmap loc object) (v : value) : Prop :=
  match v with
  | VObj l => is_Some (h !! l)
  | _ => True
  end.

(** [typeof window === 'undefined'] *)
Definition getIsServer : M bool :=
  λ w, (Ok (match window w with None => true | Some _ => false end), w).

(** [k in window] *)
Definition in_window (k : string) : M bool :=
  λ w, match window w with
       | Some g => (Ok (bool_decide (is_Some (g !! k))), w)
       | None => (Throw (ReferenceError "window is not defined"), w)
       end.

(** [window[k]] *)
Definition window_get (k : string) : M value :=
  λ w, match window w with
       | Some g => (Ok (default VUndef (g !! k)), w)
       | None => (Throw (ReferenceError "window is not defined"), w)
       end.

(** [window[k] = x] *)
Definition window_set (k : string) (x : value) : M unit :=
  λ w, match window w with
       | Some g => (Ok tt, with_window (<[k := x]> g) w)
       | None => (Throw (ReferenceError "window is not defined"), w)
       end.

(** ** Configuration *)

Definition HYDRATE : string := "__NEXT_REDUX_WRAPPER_HYDRATE__".
Definition STOREKEY : string := "__NEXT_REDUX_WRAPPER_STORE__".

(** The hooks are user code; they are taken to be total functions of their
    argument. *)
Record Config : Type := MkConfig {
  serializeState : option (value → value);
  deserializeState : option (value → value);
  storeKey : option string;
  debug : bool;
}.

Definition getDeserializedState (initialState : value) (config : Config) : value :=
  match deserializeState config with
  | Some f => f initialState
  | None => initialState
  end.

Definition getSerializedState (state : value) (config : Config) : value :=
  match serializeState config with
  | Some f => f state
  | None => state
  end.

(** [storeKey || STOREKEY]: the empty string is falsy. *)
Definition getStoreKey (config : Config) : string :=
  match storeKey config with
  | Some k => if String.eqb k "" then STOREKEY else k
  | None => STOREKEY
  end.

(** The configuration with the [debug] flag off. *)
Definition undebugged (config : Config) : Config :=
  {| serializeState := serializeState config;
     deserializeState := deserializeState config;
     storeKey := storeKey config;
     debug := false |}.

(** ** Sample configurations, stores and worlds

    Concrete instances on which the definitions below are run. *)

Definition default_config : Config :=
  {| serializeState := None; deserializeState := None; storeKey := None; debug := false |}.

(** A factory whose stores start in state [0]. *)
Definition counter_factory : value → World → Result value := λ _ _, Ok (VNum 0).

(** A factory that fails on its first invocation and succeeds afterwards. *)
Definition flaky_factory : value → World → Result value :=
  λ _ w, match made w with
         | [] => Throw (Thrown (VStr "boom"))
         | _ => Ok (VNum 0)
         end.

(** A reducer that treats the hydration payload as a full overwrite. *)
Definition overwrite_reducer : value → action → value :=
  λ st a, if String.eqb (type a) HYDRATE then payload a else st.

(** A counter: [INCREMENT] adds one, hydration overwrites. *)
Definition counter_reducer : value → action → value :=
  λ st a,
    if String.eqb (type a) "INCREMENT" then
      match st with VNum n => VNum (n + 1) | _ => st end
    else if String.eqb (type a) HYDRATE then payload a
    else st.

(** The browser before any store was made. *)
Definition browser0 : World :=
  {| heap := ∅; window := Some ∅; console := []; made := []; dispatched := [] |}.

(** A server handling one request (object 1): a page context (object 2)
    exposes it as [req], an application context (object 3) as [ctx.req]
    through the page context 4; context 5 exposes no request. *)
Definition server0 : World :=
  {| heap := {[ 1%positive := plain ∅;
                2%positive := plain {[ "req" := VObj 1 ]};
                3%positive := plain {[ "ctx" := VObj 4 ]};
                4%positive := plain {[ "req" := VObj 1 ]};
                5%positive := plain ∅ ]};
     window := None; console := []; made := []; dispatched := [] |}.

(** A server handling two requests (objects 1 and 3), each exposed by a
    page context of its own (objects 2 and 4). *)
Definition two_requests0 : World :=
  {| heap := {[ 1%positive := plain ∅;
                2%positive := plain {[ "req" := VObj 1 ]};
                3%positive := plain ∅;
                4%positive := plain {[ "req" := VObj 3 ]} ]};
     window := None; console := []; made := []; dispatched := [] |}.

(** A world in which the page context (object 2) already carries the
    store (object 1) that an outer phase put there. *)
Definition nested0 : World :=
  {| heap := {[ 1%positive := {| props := ∅; redux := Some (VNum 0) |};
                2%positive := plain {[ "store" := VObj 1 ]} ]};
     window := None; console := []; made := []; dispatched := [] |}.

(** The browser about to render a wrapped application: object 4 is the
    properties given to [Wrapper], with the snapshot [1] of the
    application-level phase, its [initialProps] (object 2, with page
    properties in object 1) and the page properties of the page-level phase
    (object 3), which carry the snapshot [5]. *)
Definition render0 : World :=
  {| heap := {[ 1%positive := plain {[ "x" := VNum 1; "y" := VNum 2 ]};
                2%positive := plain {[ "pageProps" := VObj 1 ]};
                3%positive := plain {[ "initialState" := VNum 5; "x" := VNum 7 ]};
                4%positive := plain {[ "initialState" := VNum 1;
                                       "initialProps" := VObj 2;
                                       "pageProps" := VObj 3 ]} ]};
     window := Some ∅; console := []; made := []; dispatched := [] |}.

(** The browser about to render a page whose page-level snapshot is [0]:
    object 2 is the properties given to [Wrapper], with the
    application-level snapshot [5] and the page properties in object 1. *)
Definition falsy_page0 : World :=
  {| heap := {[ 1%positive := plain {[ "initialState" := VNum 0; "x" := VNum 7 ]};
                2%positive := plain {[ "initialState" := VNum 5; "pageProps" := VObj 1 ]} ]};
     window := Some ∅; console := []; made := []; dispatched := [] |}.

(** The browser about to render with properties (object 2) that hold a
    [key], and [initialProps] (object 1) that hold a [ref]. *)
Definition keyed0 : World :=
  {| heap := {[ 1%positive := plain {[ "b" := VNum 2; "ref" := VNum 9 ]};
                2%positive := plain {[ "key" := VStr "k"; "a" := VNum 1;
                                       "initialProps" := VObj 1 ]} ]};
     window := Some ∅; console := []; made := []; dispatched := [] |}.

(** The same heap once [Wrapper] has taken its parameter apart: object 5 is
    the rest object [props]. *)
Definition merge0 : World :=
  with_heap (<[5%positive := plain {[ "pageProps" := VObj 3 ]}]> (heap render0)) render0.

(** Hooks that shift a numeric state by one and back. *)
Definition shift_config : Config :=
  {| serializeState := Some (λ v, match v with VNum n => VNum (n + 1) | _ => v end);
     deserializeState := Some (λ v, match v with VNum n => VNum (n - 1) | _ => v end);
     storeKey := None; debug := false |}.

(** The default configuration with the [debug] flag on. *)
Definition debug_config : Config :=
  {| serializeState := None; deserializeState := None; storeKey := None; debug := true |}.

(** A configuration with a store key of its own. *)
Definition other_config : Config :=
  {| serializeState := None; deserializeState := None; storeKey := Some "other"; debug := false |}.

(** A callback that returns [{props: {a: 1}}]. *)
Definition props_callback : value → M value :=
  λ _, inner ← new_object {[ "a" := VNum 1 ]}; new_object {[ "props" := inner ]}.

(** A callback that returns the store it finds in its context. *)
Definition store_of_context : value → M value := λ ctx, get ctx "store".

(** ** The wrapper *)

Section createWrapper.

(** The store factory: it either throws or yields the initial state of a new
    store, which is then allocated at a location of its own.  Its outcome may
    depend on the context and on the world it is called in. *)
Variable makeStore : value → World → Result value.
Variable config : Config.
(** The reducer of the stores the factory builds. *)
Variable reducer : value → action → value.

(** [store.getState()] *)
Definition getState (store : value) : M value :=
  λ w, match store with
       | VObj l =>
           match heap w !! l with
           | Some {| props := _; redux := Some st |} => (Ok st, w)
           | _ => (Throw (TypeError "store.getState is not a function"), w)
           end
       | _ => (Throw (TypeError "store.getState is not a function"), w)
       end.

(** [store.dispatch(a)] *)
Definition dispatch (store : value) (a : action) : M unit :=
  λ w, match store with
       | VObj l =>
           match heap w !! l with
           | Some {| props := p; redux := Some st |} =>
               (Ok tt,
                with_heap (<[l := {| props := p; redux := Some (reducer st a) |}]> (heap w))
                  (with_dispatched ((store, a) :: dispatched w) w))
           | _ => (Throw (TypeError "store.dispatch is not a function"), w)
           end
       | _ => (Throw (TypeError "store.dispatch is not a function"), w)
       end.

(** [createStore = () => makeStore(context)] *)
Definition createStore (context : value) : M value :=
  λ w, let w' := with_made (context :: made w) w in
       match makeStore context w with
       | Ok init => alloc {| props := ∅; redux := Some init |} w'
       | Throw e => (Throw e, w')
       end.

Definition MARK : string := "__nextReduxWrapperStore".

(** The request a context exposes on the server: [c.req], overridden by
    [c.ctx.req]. *)
Definition exposed_req (c : value) : M value :=
  r ← get c "req";
  let req := if truthy r then r else VUndef in
  ctx ← get c "ctx";
  if truthy ctx then
    r' ← get ctx "req";
    mret (if truthy r' then r' else req)
  else mret req.

Definition initStore (context : value) : M value :=
  let storeKey := getStoreKey config in
  isServer ← getIsServer;
  if isServer : bool then
    req ← exposed_req context;
    if truthy req then
      cur ← get req MARK;
      (if truthy cur then mret tt
       else s ← createStore context; set req MARK s);;
      get req MARK
    else createStore context
  else
    present ← in_window storeKey;
    (if present : bool then mret tt
     else s ← createStore context; window_set storeKey s);;
    window_get storeKey.

(** *** The data-loading phases *)

(** A user callback ([getInitialProps], [getServerSideProps], ...): it
    receives the enriched context and may do anything to the world, dispatch
    into the store included; awaiting its promise is folded into the call. *)
Definition Callback : Type := value → M value.

(** [callback(x)] where [callback] may be undefined. *)
Definition call (callback : option Callback) (x : value) : M value :=
  match callback with
  | Some f => f x
  | None => throw (TypeError "callback is not a function")
  end.

(** A callback returns objects when what it returns, and the [props] of
    what it returns, are primitive values or references to objects of the
    heap it leaves. *)
Definition returns_objects (f : Callback) : Prop :=
  ∀ arg w r w', f arg w = (Ok r, w') →
                allocated (heap w') r ∧ allocated (heap w') (get_own (heap w') r "props").

(** A callback leaves the snapshot alone when the [props] of what it
    returns have no [initialState] of their own. *)
Definition leaves_snapshot (f : Callback) : Prop :=
  ∀ arg w r w', f arg w = (Ok r, w') →
                own_props (heap w') (get_own (heap w') r "props") !! "initialState" = None.

Definition makeProps (callback : option Callback) (context : value) (isApp : bool) : M value :=
  store ← initStore context;
  (if debug config then
     st ← getState store;
     console_log "1. getProps created store with state" [st]
   else mret tt);;
  initialProps ←
    match callback with
    | Some f =>
        arg ← (if isApp then
                 ctx ← get context "ctx";
                 h ← read_heap;
                 inner ← new_object (<["store" := store]> (own_props h ctx));
                 new_object (<["ctx" := inner]> (own_props h context))
               else
                 h ← read_heap;
                 new_object (<["store" := store]> (own_props h context)));
        r ← f arg;
        if truthy r then mret r else new_object ∅
    | None => new_object ∅
    end;
  (if debug config then
     st ← getState store;
     console_log "3. getProps after dispatches has store state" [st]
   else mret tt);;
  state ← getState store;
  isServer ← getIsServer;
  new_object {[ "initialProps" := initialProps;
                "initialState" := if isServer : bool
                                  then getSerializedState state config
                                  else state ]}.

Definition getInitialPageProps (callback : option Callback) (context : value) : M value :=
  s ← get context "store";
  if truthy s then
    console_warn "No need to wrap pages if _app was wrapped";;
    call callback context
  else makeProps callback context false.

Definition getInitialAppProps (callback : option Callback) (context : value) : M value :=
  makeProps callback context true.

Definition getStaticProps (callback : option Callback) (context : value) : M value :=
  r ← makeProps callback context false;
  initialProps ← get r "initialProps";
  props ← get initialProps "props";
  h ← read_heap;
  settings ← new_object (delete "props" (own_props h initialProps));
  wrapperProps ← new_object (delete "initialProps" (own_props h r));
  h ← read_heap;
  inner ← new_object (spread2 h wrapperProps props);
  new_object (<["props" := inner]> (own_props h settings)).

Definition getServerSideProps (callback : option Callback) (context : value) : M value :=
  getStaticProps callback context.

(** [Wrapper.getInitialProps], installed by [withRedux] when the component
    has a [getInitialProps]. *)
Definition Wrapper_getInitialProps (callback : option Callback) (context : value) : M value :=
  ctx ← get context "ctx";
  if truthy ctx then getInitialAppProps callback context
  else getInitialPageProps callback context.

(** *** The wrapped component *)

(** What React keeps for a mounted [Wrapper] between renders: the two refs,
    and the dependencies [[initialStateFromGSPorGSSR, initialState]] of the
    memoized [hydrate], which are also the values that closure captured. *)
Record Fiber : Type := MkFiber {
  isFirstRender : bool;
  store : value;
  deps : value * value;
}.

(** The body of the [hydrate] callback. *)
Definition hydrate (store initialState initialStateFromGSPorGSSR : value) : M unit :=
  (if truthy initialState then
     dispatch store (Action HYDRATE (getDeserializedState initialState config))
   else mret tt);;
  (if truthy initialStateFromGSPorGSSR then
     dispatch store (Action HYDRATE (getDeserializedState initialStateFromGSPorGSSR config))
   else mret tt).

(** Lines 182-186: the page properties of the application-level phase are
    merged under those of the page-level phase.  [props] is the rest object
    of the parameter pattern. *)
Definition mergePageProps (initialProps props : value) : M unit :=
  app ← (if truthy initialProps then get initialProps "pageProps" else mret initialProps);
  if truthy app then
    page ← get props "pageProps";
    h ← read_heap;
    merged ← new_object (spread2 h app page);
    set props "pageProps" merged
  else mret tt.

(** Lines 188-194: the page-level snapshot is dropped from a clone. *)
Definition cleanup (props initialStateFromGSPorGSSR : value) : M value :=
  if truthy initialStateFromGSPorGSSR then
    page ← get props "pageProps";
    h ← read_heap;
    copy ← new_object (own_props h page);
    resultProps ← new_object (<["pageProps" := copy]> (own_props h props));
    target ← get resultProps "pageProps";
    delete_prop target "initialState";;
    mret resultProps
  else mret props.

(** [React.createElement(Component, config)], to which the JSX of line 198
    compiles: the properties of the component are the own properties of
    [config] but [key], [ref], [__self] and [__source], which React keeps for
    itself.  The wrapped component is taken to declare no [defaultProps]. *)
Definition reserved_props : list string := ["key"; "ref"; "__self"; "__source"].

Definition element_props (config : gmap string value) : gmap string value :=
  foldr delete config reserved_props.

(** The element a render returns: the store given to [Provider] and the
    properties the wrapped component receives. *)
Record Element : Type := MkElement {
  provided : value;
  component_props : value;
}.

(** One render of [Wrapper]; [fiber] is [None] on mount. *)
Definition Wrapper (fiber : option Fiber) (wprops context : value) : M (Fiber * Element) :=
  initialState ← get wprops "initialState";
  initialProps ← get wprops "initialProps";
  h ← read_heap;
  props ← new_object (delete "initialProps" (delete "initialState" (own_props h wprops)));
  let first := match fiber with Some f => isFirstRender f | None => true end in
  page ← get props "pageProps";
  initialStateFromGSPorGSSR ← get_opt page "initialState";
  (if debug config then
     console_log "4. WrappedApp created new store with" [initialState; initialStateFromGSPorGSSR]
   else mret tt);;
  s ← initStore context;
  let current := match fiber with Some f => store f | None => s end in
  (if first then hydrate current initialState initialStateFromGSPorGSSR else mret tt);;
  mergePageProps initialProps props;;
  resultProps ← cleanup props initialStateFromGSPorGSSR;
  h ← read_heap;
  cprops ← new_object (element_props (spread2 h initialProps resultProps));
  mret ({| isFirstRender := first; store := current;
           deps := (initialStateFromGSPorGSSR, initialState) |},
        {| provided := current; component_props := cprops |}).

(** The layout effect with dependencies [[hydrate]], run after a render was
    committed: React runs it on mount and whenever [hydrate] is a new
    closure, that is whenever its dependencies changed under [Object.is]. *)
Definition Wrapper_effect (prev : option Fiber) (cur : Fiber) : M Fiber :=
  let changed := match prev with
                 | Some f => negb (bool_decide (deps f = deps cur))
                 | None => true
                 end in
  if changed then
    if isFirstRender cur then
      mret {| isFirstRender := false; store := store cur; deps := deps cur |}
    else
      hydrate (store cur) (snd (deps cur)) (fst (deps cur));;
      mret cur
  else mret cur.

(** A render pass: the render and, in the browser, its effect.  Effects do
    not run while rendering on the server. *)
Definition render_pass (fiber : option Fiber) (wprops context : value) : M (Fiber * Element) :=
  '(f, el) ← Wrapper fiber wprops context;
  isServer ← getIsServer;
  if isServer : bool then mret (f, el)
  else f' ← Wrapper_effect fiber f; mret (f', el).

(** The interface [WrapperProps]: an object with the properties
    [initialProps] and [initialState]. *)
Definition is_WrapperProps (h : gmap loc object) (v : value) : Prop :=
  is_Some (own_props h v !! "initialProps") ∧ is_Some (own_props h v !! "initialState").

(** Whether a render pass runs [hydrate]: the render does while
    [isFirstRender.current] holds; otherwise the effect does, in the browser,
    when the dependencies of [hydrate] changed.  [f] is the fiber the pass
    leaves, [w'] the world it ends in. *)
Definition pass_hydrates (fiber : option Fiber) (f : Fiber) (w' : World) : bool :=
  match fiber with
  | None => true
  | Some f0 =>
      isFirstRender f0
      || (match window w' with Some _ => true | None => false end
          && negb (bool_decide (deps f0 = deps f)))
  end.

(** A run of store acquisitions, one per context of the list, as successive
    renders or phases make them. *)
Fixpoint acquire_all (contexts : list value) : M (list value) :=
  match contexts with
  | [] => mret []
  | c :: cs => s ← initStore c; ss ← acquire_all cs; mret (s :: ss)
  end.

(** The world left by a run of acquisitions, failed ones included. *)
Definition after_acquisitions (contexts : list value) (w : World) : World :=
  foldl (λ w c, (initStore c w).2) w contexts.

(** The context exposes no request: its [req] and [ctx] are falsy, as for
    the second argument React gives a function component. *)
Definition exposes_no_request (h : gmap loc object) (c : value) : Prop :=
  allocated h c
  ∧ truthy (get_own h c "req") = false
  ∧ truthy (get_own h c "ctx") = false.

(** Every object of [w] is in [w'] with the same properties, and is the
    same object there unless it is a store. *)
Definition stable (w w' : World) : Prop :=
  ∀ l o, heap w !! l = Some o →
         ∃ o', heap w' !! l = Some o' ∧ props o' = props o ∧ (redux o = None → o' = o).

(** [initialProps && initialProps.pageProps] *)
Definition app_pageProps (h : gmap loc object) (initialProps : value) : value :=
  if truthy initialProps then get_own h initialProps "pageProps" else initialProps.

(** What the composition makes of the properties [wprops] given to
    [Wrapper], read off the heap [h]: the rest object of the parameter
    pattern, the page-level snapshot, the merged page properties and the page
    properties that reach the component. *)
Definition rest_props (h : gmap loc object) (wprops : value) : gmap string value :=
  delete "initialProps" (delete "initialState" (own_props h wprops)).

Definition page_snapshot (h : gmap loc object) (wprops : value) : value :=
  match get_own h wprops "pageProps" with
  | VUndef | VNull => VUndef
  | page => get_own h page "initialState"
  end.

Definition merged_pageProps (h : gmap loc object) (wprops : value) : gmap string value :=
  let page := get_own h wprops "pageProps" in
  let app := app_pageProps h (get_own h wprops "initialProps") in
  if truthy app then own_props h page ∪ own_props h app else own_props h page.

Definition exposed_pageProps (h : gmap loc object) (wprops : value) : gmap string value :=
  if truthy (page_snapshot h wprops)
  then delete "initialState" (merged_pageProps h wprops)
  else merged_pageProps h wprops.

(** The values the composition reads are primitive or exist in the heap. *)
Definition props_allocated (h : gmap loc object) (wprops : value) : Prop :=
  allocated h wprops
  ∧ allocated h (get_own h wprops "pageProps")
  ∧ allocated h (get_own h wprops "initialProps")
  ∧ allocated h (app_pageProps h (get_own h wprops "initialProps")).

(** The value is primitive, or an object of [h] other than the one at [lp]. *)
Definition old (h : gmap loc object) (lp : loc) (v : value) : Prop :=
  match v with
  | VObj l => l ≠ lp ∧ is_Some (h !! l)
  | _ => True
  end.

(** Two values are both objects, or the same primitive value. *)
Definition same_shape (v1 v2 : value) : Prop :=
  match v1, v2 with
  | VObj _, VObj _ => True
  | _, _ => v1 = v2
  end.

(** No store is registered where [initStore] would look for one, so that it
    goes on to call the factory: in the browser the key is not in [window];
    on the server the context exposes no request, or one without a store. *)
Definition unmemoized (c : value) (w : World) : bool :=
  match window w with
  | Some g => bool_decide (g !! getStoreKey config = None)
  | None =>
      match (exposed_req c w).1 with
      | Ok req => negb (truthy req) || negb (truthy (get_own (heap w) req MARK))
      | Throw _ => false
      end
  end.

(** A computation is quiet when it dispatches no action and leaves the state
    of every store as it is. *)
Definition quiet {A} (m : M A) : Prop :=
  ∀ w, dispatched (m w).2 = dispatched w
       ∧ ∀ s st, store_state w s = Some st → store_state (m w).2 s = Some st.

(** The worlds a quiet computation relates. *)
Definition quietly (w w' : World) : Prop :=
  dispatched w' = dispatched w
  ∧ ∀ s st, store_state w s = Some st → store_state w' s = Some st.

(** What an acquisition may do to an object that exists already: nothing,
    or, for the request the context exposes, attach a store to it where none
    was attached. *)
Definition marked (c : value) (w : World) (l : loc) (o o' : object) : Prop :=
  o' = o
  ∨ (window w = None ∧ (exposed_req c w).1 = Ok (VObj l)
     ∧ truthy (default VUndef (props o !! MARK)) = false
     ∧ ∃ s, truthy s = true ∧ o' = {| props := <[MARK := s]> (props o); redux := redux o |}).

(** The request at [r] carries the store [s]. *)
Definition attached (r : loc) (s : value) (w : World) : Prop :=
  truthy s = true ∧ ∃ o, heap w !! r = Some o ∧ props o !! MARK = Some s.

(** A computation is calm when it neither invokes the store factory nor
    writes to [window]. *)
Definition calm {A} (m : M A) : Prop :=
  ∀ w, made (m w).2 = made w ∧ window (m w).2 = window w.

(** The hydration actions of a pass with snapshots [A] (application level)
    and [B] (page level), latest first. *)
Definition hydrations (s A B : value) : list (value * action) :=
  (if truthy B then [(s, Action HYDRATE (getDeserializedState B config))] else [])
  ++ (if truthy A then [(s, Action HYDRATE (getDeserializedState A config))] else []).

(** The state in which hydration with the snapshots [A] and [B] leaves a
    store that was in state [st]. *)
Definition hydrated (st A B : value) : value :=
  let st1 := if truthy A
             then reducer st (Action HYDRATE (getDeserializedState A config)) else st in
  if truthy B then reducer st1 (Action HYDRATE (getDeserializedState B config)) else st1.

(** Two worlds that differ in the console at most. *)
Definition sim (w1 w2 : World) : Prop :=
  heap w1 = heap w2 ∧ window w1 = window w2
  ∧ made w1 = made w2 ∧ dispatched w1 = dispatched w2.

(** Two computations are alike when, run in worlds that differ in the
    console at most, they have the same outcome and leave such worlds. *)
Definition alike {A} (m1 m2 : M A) : Prop :=
  ∀ w1 w2, sim w1 w2 → (m1 w1).1 = (m2 w2).1 ∧ sim (m1 w1).2 (m2 w2).2.

(** The same for the runs of the first computation that return. *)
Definition alike_ok {A} (m1 m2 : M A) : Prop :=
  ∀ w1 w2, sim w1 w2 →
           ∀ a w1', m1 w1 = (Ok a, w1') → ∃ w2', m2 w2 = (Ok a, w2') ∧ sim w1' w2'.

(** A factory, or a callback, that does not read the console. *)
Definition console_blind (mk : value → World → Result value) : Prop :=
  ∀ c w1 w2, sim w1 w2 → mk c w1 = mk c w2.

Definition console_blind_callback (callback : option Callback) : Prop :=
  match callback with
  | Some f => ∀ arg, alike (f arg) (f arg)
  | None => True
  end.

(** ** Reasoning about monadic code *)

Lemma bind_Ok {A B} (m : M A) (k : A → M B) w a w' :
  m w = (Ok a, w') → (m ≫= k) w = k a w'.
Proof. intros H. unfold mbind, M_bind, bind. by rewrite H. Qed.

Lemma bind_Throw {A B} (m : M A) (k : A → M B) w e w' :
  m w = (Throw e, w') → (m ≫= k) w = (Throw e, w').
Proof. intros H. unfold mbind, M_bind, bind. by rewrite H. Qed.

Lemma bind_inv_Ok {A B} (m : M A) (k : A → M B) w b w' :
  (m ≫= k) w = (Ok b, w') → ∃ a w1, m w = (Ok a, w1) ∧ k a w1 = (Ok b, w').
Proof.
  unfold mbind, M_bind, bind. destruct (m w) as [[a|e] w1]; [eauto | discriminate].
Qed.

Lemma getIsServer_server w : window w = None → getIsServer w = (Ok true, w).
Proof. intros H. unfold getIsServer. by rewrite H. Qed.

Lemma getIsServer_client w g : window w = Some g → getIsServer w = (Ok false, w).
Proof. intros H. unfold getIsServer. by rewrite H. Qed.

Lemma fresh_loc_None (h : gmap loc object) : h !! fresh (dom h) = None.
Proof. apply not_elem_of_dom, is_fresh. Qed.

Lemma fresh_loc_ne (h : gmap loc object) l o : h !! l = Some o → fresh (dom h) ≠ l.
Proof. intros H E. rewrite <- E, fresh_loc_None in H. discriminate. Qed.

(** *** Code that dispatches nothing *)

Create HintDb quiet.

Lemma quiet_ret {A} (a : A) : quiet (mret a).
Proof. intros w. done. Qed.

Lemma quiet_throw {A} e : quiet (@throw A e).
Proof. intros w. done. Qed.

Lemma quiet_bind {A B} (m : M A) (k : A → M B) :
  quiet m → (∀ a, quiet (k a)) → quiet (m ≫= k).
Proof.
  intros Hm Hk w. specialize (Hm w). unfold mbind, M_bind, bind.
  destruct (m w) as [[a|e] w1]; simpl in *; [|done].
  specialize (Hk a w1). destruct Hm as [Hd Hs], Hk as [Hd' Hs'].
  split; [congruence|eauto].
Qed.

Lemma quiet_if {A} (b : bool) (m1 m2 : M A) :
  quiet m1 → quiet m2 → quiet (if b then m1 else m2).
Proof. by destruct b. Qed.

Lemma quiet_get v k : quiet (get v k).
Proof. intros w. unfold get. by destruct v. Qed.

Lemma quiet_get_opt v k : quiet (get_opt v k).
Proof. unfold get_opt. destruct v; first [apply quiet_ret | apply quiet_get]. Qed.

Lemma quiet_read_heap : quiet read_heap.
Proof. intros w. done. Qed.

Lemma quiet_getIsServer : quiet getIsServer.
Proof. intros w. done. Qed.

Lemma quiet_console_log msg args : quiet (console_log msg args).
Proof. intros w. done. Qed.

Lemma quiet_console_warn msg : quiet (console_warn msg).
Proof. intros w. done. Qed.

Lemma quiet_in_window k : quiet (in_window k).
Proof. intros w. unfold in_window. by destruct (window w). Qed.

Lemma quiet_window_get k : quiet (window_get k).
Proof. intros w. unfold window_get. by destruct (window w). Qed.

Lemma quiet_window_set k x : quiet (window_set k x).
Proof. intros w. unfold window_set. by destruct (window w). Qed.

Lemma store_state_insert_other w h l o s st :
  heap w !! l = None → store_state w s = Some st →
  store_state (with_heap (<[l := o]> (heap w)) h) s = Some st.
Proof.
  intros Hl. destruct s as [| | | | |l']; simpl; try done.
  destruct (decide (l = l')) as [->|Hne]; [by rewrite Hl|].
  by rewrite lookup_insert_ne.
Qed.

Lemma store_state_insert_same w h l o o' s st :
  heap w !! l = Some o → redux o' = redux o → store_state w s = Some st →
  store_state (with_heap (<[l := o']> (heap w)) h) s = Some st.
Proof.
  intros Hl Hr. destruct s as [| | | | |l']; simpl; try done.
  destruct (decide (l = l')) as [->|Hne].
  - rewrite Hl, lookup_insert_eq. simpl. by rewrite Hr.
  - by rewrite lookup_insert_ne.
Qed.

Lemma quiet_alloc o : quiet (alloc o).
Proof.
  intros w. split; [done|]. intros s st. simpl.
  apply store_state_insert_other, fresh_loc_None.
Qed.

Lemma quiet_new_object m : quiet (new_object m).
Proof. apply quiet_alloc. Qed.

Lemma quiet_set v k x : quiet (set v k x).
Proof.
  intros w. unfold set. destruct v as [| | | | |l]; try done.
  destruct (heap w !! l) as [o|] eqn:Hl; [|done]. split; [done|].
  intros s st. simpl. by eapply store_state_insert_same.
Qed.

Lemma quiet_delete_prop v k : quiet (delete_prop v k).
Proof.
  intros w. unfold delete_prop. destruct v as [| | | | |l]; try done.
  destruct (heap w !! l) as [o|] eqn:Hl; [|done]. split; [done|].
  intros s st. simpl. by eapply store_state_insert_same.
Qed.

Lemma quiet_createStore c : quiet (createStore c).
Proof.
  intros w. unfold createStore. destruct (makeStore c w); [|done].
  split; [done|]. intros s st. simpl.
  intros H. apply (store_state_insert_other w); [apply fresh_loc_None|done].
Qed.

#[local] Hint Resolve quiet_ret quiet_throw quiet_get quiet_get_opt quiet_read_heap
  quiet_getIsServer quiet_console_log quiet_console_warn quiet_in_window
  quiet_window_get quiet_window_set quiet_alloc quiet_new_object quiet_set
  quiet_delete_prop quiet_createStore : quiet.

(** Decomposes a monadic program into its primitive steps. *)
Ltac quiet_steps :=
  repeat first
    [ apply quiet_bind; [|intros ?]
    | apply quiet_if
    | progress eauto with quiet
    | match goal with |- quiet (match ?x with _ => _ end) => destruct x end ].

Lemma quiet_getState s : quiet (getState s).
Proof. intros w. unfold getState. repeat case_match; done. Qed.

Lemma quiet_exposed_req c : quiet (exposed_req c).
Proof. unfold exposed_req. quiet_steps. Qed.

Lemma quiet_initStore c : quiet (initStore c).
Proof. unfold initStore. quiet_steps. Qed.

Lemma quiet_mergePageProps initialProps props : quiet (mergePageProps initialProps props).
Proof. unfold mergePageProps. quiet_steps. Qed.

Lemma quiet_cleanup props pageState : quiet (cleanup props pageState).
Proof. unfold cleanup. quiet_steps. Qed.

#[local] Hint Resolve quiet_getState quiet_exposed_req quiet_initStore quiet_mergePageProps
  quiet_cleanup : quiet.



Lemma quiet_run {A} (m : M A) w r w' : quiet m → m w = (r, w') → quietly w w'.
Proof. intros Hq Hm. specialize (Hq w). by rewrite Hm in Hq. Qed.

(** *** Hydration *)

Lemma dispatch_inv s a w w' :
  dispatch s a w = (Ok tt, w') →
  dispatched w' = (s, a) :: dispatched w
  ∧ ∃ st, store_state w s = Some st
          ∧ store_state w' s = Some (reducer st a)
          ∧ ∀ s' st', s' ≠ s → store_state w s' = Some st' → store_state w' s' = Some st'.
Proof.
  unfold dispatch. destruct s as [| | | | |l]; try done.
  destruct (heap w !! l) as [[p [st|]]|] eqn:Hl; simpl; try done.
  intros [= <-]. split; [done|]. exists st. simpl. rewrite Hl, lookup_insert_eq.
  split; [done|]. split; [done|].
  intros [| | | | |l'] st' Hne; simpl; try done.
  rewrite lookup_insert_ne by congruence. done.
Qed.


Lemma hydrate_window s A B w : window (hydrate s A B w).2 = window w.
Proof.
  unfold hydrate, mbind, M_bind, bind, dispatch, mret, M_ret, ret.
  repeat case_match; simplify_eq/=; done.
Qed.



Lemma Wrapper_effect_inv prev cur w f w' :
  Wrapper_effect prev cur w = (Ok f, w') →
  deps f = deps cur ∧ store f = store cur
  ∧ if match prev with
        | Some f0 => negb (bool_decide (deps f0 = deps cur))
        | None => true
        end && negb (isFirstRender cur)
    then hydrate (store cur) (deps cur).2 (deps cur).1 w = (Ok tt, w')
    else w' = w.
Proof.
  unfold Wrapper_effect.
  destruct (match prev with Some _ => _ | None => _ end); simpl.
  - destruct (isFirstRender cur); simpl.
    + by intros [= <- <-].
    + intros H. apply bind_inv_Ok in H as ([] & w1 & Hh & [= <- <-]). done.
  - by intros [= <- <-].
Qed.

(** *** The shared phase routine *)

Lemma getState_inv s w st w' :
  getState s w = (Ok st, w') → w' = w ∧ store_state w s = Some st.
Proof.
  unfold getState. destruct s as [| | | | |l]; try done. simpl.
  destruct (heap w !! l) as [[p [st'|]]|]; simpl; try done.
  by intros [= <- <-].
Qed.

(** The part of [makeProps] that runs the callback. *)
Abbreviation callback_part callback context isApp store :=
  (match callback with
   | Some f =>
       arg ← (if isApp : bool then
                ctx ← get context "ctx";
                h ← read_heap;
                inner ← new_object (<["store" := store]> (own_props h ctx));
                new_object (<["ctx" := inner]> (own_props h context))
              else
                h ← read_heap;
                new_object (<["store" := store]> (own_props h context)));
       r ← f arg;
       if truthy r then mret r else new_object ∅
   | None => new_object ∅
   end) (only parsing).


(** *** Reading objects across allocations *)

Lemma allocated_insert h l o v : allocated h v → allocated (<[l := o]> h) v.
Proof.
  destruct v as [| | | | |l']; simpl; try done.
  intros [o' Ho']. destruct (decide (l = l')) as [->|Hne].
  - rewrite lookup_insert_eq. eauto.
  - rewrite lookup_insert_ne by done. eauto.
Qed.

Lemma own_props_insert_fresh h o v :
  allocated h v → own_props (<[fresh (dom h) := o]> h) v = own_props h v.
Proof.
  destruct v as [| | | | |l]; simpl; try done.
  intros [o' Ho']. rewrite lookup_insert_ne; [done|]. by eapply fresh_loc_ne.
Qed.

Lemma own_props_insert_eq h l m : own_props (<[l := plain m]> h) (VObj l) = m.
Proof. simpl. by rewrite lookup_insert_eq. Qed.

Lemma allocated_new h l o : allocated (<[l := o]> h) (VObj l).
Proof. simpl. rewrite lookup_insert_eq. eauto. Qed.

Lemma get_new l k m h w :
  get (VObj l) k (with_heap (<[l := plain m]> h) w)
  = (Ok (default VUndef (m !! k)), with_heap (<[l := plain m]> h) w).
Proof. unfold get, get_own. simpl. by rewrite lookup_insert_eq. Qed.

Lemma get_own_insert_fresh h o v k :
  allocated h v → get_own (<[fresh (dom h) := o]> h) v k = get_own h v k.
Proof. intros H. unfold get_own. by rewrite own_props_insert_fresh. Qed.

(** *** Store acquisition in the browser *)

Lemma initStore_client_hit c w g s :
  window w = Some g → g !! getStoreKey config = Some s →
  initStore c w = (Ok s, w).
Proof.
  intros Hw Hk. unfold initStore.
  rewrite (bind_Ok _ _ _ _ _ (getIsServer_client _ _ Hw)).
  unfold mbind, M_bind, bind, in_window, window_get, mret, M_ret, ret.
  rewrite Hw, Hk, bool_decide_true by eauto. by rewrite Hw, Hk.
Qed.

Lemma initStore_client_miss c w g init :
  window w = Some g → g !! getStoreKey config = None →
  makeStore c w = Ok init →
  let l := fresh (dom (heap w)) in
  initStore c w =
    (Ok (VObj l),
     {| heap := <[l := {| props := ∅; redux := Some init |}]> (heap w);
        window := Some (<[getStoreKey config := VObj l]> g);
        console := console w;
        made := c :: made w;
        dispatched := dispatched w |}).
Proof.
  intros Hw Hk Hm l. unfold initStore.
  rewrite (bind_Ok _ _ _ _ _ (getIsServer_client _ _ Hw)).
  unfold mbind, M_bind, bind, in_window, window_get, window_set, createStore,
    alloc, mret, M_ret, ret.
  rewrite Hw, Hk, bool_decide_false by (by intros [? ?]).
  rewrite Hm. simpl. rewrite Hw. simpl. by rewrite lookup_insert_eq.
Qed.

Lemma acquire_all_client_hit cs w g s :
  window w = Some g → g !! getStoreKey config = Some s →
  acquire_all cs w = (Ok (replicate (length cs) s), w).
Proof.
  intros Hw Hk. induction cs as [|c cs IH]; [done|].
  simpl. rewrite (bind_Ok _ _ _ _ _ (initStore_client_hit c _ _ _ Hw Hk)).
  by rewrite (bind_Ok _ _ _ _ _ IH).
Qed.

(** *** Store acquisition on the server *)

Lemma exposed_req_world c w : (exposed_req c w).2 = w.
Proof.
  unfold exposed_req, mbind, M_bind, bind, get, mret, M_ret, ret.
  repeat case_match; simplify_eq/=; done.
Qed.

Lemma get_truthy v k w : truthy v = true → get v k w = (Ok (get_own (heap w) v k), w).
Proof. by destruct v. Qed.

Lemma initStore_server c w req :
  window w = None → (exposed_req c w).1 = Ok req →
  initStore c w =
    if truthy req then
      if truthy (get_own (heap w) req MARK) then (Ok (get_own (heap w) req MARK), w)
      else ((s ← createStore c; set req MARK s);; get req MARK) w
    else createStore c w.
Proof.
  intros Hw Hreq. unfold initStore.
  rewrite (bind_Ok _ _ _ _ _ (getIsServer_server _ Hw)).
  pose proof (exposed_req_world c w) as Hsame.
  destruct (exposed_req c w) as [r w1] eqn:E. simpl in *. subst r w1.
  rewrite (bind_Ok _ _ _ _ _ E).
  destruct (truthy req) eqn:Ht; [|done].
  rewrite (bind_Ok _ _ _ _ _ (get_truthy _ _ _ Ht)).
  destruct (truthy (get_own (heap w) req MARK)) eqn:Hc; [|done].
  unfold mbind, M_bind, bind, mret, M_ret, ret. by rewrite (get_truthy _ _ _ Ht).
Qed.

Lemma createStore_spec c w :
  (∃ init, makeStore c w = Ok init ∧
     createStore c w =
       (Ok (VObj (fresh (dom (heap w)))),
        with_heap (<[fresh (dom (heap w)) := {| props := ∅; redux := Some init |}]> (heap w))
          (with_made (c :: made w) w)))
  ∨ (∃ e, makeStore c w = Throw e ∧ createStore c w = (Throw e, with_made (c :: made w) w)).
Proof.
  unfold createStore. destruct (makeStore c w) as [init|e]; [left|right]; eauto.
Qed.

Lemma initStore_footprint c w l o :
  heap w !! l = Some o →
  ∃ o', heap (initStore c w).2 !! l = Some o' ∧ marked c w l o o'.
Proof.
  intros Hl. destruct (window w) as [g|] eqn:Hw.
  - (* browser *)
    destruct (g !! getStoreKey config) as [s|] eqn:Hk.
    + rewrite (initStore_client_hit _ _ _ _ Hw Hk). exists o. split; [done|by left].
    + unfold initStore. rewrite (bind_Ok _ _ _ _ _ (getIsServer_client _ _ Hw)).
      unfold mbind, M_bind, bind, in_window, window_get, window_set, mret, M_ret, ret.
      rewrite Hw, Hk, bool_decide_false by (by intros [? ?]).
      destruct (createStore_spec c w) as [(init & _ & ->)|(e & _ & ->)]; simpl; rewrite ?Hw; simpl.
      * exists o. split; [|by left].
        rewrite lookup_insert_ne; [done|]. by eapply fresh_loc_ne.
      * exists o. split; [done|by left].
  - (* server *)
    pose proof (exposed_req_world c w) as Hsame.
    destruct (exposed_req c w) as [[req|e] w1] eqn:E; simpl in Hsame; subst w1.
    2:{ unfold initStore. rewrite (bind_Ok _ _ _ _ _ (getIsServer_server _ Hw)).
        rewrite (bind_Throw _ _ _ _ _ E). exists o. split; [done|by left]. }
    rewrite (initStore_server c w req Hw) by (by rewrite E).
    destruct (truthy req) eqn:Ht.
    + destruct (truthy (get_own (heap w) req MARK)) eqn:Hc.
      { exists o. split; [done|by left]. }
      unfold mbind, M_bind, bind.
      destruct (createStore_spec c w) as [(init & _ & ->)|(e & _ & ->)]; simpl.
      2:{ exists o. split; [done|by left]. }
      set (n := fresh (dom (heap w))).
      assert (Hn : n ≠ l) by (by eapply fresh_loc_ne).
      destruct req as [| | | | |r]; simpl; try (exists o; split; [by rewrite lookup_insert_ne|by left]).
      destruct (decide (r = n)) as [->|Hrn].
      * rewrite lookup_insert_eq. simpl. exists o. split; [|by left].
        rewrite insert_insert_eq. by rewrite lookup_insert_ne.
      * rewrite lookup_insert_ne by done.
        destruct (heap w !! r) as [ro|] eqn:Hr; simpl.
        2:{ exists o. split; [by rewrite lookup_insert_ne|by left]. }
        destruct (decide (r = l)) as [->|Hrl].
        -- simplify_eq. eexists. split; [by rewrite lookup_insert_eq|].
           right. split; [done|]. split; [by rewrite E|].
           unfold get_own in Hc. simpl in Hc. rewrite Hl in Hc. split; [done|].
           exists (VObj n). done.
        -- exists o. split; [|by left]. by rewrite !lookup_insert_ne.
    + destruct (createStore_spec c w) as [(init & _ & ->)|(e & _ & ->)]; simpl.
      * exists o. split; [|by left]. rewrite lookup_insert_ne; [done|]. by eapply fresh_loc_ne.
      * exists o. split; [done|by left].
Qed.

Lemma initStore_window_server c w : window w = None → window (initStore c w).2 = None.
Proof.
  intros Hw.
  pose proof (exposed_req_world c w) as Hsame.
  destruct (exposed_req c w) as [[req|e] w1] eqn:E; simpl in Hsame; subst w1.
  2:{ unfold initStore. rewrite (bind_Ok _ _ _ _ _ (getIsServer_server _ Hw)).
      by rewrite (bind_Throw _ _ _ _ _ E). }
  rewrite (initStore_server c w req Hw) by (by rewrite E).
  unfold mbind, M_bind, bind.
  destruct (createStore_spec c w) as [(init & _ & ->)|(e & _ & ->)];
    unfold set, get; repeat case_match; simplify_eq/=; done.
Qed.

Lemma attached_get r s w : attached r s w → get_own (heap w) (VObj r) MARK = s.
Proof. intros (_ & o & Ho & Hs). unfold get_own. simpl. by rewrite Ho, Hs. Qed.

Lemma initStore_attached_preserved c r s w :
  attached r s w → attached r s (initStore c w).2.
Proof.
  intros (Hs & o & Ho & Hm).
  destruct (initStore_footprint c w r o Ho) as (o' & Ho' & [->|(_ & _ & Hf & _)]).
  - split; [done|]. eauto.
  - rewrite Hm in Hf. simpl in Hf. congruence.
Qed.

Lemma after_acquisitions_attached cs r s w :
  attached r s w → attached r s (after_acquisitions cs w).
Proof.
  revert w. induction cs as [|c cs IH]; intros w H; [done|].
  simpl. apply IH. by apply initStore_attached_preserved.
Qed.

Lemma after_acquisitions_window_server cs w :
  window w = None → window (after_acquisitions cs w) = None.
Proof.
  revert w. induction cs as [|c cs IH]; intros w H; [done|].
  simpl. apply IH. by apply initStore_window_server.
Qed.

Lemma initStore_attaches c r w s w1 :
  window w = None → (exposed_req c w).1 = Ok (VObj r) →
  initStore c w = (Ok s, w1) → attached r s w1.
Proof.
  intros Hw Hr. rewrite (initStore_server c w _ Hw Hr). simpl.
  destruct (truthy (get_own (heap w) (VObj r) MARK)) eqn:Hc.
  - intros [= <- <-]. split; [done|].
    unfold get_own in *. simpl in *.
    destruct (heap w !! r) as [o|]; [|done].
    destruct (props o !! MARK) eqn:Hm; [|done]. eauto.
  - unfold mbind, M_bind, bind.
    destruct (createStore_spec c w) as [(init & _ & ->)|(e & _ & ->)]; [|done].
    simpl. destruct (decide (r = fresh (dom (heap w)))) as [->|Hne].
    + rewrite lookup_insert_eq. simpl. unfold get_own. simpl.
      rewrite lookup_insert_eq. simpl. rewrite lookup_insert_eq. simpl.
      intros [= <- <-]. split; [done|]. simpl. rewrite lookup_insert_eq.
      eexists. split; [done|]. simpl. by rewrite lookup_insert_eq.
    + rewrite lookup_insert_ne by done.
      destruct (heap w !! r) as [o|]; [|done]. simpl.
      unfold get_own. simpl. rewrite lookup_insert_eq. simpl. rewrite lookup_insert_eq. simpl.
      intros [= <- <-]. split; [done|]. simpl. rewrite lookup_insert_eq.
      eexists. split; [done|]. simpl. by rewrite lookup_insert_eq.
Qed.

Lemma initStore_server_hit c r s w :
  window w = None → (exposed_req c w).1 = Ok (VObj r) → attached r s w →
  initStore c w = (Ok s, w).
Proof.
  intros Hw Hr Ha. rewrite (initStore_server c w _ Hw Hr). simpl.
  rewrite (attached_get _ _ _ Ha). by destruct Ha as [-> _].
Qed.

Lemma initStore_server_fresh c w req init :
  window w = None → (exposed_req c w).1 = Ok req → truthy req = false →
  makeStore c w = Ok init →
  initStore c w =
    (Ok (VObj (fresh (dom (heap w)))),
     with_heap (<[fresh (dom (heap w)) := {| props := ∅; redux := Some init |}]> (heap w))
       (with_made (c :: made w) w)).
Proof.
  intros Hw Hr Ht Hm. rewrite (initStore_server c w _ Hw Hr), Ht.
  unfold createStore. by rewrite Hm.
Qed.

Lemma exposed_req_heap c w w' :
  heap w = heap w' → (exposed_req c w).1 = (exposed_req c w').1.
Proof.
  intros H. unfold exposed_req, mbind, M_bind, bind, get, mret, M_ret, ret.
  destruct c; simpl; try done; rewrite <- ?H.
  all: destruct (get_own (heap w) _ "ctx"); simpl; try done; rewrite <- ?H; try done.
  all: repeat (case_match; simpl; rewrite <- ?H; try done).
Qed.

Lemma unmemoized_with_made c m w : unmemoized c (with_made m w) = unmemoized c w.
Proof.
  unfold unmemoized. simpl.
  by rewrite (exposed_req_heap c (with_made m w) w).
Qed.

(** An acquisition that finds nothing memoized starts by calling the
    factory. *)
Lemma initStore_unmemoized c w :
  unmemoized c w = true →
  (∀ e, makeStore c w = Throw e → initStore c w = (Throw e, with_made (c :: made w) w))
  ∧ made (initStore c w).2 = c :: made w.
Proof.
  unfold unmemoized. intros Hu.
  destruct (window w) as [g|] eqn:Hw.
  - apply bool_decide_eq_true in Hu.
    unfold initStore. rewrite (bind_Ok _ _ _ _ _ (getIsServer_client _ _ Hw)).
    unfold mbind, M_bind, bind, in_window, window_get, window_set, mret, M_ret, ret.
    rewrite Hw, Hu, bool_decide_false by (by intros [? ?]).
    destruct (createStore_spec c w) as [(init & Hm & ->)|(e & Hm & ->)]; simpl.
    + rewrite Hw. simpl. split; [|done]. intros e He. congruence.
    + split; [|done]. intros e' He. congruence.
  - destruct ((exposed_req c w).1) as [req|] eqn:Hr; [|done].
    rewrite (initStore_server c w req Hw Hr).
    destruct (truthy req) eqn:Ht; simpl in Hu.
    + apply negb_true_iff in Hu. rewrite Hu. unfold mbind, M_bind, bind.
      destruct (createStore_spec c w) as [(init & Hm & ->)|(e & Hm & ->)]; simpl.
      * split; [intros e He; congruence|].
        unfold set, get. repeat case_match; simplify_eq/=; done.
      * split; [|done]. intros e' He. congruence.
    + destruct (createStore_spec c w) as [(init & Hm & ->)|(e & Hm & ->)]; simpl.
      * split; [|done]. intros e He. congruence.
      * split; [|done]. intros e' He. congruence.
Qed.

(** *** Composition of the properties *)

Lemma mergePageProps_spec initialProps l o w :
  heap w !! l = Some o →
  let app := app_pageProps (heap w) initialProps in
  let page := default VUndef (props o !! "pageProps") in
  let m := fresh (dom (heap w)) in
  mergePageProps initialProps (VObj l) w =
    if truthy app then
      (Ok tt,
       with_heap
         (<[l := {| props := <["pageProps" := VObj m]> (props o); redux := redux o |}]>
            (<[m := plain (spread2 (heap w) app page)]> (heap w))) w)
    else (Ok tt, w).
Proof.
  intros Hl app page m. unfold mergePageProps.
  assert (Happ : (if truthy initialProps then get initialProps "pageProps" else mret initialProps) w
                 = (Ok app, w)).
  { unfold app, app_pageProps. destruct (truthy initialProps) eqn:Ht; [|done].
    by apply get_truthy. }
  rewrite (bind_Ok _ _ _ _ _ Happ).
  destruct (truthy app); [|done].
  unfold mbind, M_bind, bind, get, read_heap, new_object, alloc, set, get_own. simpl.
  rewrite Hl. simpl. fold page. fold m.
  rewrite lookup_insert_ne by (by eapply fresh_loc_ne).
  rewrite Hl. done.
Qed.

Lemma cleanup_spec l o B w :
  heap w !! l = Some o →
  let page := default VUndef (props o !! "pageProps") in
  let c := fresh (dom (heap w)) in
  let h1 := <[c := plain (own_props (heap w) page)]> (heap w) in
  let rp := fresh (dom h1) in
  cleanup (VObj l) B w =
    if truthy B then
      (Ok (VObj rp),
       with_heap (<[c := plain (delete "initialState" (own_props (heap w) page))]>
                    (<[rp := plain (<["pageProps" := VObj c]> (props o))]> h1)) w)
    else (Ok (VObj l), w).
Proof.
  intros Hl page c h1 rp. unfold cleanup.
  destruct (truthy B); [|done].
  unfold mbind, M_bind, bind, get, read_heap, new_object, alloc, delete_prop, get_own.
  simpl. rewrite Hl. simpl. fold page. fold c. fold h1. fold rp.
  rewrite lookup_insert_eq. simpl. rewrite lookup_insert_eq. simpl.
  assert (Hne : rp ≠ c) by (unfold rp, h1; eapply fresh_loc_ne; apply lookup_insert_eq).
  rewrite lookup_insert_ne by done. unfold h1 at 1. rewrite lookup_insert_eq. done.
Qed.

(** *** What a render leaves untouched *)

Lemma stable_refl w : stable w w.
Proof. intros l o H. eauto. Qed.

Lemma stable_trans w1 w2 w3 : stable w1 w2 → stable w2 w3 → stable w1 w3.
Proof.
  intros H1 H2 l o Hl.
  destruct (H1 l o Hl) as (o' & Hl' & Hp & Hr).
  destruct (H2 l o' Hl') as (o'' & Hl'' & Hp' & Hr').
  exists o''. split; [done|]. split; [congruence|].
  intros Hn. specialize (Hr Hn). subst o'. auto.
Qed.

Lemma stable_same_heap w w' : heap w' = heap w → stable w w'.
Proof. intros E l o H. rewrite E. eauto. Qed.

Lemma stable_alloc o w : stable w (alloc o w).2.
Proof.
  intros l o' Hl. simpl. exists o'.
  rewrite lookup_insert_ne by (by eapply fresh_loc_ne). done.
Qed.

Lemma stable_allocated w w' v : stable w w' → allocated (heap w) v → allocated (heap w') v.
Proof.
  intros Hs. destruct v as [| | | | |l]; simpl; try done.
  intros [o Ho]. destruct (Hs l o Ho) as (o' & Ho' & _). eauto.
Qed.

Lemma stable_own_props w w' v :
  stable w w' → allocated (heap w) v → own_props (heap w') v = own_props (heap w) v.
Proof.
  intros Hs. destruct v as [| | | | |l]; simpl; try done.
  intros [o Ho]. destruct (Hs l o Ho) as (o' & Ho' & Hp & _). by rewrite Ho, Ho'.
Qed.

Lemma stable_get_own w w' v k :
  stable w w' → allocated (heap w) v → get_own (heap w') v k = get_own (heap w) v k.
Proof. intros Hs Ha. unfold get_own. by rewrite (stable_own_props w w'). Qed.

Lemma stable_exposes_no_request w w' c :
  stable w w' → exposes_no_request (heap w) c → exposes_no_request (heap w') c.
Proof.
  intros Hs (Ha & Hr & Hc). split; [by eapply stable_allocated|].
  by rewrite !(stable_get_own w w').
Qed.

Lemma exposed_req_none c w l :
  exposes_no_request (heap w) c → (exposed_req c w).1 ≠ Ok (VObj l).
Proof.
  intros (_ & Hr & Hc).
  unfold exposed_req, mbind, M_bind, bind, get, mret, M_ret, ret.
  destruct c; simpl; try done; rewrite Hr, Hc; done.
Qed.

Lemma stable_initStore c w :
  exposes_no_request (heap w) c → stable w (initStore c w).2.
Proof.
  intros Hc l o Hl.
  destruct (initStore_footprint c w l o Hl) as (o' & Ho' & [->|(_ & Hr & _)]).
  - eauto.
  - by apply exposed_req_none in Hr.
Qed.

Lemma stable_dispatch s a w : stable w (dispatch s a w).2.
Proof.
  unfold dispatch. destruct s as [| | | | |l]; try apply stable_refl.
  destruct (heap w !! l) as [[p [st|]]|] eqn:Hl; simpl; try apply stable_refl.
  intros l' o' Hl'. simpl. destruct (decide (l = l')) as [<-|Hne].
  - rewrite lookup_insert_eq. rewrite Hl in Hl'. injection Hl' as <-.
    eexists. split; [done|]. split; [done|]. done.
  - rewrite lookup_insert_ne by done. eauto.
Qed.

Lemma stable_hydrate s A B w : stable w (hydrate s A B w).2.
Proof.
  unfold hydrate, mbind, M_bind, bind.
  destruct (truthy A).
  - pose proof (stable_dispatch s (Action HYDRATE (getDeserializedState A config)) w) as H1.
    destruct (dispatch s _ w) as [[[]|e] w1]; simpl in *; [|done].
    destruct (truthy B); [|done].
    eapply stable_trans; [exact H1|]. apply stable_dispatch.
  - simpl. destruct (truthy B); [|apply stable_refl]. apply stable_dispatch.
Qed.

Lemma stable_debug_log (b : bool) msg args w :
  stable w ((if b then console_log msg args else mret tt) w).2.
Proof. destruct b; by apply stable_same_heap. Qed.

Lemma get_inv v k w x w' :
  get v k w = (Ok x, w') → w' = w ∧ x = get_own (heap w) v k.
Proof. unfold get. destruct v; try done; by intros [= <- <-]. Qed.

Lemma get_opt_inv v k w x w' :
  get_opt v k w = (Ok x, w') →
  w' = w ∧ x = match v with VUndef | VNull => VUndef | _ => get_own (heap w) v k end.
Proof. unfold get_opt, get. destruct v; by intros [= <- <-]. Qed.

(** The world in which the composition starts: the rest object is at a new
    location [lp], everything that existed is as it was. *)
Lemma Wrapper_prefix fiber wprops context w f el w' :
  Wrapper fiber wprops context w = (Ok (f, el), w') →
  exposes_no_request (heap w) context → props_allocated (heap w) wprops →
  ∃ lp w3 fr s,
    heap w !! lp = None
    ∧ stable w w3
    ∧ heap w3 !! lp = Some (plain (rest_props (heap w) wprops))
    ∧ (mergePageProps (get_own (heap w) wprops "initialProps") (VObj lp);;
       resultProps ← cleanup (VObj lp) (page_snapshot (heap w) wprops);
       h ← read_heap;
       cprops ← new_object (element_props
                              (spread2 h (get_own (heap w) wprops "initialProps") resultProps));
       mret ({| isFirstRender := fr; store := s;
                deps := (page_snapshot (heap w) wprops,
                         get_own (heap w) wprops "initialState") |},
             {| provided := s; component_props := cprops |})) w3
      = (Ok (f, el), w').
Proof.
  intros H Hctx (Hwp & Hpage & Hip & Happ). unfold Wrapper in H.
  apply bind_inv_Ok in H as (A & wa & HA & H). apply get_inv in HA as [-> ->].
  apply bind_inv_Ok in H as (ip & wb & Hb & H). apply get_inv in Hb as [-> ->].
  apply bind_inv_Ok in H as (h & wc & Hc & H). injection Hc as <- <-.
  apply bind_inv_Ok in H as (props & w1 & Hd & H).
  unfold new_object, alloc in Hd. injection Hd as <- <-.
  fold (rest_props (heap w) wprops) in H.
  set (lp := fresh (dom (heap w))) in *.
  set (R := rest_props (heap w) wprops) in *.
  set (w1 := with_heap (<[lp := plain R]> (heap w)) w) in *.
  assert (S1 : stable w w1) by apply (stable_alloc (plain R) w).
  assert (Hlp : heap w1 !! lp = Some (plain R)) by apply lookup_insert_eq.
  apply bind_inv_Ok in H as (page & we & He & H). apply get_inv in He as [-> ->].
  assert (Epage : get_own (heap w1) (VObj lp) "pageProps" = get_own (heap w) wprops "pageProps").
  { unfold get_own at 1. simpl. rewrite lookup_insert_eq. simpl.
    unfold R, rest_props. by rewrite !lookup_delete_ne. }
  rewrite Epage in H.
  apply bind_inv_Ok in H as (B & wf & Hf & H). apply get_opt_inv in Hf as [-> ->].
  assert (EB : match get_own (heap w) wprops "pageProps" with
               | VUndef | VNull => VUndef
               | _ => get_own (heap w1) (get_own (heap w) wprops "pageProps") "initialState"
               end = page_snapshot (heap w) wprops).
  { unfold page_snapshot. rewrite (stable_get_own w w1 _ "initialState" S1 Hpage).
    by destruct (get_own (heap w) wprops "pageProps"). }
  rewrite EB in H.
  apply bind_inv_Ok in H as ([] & w1c & Hg & H).
  assert (S1c : stable w1 w1c).
  { pose proof (stable_debug_log (debug config) "4. WrappedApp created new store with"
                  [get_own (heap w) wprops "initialState"; page_snapshot (heap w) wprops] w1) as Hs.
    by rewrite Hg in Hs. }
  apply bind_inv_Ok in H as (s & w2 & Hi & H).
  assert (S2 : stable w1c w2).
  { pose proof (stable_initStore context w1c) as Hs. rewrite Hi in Hs. apply Hs.
    eapply stable_exposes_no_request; [|exact Hctx]. by eapply stable_trans. }
  apply bind_inv_Ok in H as ([] & w3 & Hh & H).
  assert (S3 : stable w2 w3).
  { destruct (match fiber with Some f0 => isFirstRender f0 | None => true end).
    - pose proof (stable_hydrate (match fiber with Some f0 => store f0 | None => s end)
                    (get_own (heap w) wprops "initialState") (page_snapshot (heap w) wprops) w2) as Hs.
      by rewrite Hh in Hs.
    - injection Hh as <-. apply stable_refl. }
  assert (S13 : stable w1 w3) by (eapply stable_trans; [|exact S3]; by eapply stable_trans).
  exists lp, w3, (match fiber with Some f0 => isFirstRender f0 | None => true end),
    (match fiber with Some f0 => store f0 | None => s end).
  split; [apply fresh_loc_None|].
  split; [by eapply stable_trans|].
  split.
  { destruct (S13 lp (plain R) Hlp) as (o' & Ho' & _ & Hr). by rewrite Ho', Hr. }
  exact H.
Qed.

(** *** The composed properties *)

Lemma own_props_insert_ne h l o v :
  v ≠ VObj l → own_props (<[l := o]> h) v = own_props h v.
Proof.
  destruct v as [| | | | |l']; simpl; try done.
  intros Hne. rewrite lookup_insert_ne; [done|congruence].
Qed.

Lemma old_ne_fresh h lp v : old h lp v → v ≠ VObj (fresh (dom h)).
Proof.
  destruct v as [| | | | |l]; simpl; try done.
  intros [_ [o Ho]] [= ->]. by rewrite fresh_loc_None in Ho.
Qed.

Lemma old_insert h lp l o v : old h lp v → old (<[l := o]> h) lp v.
Proof.
  destruct v as [| | | | |l']; simpl; try done.
  intros [Hne Hs]. split; [done|].
  destruct (decide (l = l')) as [->|Hn]; [rewrite lookup_insert_eq|rewrite lookup_insert_ne by done]; eauto.
Qed.

Lemma old_ne_lp h lp v : old h lp v → v ≠ VObj lp.
Proof. destruct v; simpl; try done. intros [Hne _] [= ->]. done. Qed.

Lemma falsy_own_props h v : truthy v = false → own_props h v = ∅.
Proof.
  destruct v as [| | | |s|]; simpl; try done.
  destruct s; simpl; done.
Qed.

Lemma element_props_lookup m k :
  element_props m !! k = if bool_decide (k ∈ reserved_props) then None else m !! k.
Proof.
  unfold element_props, reserved_props. simpl.
  case_bool_decide as Hk.
  - repeat (apply elem_of_cons in Hk as [->|Hk];
            [by rewrite ?lookup_delete_ne, lookup_delete_eq by done|]).
    by apply elem_of_nil in Hk.
  - rewrite !lookup_delete_ne; [done|intros <-; apply Hk; set_solver..].
Qed.

Lemma element_props_pageProps m : element_props m !! "pageProps" = m !! "pageProps".
Proof.
  rewrite element_props_lookup. case_bool_decide as Hk; [|done].
  unfold reserved_props in Hk.
  repeat (apply elem_of_cons in Hk as [Hk|Hk]; [discriminate|]).
  by apply elem_of_nil in Hk.
Qed.

Lemma finish ip lp R' A B w4 fr s f el w' :
  heap w4 !! lp = Some (plain R') →
  old (heap w4) lp ip →
  (resultProps ← cleanup (VObj lp) B;
   h ← read_heap;
   cprops ← new_object (element_props (spread2 h ip resultProps));
   mret ({| isFirstRender := fr; store := s; deps := (B, A) |},
         {| provided := s; component_props := cprops |})) w4
  = (Ok (f, el), w') →
  let page' := default VUndef (R' !! "pageProps") in
  let cp := component_props el in
  f = {| isFirstRender := fr; store := s; deps := (B, A) |}
  ∧ (∀ l o, heap w4 !! l = Some o → heap w' !! l = Some o)
  ∧ (∀ k, k ≠ "pageProps" →
          own_props (heap w') cp !! k = element_props (R' ∪ own_props (heap w4) ip) !! k)
  ∧ (if truthy B then
       ∃ c, get_own (heap w') cp "pageProps" = VObj c
            ∧ heap w4 !! c = None
            ∧ own_props (heap w') (VObj c) = delete "initialState" (own_props (heap w4) page')
     else own_props (heap w') cp = element_props (R' ∪ own_props (heap w4) ip)).
Proof.
  intros Hlp Oip H page' cp.
  apply bind_inv_Ok in H as (rp & w5 & Hc & H).
  rewrite (cleanup_spec lp _ B w4 Hlp) in Hc. cbn [props plain] in Hc. fold page' in Hc.
  unfold mbind, M_bind, bind, read_heap, new_object, alloc, mret, M_ret, ret in H.
  injection H as <- <- <-. subst cp. cbn [component_props].
  split; [done|].
  destruct (truthy B) eqn:TB; injection Hc as <- <-; cbn [heap with_heap].
  - set (c := fresh (dom (heap w4))) in *.
    set (h1 := <[c := plain (own_props (heap w4) page')]> (heap w4)) in *.
    set (rp := fresh (dom h1)) in *.
    set (h5 := <[c := plain (delete "initialState" (own_props (heap w4) page'))]>
                 (<[rp := plain (<["pageProps" := VObj c]> R')]> h1)) in *.
    set (cp := fresh (dom h5)) in *.
    assert (Hc4 : heap w4 !! c = None) by apply fresh_loc_None.
    assert (Hrp1 : h1 !! rp = None) by apply fresh_loc_None.
    assert (Hrc : rp ≠ c) by (intros E; rewrite E in Hrp1; unfold h1 in Hrp1; by rewrite lookup_insert_eq in Hrp1).
    assert (Hrp4 : heap w4 !! rp = None) by (unfold h1 in Hrp1; by rewrite lookup_insert_ne in Hrp1).
    assert (Hcp5 : h5 !! cp = None) by apply fresh_loc_None.
    assert (Hcpc : cp ≠ c) by (intros E; rewrite E in Hcp5; unfold h5 in Hcp5; by rewrite lookup_insert_eq in Hcp5).
    assert (Hcprp : cp ≠ rp).
    { intros E. rewrite E in Hcp5. unfold h5 in Hcp5.
      rewrite lookup_insert_ne, lookup_insert_eq in Hcp5 by done. done. }
    assert (Hcp4 : heap w4 !! cp = None).
    { unfold h5, h1 in Hcp5. by rewrite !lookup_insert_ne in Hcp5. }
    assert (Hold : ∀ l o, heap w4 !! l = Some o → h5 !! l = Some o).
    { intros l o Hl. unfold h5, h1.
      rewrite !lookup_insert_ne; [done|congruence..]. }
    assert (Hip5 : own_props h5 ip = own_props (heap w4) ip).
    { destruct ip as [| | | | |li]; simpl; try done.
      destruct Oip as [_ [o Ho]]. by rewrite (Hold _ _ Ho), Ho. }
    assert (Hrp5 : own_props h5 (VObj rp) = <["pageProps" := VObj c]> R').
    { simpl. unfold h5. rewrite lookup_insert_ne, lookup_insert_eq by done. done. }
    split.
    { intros l o Hl. rewrite lookup_insert_ne; [by apply Hold|]. congruence. }
    split.
    { intros k Hk. rewrite own_props_insert_eq. unfold spread2. rewrite Hip5, Hrp5.
      rewrite !element_props_lookup, !lookup_union, lookup_insert_ne by done. done. }
    exists c. split.
    { unfold get_own. rewrite own_props_insert_eq, element_props_pageProps.
      unfold spread2. rewrite Hrp5.
      erewrite lookup_union_Some_l; [done|]. by rewrite lookup_insert_eq. }
    split; [done|].
    simpl. rewrite lookup_insert_ne by done. unfold h5. by rewrite lookup_insert_eq.
  - split.
    { intros l o Hl. rewrite lookup_insert_ne; [done|]. by eapply fresh_loc_ne. }
    assert (E : spread2 (heap w4) ip (VObj lp) = R' ∪ own_props (heap w4) ip).
    { unfold spread2. simpl. by rewrite Hlp. }
    split.
    { intros k Hk. by rewrite own_props_insert_eq, E. }
    by rewrite own_props_insert_eq, E.
Qed.

Lemma compose_tail ip lp R A B w3 fr s f el w' :
  heap w3 !! lp = Some (plain R) →
  let page := default VUndef (R !! "pageProps") in
  let app := app_pageProps (heap w3) ip in
  old (heap w3) lp ip → old (heap w3) lp page → old (heap w3) lp app →
  (mergePageProps ip (VObj lp);;
   resultProps ← cleanup (VObj lp) B;
   h ← read_heap;
   cprops ← new_object (element_props (spread2 h ip resultProps));
   mret ({| isFirstRender := fr; store := s; deps := (B, A) |},
         {| provided := s; component_props := cprops |})) w3
  = (Ok (f, el), w') →
  let PC := if truthy app then own_props (heap w3) page ∪ own_props (heap w3) app
            else own_props (heap w3) page in
  let ppv := get_own (heap w') (component_props el) "pageProps" in
  f = {| isFirstRender := fr; store := s; deps := (B, A) |}
  ∧ (∀ l o, l ≠ lp → heap w3 !! l = Some o → heap w' !! l = Some o)
  ∧ (∀ k, k ≠ "pageProps" →
          own_props (heap w') (component_props el) !! k
          = element_props (R ∪ own_props (heap w3) ip) !! k)
  ∧ own_props (heap w') ppv = (if truthy B then delete "initialState" PC else PC)
  ∧ (if truthy B || truthy app then ∃ l, ppv = VObj l ∧ heap w3 !! l = None
     else ppv = default VUndef ((R ∪ own_props (heap w3) ip) !! "pageProps")).
Proof.
  intros Hlp page app Oip Opage Oapp H PC ppv.
  apply bind_inv_Ok in H as ([] & w4 & Hm & H).
  rewrite (mergePageProps_spec ip lp _ w3 Hlp) in Hm. fold app in Hm.
  cbn [props plain redux] in Hm. fold page in Hm.
  destruct (truthy app) eqn:Tapp; injection Hm as <-.
  - (* the page properties were merged *)
    set (m := fresh (dom (heap w3))) in *.
    set (Mg := spread2 (heap w3) app page) in *.
    set (R' := <["pageProps" := VObj m]> R) in *.
    set (h4 := <[lp := {| props := R'; redux := None |}]> (<[m := plain Mg]> (heap w3))) in *.
    assert (Hm3 : heap w3 !! m = None) by apply fresh_loc_None.
    assert (Hmlp : m ≠ lp) by (intros E; rewrite E, Hlp in Hm3; done).
    assert (Hlp4 : heap (with_heap h4 w3) !! lp = Some (plain R')) by apply lookup_insert_eq.
    assert (Hold : ∀ l o, l ≠ lp → heap w3 !! l = Some o → h4 !! l = Some o).
    { intros l o Hne Hl. unfold h4. rewrite !lookup_insert_ne; [done|congruence..]. }
    assert (Hip4 : own_props h4 ip = own_props (heap w3) ip).
    { destruct ip as [| | | | |li]; simpl; try done.
      destruct Oip as [Hne [o Ho]]. by rewrite (Hold _ _ Hne Ho), Ho. }
    assert (Oip4 : old (heap (with_heap h4 w3)) lp ip) by (by do 2 apply old_insert).
    destruct (finish ip lp R' A B (with_heap h4 w3) fr s f el w' Hlp4 Oip4 H)
      as (Hf & Hfr & Htop & Hpp).
    cbn [heap with_heap] in *.
    assert (HMg : Mg = PC) by done.
    assert (Hm4 : h4 !! m = Some (plain Mg)).
    { unfold h4. by rewrite lookup_insert_ne, lookup_insert_eq. }
    split; [done|]. split; [by eauto|]. split.
    { intros k Hk. rewrite (Htop k Hk), Hip4, !element_props_lookup, !lookup_union.
      unfold R'. by rewrite lookup_insert_ne. }
    destruct (truthy B); simpl.
    + destruct Hpp as (c & Hc & Hc4 & Hcc).
      replace (default VUndef (R' !! "pageProps")) with (VObj m) in Hcc
        by (by unfold R'; rewrite lookup_insert_eq).
      unfold ppv. rewrite Hc, Hcc. split.
      * simpl. by rewrite Hm4.
      * exists c. split; [done|].
        unfold h4 in Hc4. apply lookup_insert_None in Hc4 as [Hc4 _].
        by apply lookup_insert_None in Hc4 as [Hc4 _].
    + assert (Hppv : ppv = VObj m).
      { unfold ppv, get_own. rewrite Hpp, element_props_pageProps.
        erewrite lookup_union_Some_l; [done|]. unfold R'. by rewrite lookup_insert_eq. }
      rewrite Hppv. split; [|by exists m].
      simpl. by rewrite (Hfr _ _ Hm4).
  - (* nothing to merge *)
    destruct (finish ip lp R A B w3 fr s f el w' Hlp Oip H) as (Hf & Hfr & Htop & Hpp).
    fold page in Hpp.
    split; [done|]. split; [by eauto|]. split; [done|].
    destruct (truthy B); simpl.
    + destruct Hpp as (c & Hc & Hc4 & Hcc). unfold ppv. rewrite Hc, Hcc.
      split; [done|]. by exists c.
    + assert (Hppv : ppv = default VUndef ((R ∪ own_props (heap w3) ip) !! "pageProps")).
      { unfold ppv, get_own. by rewrite Hpp, element_props_pageProps. }
      split; [|done]. rewrite Hppv. unfold PC.
      destruct (R !! "pageProps") as [v|] eqn:HR.
      * erewrite lookup_union_Some_l by done. simpl.
        assert (Hpv : page = v) by (by unfold page; rewrite ?HR).
        clearbody page. subst v.
        destruct page as [| | | | |l]; simpl; try done.
        destruct Opage as [_ [o Ho]]. by rewrite (Hfr _ _ Ho), Ho.
      * rewrite lookup_union_r by done.
        assert (Hpage : page = VUndef) by (by unfold page; rewrite ?HR).
        clearbody page. subst page. simpl.
        unfold app, app_pageProps in Tapp. destruct (truthy ip) eqn:Tip.
        -- unfold get_own in Tapp. by rewrite falsy_own_props.
        -- by rewrite (falsy_own_props _ ip Tip), lookup_empty.
Qed.

Lemma allocated_old w w3 lp v :
  heap w !! lp = None → stable w w3 → allocated (heap w) v → old (heap w3) lp v.
Proof.
  intros Hlp Hs. destruct v as [| | | | |l]; simpl; try done.
  intros [o Ho]. split; [by intros ->; rewrite Hlp in Ho|].
  destruct (Hs l o Ho) as (o' & Ho' & _). eauto.
Qed.

(** What a render gives the component, in terms of the properties it was
    given. *)
Lemma Wrapper_output fiber wprops context w f el w' :
  Wrapper fiber wprops context w = (Ok (f, el), w') →
  exposes_no_request (heap w) context → props_allocated (heap w) wprops →
  let cp := component_props el in
  let ppv := get_own (heap w') cp "pageProps" in
  let ip := get_own (heap w) wprops "initialProps" in
  let top := rest_props (heap w) wprops ∪ own_props (heap w) ip in
  stable w w'
  ∧ deps f = (page_snapshot (heap w) wprops, get_own (heap w) wprops "initialState")
  ∧ (∀ k, k ≠ "pageProps" → own_props (heap w') cp !! k = element_props top !! k)
  ∧ own_props (heap w') ppv = exposed_pageProps (heap w) wprops
  ∧ (if truthy (page_snapshot (heap w) wprops) || truthy (app_pageProps (heap w) ip)
     then ∃ l, ppv = VObj l ∧ heap w !! l = None
     else ppv = default VUndef (top !! "pageProps")).
Proof.
  intros H Hctx Hal cp ppv ip top.
  destruct (Wrapper_prefix _ _ _ _ _ _ _ H Hctx Hal)
    as (lp & w3 & fr & s & Hlpw & S & Hlp3 & Htail).
  destruct Hal as (Hwp & Hpage & Hip & Happ).
  assert (Epage : default VUndef (rest_props (heap w) wprops !! "pageProps")
                  = get_own (heap w) wprops "pageProps").
  { unfold rest_props, get_own. by rewrite !lookup_delete_ne. }
  assert (Eapp : app_pageProps (heap w3) ip = app_pageProps (heap w) ip).
  { unfold app_pageProps. destruct (truthy ip); [|done]. by apply stable_get_own. }
  assert (Oip : old (heap w3) lp ip) by (by eapply allocated_old).
  assert (Opage : old (heap w3) lp (default VUndef (rest_props (heap w) wprops !! "pageProps")))
    by (rewrite Epage; by eapply allocated_old).
  assert (Oapp : old (heap w3) lp (app_pageProps (heap w3) ip))
    by (rewrite Eapp; by eapply allocated_old).
  pose proof (compose_tail ip lp (rest_props (heap w) wprops) _ _ w3 fr s f el w'
                Hlp3 Oip Opage Oapp Htail) as Ht.
  cbv zeta in Ht. rewrite Epage, Eapp in Ht. fold cp in Ht. fold ppv in Ht.
  rewrite !(stable_own_props w w3) in Ht by done.
  destruct Ht as (Hf & Hfr & Htop & Hpp & Hshape).
  split.
  { intros l o Hl. destruct (S l o Hl) as (o' & Ho' & Hp & Hr).
    exists o'. split; [|done]. apply Hfr; [|done]. intros ->. by rewrite Hlpw in Hl. }
  split; [by rewrite Hf|]. split; [done|]. split.
  { rewrite Hpp. unfold exposed_pageProps, merged_pageProps. done. }
  destruct (_ || _); [|done].
  destruct Hshape as (l & Hl & Hl3). exists l. split; [done|].
  destruct (heap w !! l) as [o|] eqn:E; [|done].
  destruct (S l o E) as (o' & Ho' & _). congruence.
Qed.

(** *** The phases and the render, step by step *)

Lemma with_console_same w : with_console (console w) w = w.
Proof. by destruct w. Qed.

(** The steps of the shared phase routine, with what each leaves of the
    world: the debug lines only write to the console. *)
Lemma makeProps_steps callback context isApp w env w' :
  makeProps callback context isApp w = (Ok env, w') →
  ∃ store w1 c1 ip w2 c3 st,
    initStore context w = (Ok store, w1)
    ∧ callback_part callback context isApp store (with_console c1 w1) = (Ok ip, w2)
    ∧ store_state w2 store = Some st
    ∧ env = VObj (fresh (dom (heap w2)))
    ∧ w' = with_heap
             (<[fresh (dom (heap w2)) :=
                  plain {[ "initialProps" := ip;
                           "initialState" := match window w2 with
                                             | None => getSerializedState st config
                                             | Some _ => st
                                             end ]}]> (heap w2)) (with_console c3 w2).
Proof.
  intros H. unfold makeProps in H.
  apply bind_inv_Ok in H as (store & w1 & Hinit & H).
  apply bind_inv_Ok in H as ([] & w1' & Hdbg & H).
  apply bind_inv_Ok in H as (ip & w2 & Hcb & H).
  apply bind_inv_Ok in H as ([] & w3 & Hdbg' & H).
  apply bind_inv_Ok in H as (st & w3' & Hst & H).
  apply getState_inv in Hst as [-> Hst].
  apply bind_inv_Ok in H as (srv & w3' & Hsrv & H).
  unfold getIsServer in Hsrv. injection Hsrv as <- <-.
  assert (Hlog : ∀ msg wa wb,
    (if debug config then st ← getState store; console_log msg [st] else mret tt) wa = (Ok tt, wb) →
    ∃ c, wb = with_console c wa).
  { intros msg wa wb. destruct (debug config).
    - intros Hd. apply bind_inv_Ok in Hd as (x & wx & Hx & Hd).
      apply getState_inv in Hx as [-> _]. injection Hd as <-. eauto.
    - intros [= <-]. exists (console wa). by rewrite with_console_same. }
  apply Hlog in Hdbg as [c1 ->]. apply Hlog in Hdbg' as [c3 ->].
  exists store, w1, c1, ip, w2, c3, st.
  do 3 (split; [done|]).
  unfold new_object, alloc in H. injection H as <- <-.
  split; [done|]. simpl. by destruct (window w2).
Qed.

(** The callback of a phase is run on a new object: the context with the
    store added, at the top in a page-level phase, in a copy of
    [context.ctx] in the application-level phase. *)
Lemma callback_part_inv (f : Callback) context isApp store w1 ip w2 :
  callback_part (Some f) context isApp store w1 = (Ok ip, w2) →
  ∃ la wa r wb,
    f (VObj la) wa = (Ok r, wb)
    ∧ heap w1 !! la = None
    ∧ (∀ l o, heap w1 !! l = Some o → heap wa !! l = Some o)
    ∧ window wa = window w1 ∧ made wa = made w1
    ∧ dispatched wa = dispatched w1 ∧ console wa = console w1
    ∧ (if isApp then
         ∃ li, heap w1 !! li = None ∧ li ≠ la
               ∧ own_props (heap wa) (VObj la) = <["ctx" := VObj li]> (own_props (heap w1) context)
               ∧ own_props (heap wa) (VObj li)
                 = <["store" := store]> (own_props (heap w1) (get_own (heap w1) context "ctx"))
       else wa = with_heap (<[la := plain (<["store" := store]> (own_props (heap w1) context))]>
                              (heap w1)) w1)
    ∧ (if truthy r then ip = r ∧ w2 = wb
       else ip = VObj (fresh (dom (heap wb)))
            ∧ w2 = with_heap (<[fresh (dom (heap wb)) := plain ∅]> (heap wb)) wb).
Proof.
  intros H.
  apply bind_inv_Ok in H as (arg & wa & Ha & H).
  apply bind_inv_Ok in H as (r & wb & Hf & Hr).
  assert (Hend : if truthy r then ip = r ∧ w2 = wb
                 else ip = VObj (fresh (dom (heap wb)))
                      ∧ w2 = with_heap (<[fresh (dom (heap wb)) := plain ∅]> (heap wb)) wb).
  { destruct (truthy r); [by injection Hr as <- <-|].
    unfold new_object, alloc in Hr. by injection Hr as <- <-. }
  destruct isApp.
  - apply bind_inv_Ok in Ha as (ctx & wx & Hc & Ha). apply get_inv in Hc as [-> ->].
    unfold mbind, M_bind, bind, read_heap, new_object, alloc in Ha.
    cbn [heap with_heap] in Ha. injection Ha as <- <-.
    set (li := fresh (dom (heap w1))) in *.
    set (h1 := <[li := plain (<["store" := store]> (own_props (heap w1) (get_own (heap w1) context "ctx")))]>
                 (heap w1)) in *.
    set (la := fresh (dom h1)) in *.
    assert (Hli : heap w1 !! li = None) by apply fresh_loc_None.
    assert (Hla1 : h1 !! la = None) by apply fresh_loc_None.
    assert (Hne : li ≠ la).
    { intros E. rewrite <- E in Hla1. unfold h1 in Hla1. by rewrite lookup_insert_eq in Hla1. }
    assert (Hla : heap w1 !! la = None).
    { unfold h1 in Hla1. by rewrite lookup_insert_ne in Hla1. }
    exists la, (with_heap (<[la := plain (<["ctx" := VObj li]> (own_props (heap w1) context))]> h1) w1),
      r, wb.
    split; [done|]. split; [done|]. split.
    { intros l o Hl. cbn [heap with_heap]. unfold h1.
      rewrite !lookup_insert_ne; [done|congruence..]. }
    do 4 (split; [done|]). split; [|done].
    exists li. split; [done|]. split; [done|]. cbn [heap with_heap]. split.
    + by rewrite own_props_insert_eq.
    + simpl. rewrite lookup_insert_ne by done. unfold h1. by rewrite lookup_insert_eq.
  - unfold mbind, M_bind, bind, read_heap, new_object, alloc in Ha.
    injection Ha as <- <-.
    exists (fresh (dom (heap w1))),
      (with_heap (<[fresh (dom (heap w1)) := plain (<["store" := store]> (own_props (heap w1) context))]>
                    (heap w1)) w1), r, wb.
    split; [done|]. split; [apply fresh_loc_None|]. split.
    { intros l o Hl. cbn [heap with_heap]. rewrite lookup_insert_ne; [done|].
      by eapply fresh_loc_ne. }
    do 4 (split; [done|]). done.
Qed.

Lemma own_props_included h h' v :
  (∀ l o, h !! l = Some o → h' !! l = Some o) → allocated h v → own_props h' v = own_props h v.
Proof.
  intros Hinc. destruct v as [| | | | |l]; simpl; try done.
  intros [o Ho]. by rewrite (Hinc _ _ Ho), Ho.
Qed.

Lemma store_state_included w w' s st :
  (∀ l o, heap w !! l = Some o → heap w' !! l = Some o) →
  store_state w s = Some st → store_state w' s = Some st.
Proof.
  intros Hinc. destruct s as [| | | | |l]; simpl; try done.
  destruct (heap w !! l) as [o|] eqn:E; [|done]. by rewrite (Hinc _ _ E).
Qed.

(** The static and the request-time phase, step by step. *)
Lemma getStaticProps_inv (f : Callback) context w res w' :
  getStaticProps (Some f) context w = (Ok res, w') →
  returns_objects f →
  ∃ store w1 la wa r wb st inner,
    initStore context w = (Ok store, w1)
    ∧ f (VObj la) wa = (Ok r, wb)
    ∧ heap w1 !! la = None
    ∧ (∃ c1, wa = with_heap (<[la := plain (<["store" := store]> (own_props (heap w1) context))]>
                               (heap w1)) (with_console c1 w1))
    ∧ store_state wb store = Some st
    ∧ store_state w' store = Some st
    ∧ (∀ l o, heap wb !! l = Some o → heap w' !! l = Some o)
    ∧ window w' = window wb ∧ made w' = made wb ∧ dispatched w' = dispatched wb
    ∧ allocated (heap w') res
    ∧ heap wb !! inner = None
    ∧ is_Some (heap w' !! inner)
    ∧ let P := if truthy r then own_props (heap wb) r else ∅ in
      own_props (heap w') res = <["props" := VObj inner]> (delete "props" P)
      ∧ own_props (heap w') (VObj inner)
        = own_props (heap wb) (default VUndef (P !! "props"))
          ∪ {[ "initialState" := match window wb with
                                 | None => getSerializedState st config
                                 | Some _ => st
                                 end ]}.
Proof.
  intros H Hobj. unfold getStaticProps in H.
  apply bind_inv_Ok in H as (env & w4 & Hm & H).
  apply makeProps_steps in Hm as (store & w1 & c1 & ip & w2 & c3 & st & Hi & Hcb & Hst & -> & ->).
  apply (callback_part_inv f context false store) in Hcb
    as (la & wa & r & wb & Hf & Hla & _ & _ & _ & _ & _ & Hwa & Hend).
  cbn [heap with_console] in Hla, Hwa.
  destruct (Hobj _ _ _ _ Hf) as [Hr1 Hr2].
  set (P := if truthy r then own_props (heap wb) r else ∅).
  assert (Hip : truthy ip = true
                ∧ allocated (heap w2) ip
                ∧ own_props (heap w2) ip = P
                ∧ (∀ l o, heap wb !! l = Some o → heap w2 !! l = Some o)
                ∧ allocated (heap wb) (default VUndef (P !! "props"))
                ∧ store_state wb store = Some st
                ∧ window w2 = window wb ∧ made w2 = made wb ∧ dispatched w2 = dispatched wb).
  { unfold P. destruct (truthy r) eqn:Ht.
    - destruct Hend as [-> ->]. done.
    - destruct Hend as [-> ->]. cbn [heap with_heap window made dispatched].
      split; [done|]. split; [apply allocated_new|]. split; [by rewrite own_props_insert_eq|].
      split.
      { intros l o Hl. rewrite lookup_insert_ne; [done|]. by eapply fresh_loc_ne. }
      split; [by rewrite lookup_empty|]. split; [|done].
      destruct store as [| | | | |l]; try done. simpl in Hst |- *.
      destruct (decide (l = fresh (dom (heap wb)))) as [->|Hne].
      + by rewrite lookup_insert_eq in Hst.
      + by rewrite lookup_insert_ne in Hst. }
  destruct Hip as (Hipt & Hipa & Hipp & Hinc2 & Hpva & Hstb & Hwin & Hmade & Hdis).
  set (pv := default VUndef (P !! "props")) in *.
  set (h3 := heap w2) in *. set (n := fresh (dom h3)) in *.
  set (X := match window w2 with Some _ => st | None => getSerializedState st config end) in *.
  set (E := {[ "initialProps" := ip; "initialState" := X ]} : gmap string value) in *.
  (* the rest of the phase, step by step *)
  rewrite (bind_Ok _ _ _ _ _ (get_new _ _ _ _ _)) in H.
  replace (E !! "initialProps") with (Some ip) in H by (by unfold E; rewrite lookup_insert_eq).
  simpl in H.
  rewrite (bind_Ok _ _ _ _ _ (get_truthy _ _ _ Hipt)) in H.
  unfold mbind, M_bind, bind, read_heap, new_object, alloc in H.
  cbn [heap with_heap with_console] in H.
  set (h4 := <[n := plain E]> h3) in *.
  set (n1 := fresh (dom h4)) in *.
  set (h5 := <[n1 := _]> h4) in *.
  set (n2 := fresh (dom h5)) in *.
  set (h6 := <[n2 := _]> h5) in *.
  set (n3 := fresh (dom h6)) in *.
  set (h7 := <[n3 := _]> h6) in *.
  set (n4 := fresh (dom h7)) in *.
  injection H as <- <-. cbn [heap with_heap with_console window made dispatched].
  assert (I34 : ∀ l o, h3 !! l = Some o → h4 !! l = Some o).
  { intros l o Hl. unfold h4. rewrite lookup_insert_ne; [done|]. by eapply fresh_loc_ne. }
  assert (I45 : ∀ l o, h4 !! l = Some o → h5 !! l = Some o).
  { intros l o Hl. unfold h5. rewrite lookup_insert_ne; [done|]. by eapply fresh_loc_ne. }
  assert (I56 : ∀ l o, h5 !! l = Some o → h6 !! l = Some o).
  { intros l o Hl. unfold h6. rewrite lookup_insert_ne; [done|]. by eapply fresh_loc_ne. }
  assert (I67 : ∀ l o, h6 !! l = Some o → h7 !! l = Some o).
  { intros l o Hl. unfold h7. rewrite lookup_insert_ne; [done|]. by eapply fresh_loc_ne. }
  exists store, w1, la, wa, r, wb, st, n3.
  split; [done|]. split; [done|]. split; [done|]. split; [by exists c1|]. split; [done|].
  set (h8 := <[n4 := _]> h7).
  assert (I78 : ∀ l o, h7 !! l = Some o → h8 !! l = Some o).
  { intros l o Hl. unfold h8. rewrite lookup_insert_ne; [done|]. by eapply fresh_loc_ne. }
  assert (Inc6 : ∀ l o, heap wb !! l = Some o → h6 !! l = Some o) by eauto 10.
  assert (Inc : ∀ l o, heap wb !! l = Some o → h8 !! l = Some o) by eauto 10.
  assert (Hn12 : n1 ≠ n2).
  { intros E'. symmetry in E'. revert E'. unfold n2, h5. eapply fresh_loc_ne. apply lookup_insert_eq. }
  assert (Hp4 : own_props h4 ip = P) by (by rewrite (own_props_included h3 h4)).
  assert (Hpv4 : get_own h4 ip "props" = pv) by (by unfold get_own; rewrite Hp4).
  split.
  { apply (store_state_included wb); [|done]. exact Inc. }
  split; [exact Inc|]. do 3 (split; [done|]).
  split; [apply allocated_new|].
  split.
  { destruct (heap wb !! n3) as [o|] eqn:E'; [|done].
    apply Inc6 in E'. unfold n3 in E'. by rewrite fresh_loc_None in E'. }
  split.
  { rewrite (I78 n3 _ (lookup_insert_eq _ _ _)). eauto. }
  split.
  - unfold h8. rewrite own_props_insert_eq. f_equal.
    unfold h6. rewrite lookup_insert_ne by done.
    unfold h5. rewrite lookup_insert_eq. simpl. by rewrite Hp4.
  - simpl. rewrite (I78 n3 _ (lookup_insert_eq _ _ _)). simpl.
    unfold spread2. rewrite Hpv4. f_equal.
    + apply own_props_included; [exact Inc6|done].
    + unfold h6 at 1. rewrite own_props_insert_eq.
      unfold h4 at 1. rewrite lookup_insert_eq. simpl.
      unfold E. rewrite delete_insert_eq, delete_singleton_ne by done.
      unfold X. rewrite Hwin. by destruct (window wb).
Qed.

Lemma page_snapshot_spec h wprops :
  truthy (get_own h wprops "pageProps") = true →
  page_snapshot h wprops = get_own h (get_own h wprops "pageProps") "initialState".
Proof. unfold page_snapshot. by destruct (get_own h wprops "pageProps"). Qed.

(** The snapshots a render reads from the properties it is given. *)
Lemma Wrapper_deps fiber wprops context w f el w' :
  Wrapper fiber wprops context w = (Ok (f, el), w') →
  allocated (heap w) (get_own (heap w) wprops "pageProps") →
  deps f = (page_snapshot (heap w) wprops, get_own (heap w) wprops "initialState").
Proof.
  intros H Hpage. unfold Wrapper in H.
  apply bind_inv_Ok in H as (A & wx & HA & H). apply get_inv in HA as [-> ->].
  apply bind_inv_Ok in H as (ip & wx & Hb & H). apply get_inv in Hb as [-> ->].
  apply bind_inv_Ok in H as (h & wx & Hc & H). injection Hc as <- <-.
  apply bind_inv_Ok in H as (props & w1 & Hd & H).
  unfold new_object, alloc in Hd. injection Hd as <- <-.
  fold (rest_props (heap w) wprops) in H.
  apply bind_inv_Ok in H as (page & wx & He & H). apply get_inv in He as [-> ->].
  assert (Epage : get_own (heap (with_heap (<[fresh (dom (heap w)) := plain (rest_props (heap w) wprops)]>
                                              (heap w)) w)) (VObj (fresh (dom (heap w)))) "pageProps"
                  = get_own (heap w) wprops "pageProps").
  { unfold get_own at 1. simpl. rewrite lookup_insert_eq. simpl.
    unfold rest_props. by rewrite !lookup_delete_ne. }
  rewrite Epage in H.
  apply bind_inv_Ok in H as (B & wx & Hf & H). apply get_opt_inv in Hf as [-> ->].
  cbn [heap with_heap] in H.
  assert (EB : match get_own (heap w) wprops "pageProps" with
               | VUndef | VNull => VUndef
               | _ => get_own (<[fresh (dom (heap w)) := plain (rest_props (heap w) wprops)]> (heap w))
                        (get_own (heap w) wprops "pageProps") "initialState"
               end = page_snapshot (heap w) wprops).
  { unfold page_snapshot. rewrite (get_own_insert_fresh _ _ _ _ Hpage).
    by destruct (get_own (heap w) wprops "pageProps"). }
  rewrite EB in H.
  apply bind_inv_Ok in H as ([] & w2 & _ & H).
  apply bind_inv_Ok in H as (s & w3 & _ & H).
  apply bind_inv_Ok in H as ([] & w4 & _ & H).
  apply bind_inv_Ok in H as ([] & w5 & _ & H).
  apply bind_inv_Ok in H as (rp & w6 & _ & H).
  apply bind_inv_Ok in H as (h6 & w7 & _ & H).
  apply bind_inv_Ok in H as (cp & w8 & _ & H).
  by injection H as <- <- <-.
Qed.

Lemma page_snapshot_get_own h wprops :
  page_snapshot h wprops = get_own h (get_own h wprops "pageProps") "initialState".
Proof. unfold page_snapshot. by destruct (get_own h wprops "pageProps"). Qed.

(** The snapshots of a render pass are those of the properties it was
    given: [initialState] and [pageProps.initialState]. *)
Lemma render_pass_deps fiber wprops context w f el w' :
  render_pass fiber wprops context w = (Ok (f, el), w') →
  allocated (heap w) (get_own (heap w) wprops "pageProps") →
  deps f = (get_own (heap w) (get_own (heap w) wprops "pageProps") "initialState",
            get_own (heap w) wprops "initialState").
Proof.
  intros H Hpage. unfold render_pass in H.
  apply bind_inv_Ok in H as ([f1 el1] & wb & Hb & H).
  apply Wrapper_deps in Hb; [|done]. rewrite page_snapshot_get_own in Hb.
  apply bind_inv_Ok in H as (srv & wb' & _ & H).
  destruct srv.
  - by injection H as <- <- <-.
  - apply bind_inv_Ok in H as (f2 & w3 & He & [= <- <- <-]).
    apply Wrapper_effect_inv in He as (-> & _). done.
Qed.

Lemma own_props_app_pageProps h ip :
  own_props h (app_pageProps h ip) = own_props h (get_own h ip "pageProps").
Proof.
  unfold app_pageProps. destruct (truthy ip) eqn:Tip; [done|].
  unfold get_own. by rewrite !(falsy_own_props h ip Tip), lookup_empty.
Qed.

Lemma merged_pageProps_lookup h wprops k :
  merged_pageProps h wprops !! k
  = match own_props h (get_own h wprops "pageProps") !! k with
    | Some v => Some v
    | None => own_props h (get_own h (get_own h wprops "initialProps") "pageProps") !! k
    end.
Proof.
  unfold merged_pageProps.
  rewrite <- (own_props_app_pageProps h (get_own h wprops "initialProps")).
  set (P := own_props h (get_own h wprops "pageProps")).
  set (app := app_pageProps h (get_own h wprops "initialProps")).
  destruct (truthy app) eqn:Ta.
  - rewrite lookup_union. destruct (P !! k), (own_props h app !! k); done.
  - rewrite (falsy_own_props h _ Ta), lookup_empty. by destruct (P !! k).
Qed.

(** ** The claims *)

(** C2. In the browser, acquisition is memoized in [window] under
    [config.storeKey], or under the default key when [storeKey] is unset or
    empty: when nothing is registered under that key, the first call invokes
    the factory once, stores the new store under the key and returns it;
    every later call, whatever its context, returns that same reference and
    leaves the world as it is, so no second store is ever made. *)
Theorem client_store_memoized c cs w g init :
  let key := match storeKey config with
             | Some k => if String.eqb k "" then STOREKEY else k
             | None => STOREKEY
             end in
  window w = Some g → g !! key = None → makeStore c w = Ok init →
  ∃ l w1,
    initStore c w = (Ok (VObj l), w1)
    ∧ heap w !! l = None
    ∧ heap w1 !! l = Some {| props := ∅; redux := Some init |}
    ∧ window w1 = Some (<[key := VObj l]> g)
    ∧ made w1 = c :: made w
    ∧ acquire_all cs w1 = (Ok (replicate (length cs) (VObj l)), w1).
Proof.
  intros key. assert (Ek : key = getStoreKey config) by done. clearbody key. subst key.
  intros Hw Hk Hm. eexists _, _.
  split; [by apply (initStore_client_miss c w g init)|].
  split; [apply fresh_loc_None|]. simpl.
  split; [by rewrite lookup_insert_eq|].
  split; [done|]. split; [done|].
  eapply acquire_all_client_hit; [done|]. by rewrite lookup_insert_eq.
Qed.

(** C3. On the server, two acquisitions whose contexts expose the same
    request object return the same reference, whatever acquisitions happen in
    between: the store is attached to the request by the call that makes it.
    An acquisition whose context exposes no request invokes the factory and
    returns a store at a location that was not in use, writing nothing else;
    the next such call therefore returns a different store. *)
Theorem server_store_per_request c1 c2 cs r w s w1 c3 c4 w3 req3 init3 :
  window w = None →
  (exposed_req c1 w).1 = Ok (VObj r) →
  initStore c1 w = (Ok s, w1) →
  (exposed_req c2 (after_acquisitions cs w1)).1 = Ok (VObj r) →
  window w3 = None →
  (exposed_req c3 w3).1 = Ok req3 → truthy req3 = false →
  makeStore c3 w3 = Ok init3 →
  initStore c2 (after_acquisitions cs w1) = (Ok s, after_acquisitions cs w1)
  ∧ ∃ l w4,
      initStore c3 w3 = (Ok (VObj l), w4)
      ∧ heap w3 !! l = None
      ∧ heap w4 = <[l := {| props := ∅; redux := Some init3 |}]> (heap w3)
      ∧ made w4 = c3 :: made w3
      ∧ ∀ req4 init4 l' w5,
          (exposed_req c4 w4).1 = Ok req4 → truthy req4 = false →
          makeStore c4 w4 = Ok init4 →
          initStore c4 w4 = (Ok (VObj l'), w5) → l' ≠ l.
Proof.
  intros Hw Hr1 H1 Hr2 Hw3 Hr3 Ht3 Hm3. split.
  - apply (initStore_server_hit c2 r s); [|done|].
    + apply after_acquisitions_window_server.
      pose proof (initStore_window_server c1 w Hw) as H. by rewrite H1 in H.
    + apply after_acquisitions_attached.
      exact (initStore_attaches c1 r w s w1 Hw Hr1 H1).
  - eexists _, _. split; [exact (initStore_server_fresh c3 w3 req3 init3 Hw3 Hr3 Ht3 Hm3)|].
    split; [apply fresh_loc_None|]. split; [done|]. split; [done|].
    intros req4 init4 l' w5 Hr4 Ht4 Hm4.
    rewrite (initStore_server_fresh c4 _ req4 init4); [|done..].
    intros [= <- _]. simpl. intros E.
    pose proof (fresh_loc_None (<[fresh (dom (heap w3)) := {| props := ∅; redux := Some init3 |}]> (heap w3))) as Hn.
    rewrite E, lookup_insert_eq in Hn. discriminate.
Qed.

(** C7. When nothing is memoized yet and the factory throws, [initStore]
    throws the same error and writes neither the request marker nor the
    [window] key: heap and [window] are as before, only the record of the
    invocation is added.  Nothing being memoized, the next acquisition
    invokes the factory again. *)
Theorem factory_error_not_memoized c w e :
  unmemoized c w = true → makeStore c w = Throw e →
  ∃ w',
    initStore c w = (Throw e, w')
    ∧ heap w' = heap w
    ∧ window w' = window w
    ∧ made w' = c :: made w
    ∧ unmemoized c w' = true
    ∧ made (initStore c w').2 = c :: c :: made w.
Proof.
  intros Hu He. exists (with_made (c :: made w) w).
  destruct (initStore_unmemoized c w Hu) as [Hthrow _].
  split; [by apply Hthrow|]. do 3 (split; [done|]).
  assert (Hu' : unmemoized c (with_made (c :: made w) w) = true)
    by (by rewrite unmemoized_with_made).
  split; [done|].
  by destruct (initStore_unmemoized c _ Hu') as [_ ->].
Qed.

(** C4. When the context given to the page-level phase already carries a
    store, the phase warns on the console and then is exactly the user
    callback applied to that same context: [initStore] is not run, so the
    factory is not invoked and no store is made, and the outcome of the phase
    is the outcome of the callback. *)
Theorem nested_page_phase_guard (f : Callback) context w s :
  (get context "store" w).1 = Ok s → truthy s = true →
  let w' := with_console ((WARN, "No need to wrap pages if _app was wrapped", []) :: console w) w in
  getInitialPageProps (Some f) context w = f context w'
  ∧ made w' = made w
  ∧ heap w' = heap w
  ∧ window w' = window w.
Proof.
  intros Hs Ht w'. split; [|done].
  unfold getInitialPageProps.
  assert (Hg : get context "store" w = (Ok s, w)).
  { revert Hs. unfold get. by destruct context; simpl; intros [= <-]. }
  rewrite (bind_Ok _ _ _ _ _ Hg), Ht. done.
Qed.



(** C8, for serialized states that are truthy.  When [serializeState] and
    [deserializeState] are configured and [deserializeState] undoes
    [serializeState], the payload that hydration builds from the serialized
    form of any state [s] is [s], so dispatching it is dispatching [s]
    directly; and a [hydrate] that is given the serialized form, in either
    position, does exactly that dispatch when the serialized form is truthy.
    When it is falsy, [hydrate] does nothing at all. *)
Theorem hydration_round_trip ser de store s w :
  serializeState config = Some ser → deserializeState config = Some de →
  (∀ x, de (ser x) = x) →
  getSerializedState s config = ser s
  ∧ getDeserializedState (ser s) config = s
  ∧ dispatch store (Action HYDRATE (getDeserializedState (getSerializedState s config) config)) w
    = dispatch store (Action HYDRATE s) w
  ∧ (if truthy (ser s) then
       hydrate store (ser s) VUndef w = dispatch store (Action HYDRATE s) w
       ∧ hydrate store VUndef (ser s) w = dispatch store (Action HYDRATE s) w
     else
       hydrate store (ser s) VUndef w = (Ok tt, w)
       ∧ hydrate store VUndef (ser s) w = (Ok tt, w)).
Proof.
  intros Hs Hd Hinv.
  assert (E1 : getSerializedState s config = ser s)
    by (by unfold getSerializedState; rewrite Hs).
  assert (E2 : getDeserializedState (ser s) config = s)
    by (by unfold getDeserializedState; rewrite Hd).
  split; [done|]. split; [done|]. rewrite E1, E2. split; [done|].
  unfold hydrate. destruct (truthy (ser s)); [|done].
  rewrite E2. simpl. unfold mbind, M_bind, bind, mret, M_ret, ret.
  split; destruct (dispatch store (Action HYDRATE s) w) as [[[]|e] w1]; done.
Qed.


(** C9, as the code has it.  When the request-time phase returns on the
    server, the callback was run on a new object, the context extended with
    the store that [initStore] acquired (the one attached to the request,
    made by the first acquisition), in the world that the acquisition left:
    nothing but the new object was added to the heap, and the registry, the
    factory invocations and the dispatched actions are as they were.  The
    result is [{...settings, props: {initialState, ...props}}], where
    [{props, ...settings}] is what the callback returned (nothing, if it
    returned a falsy value) and [initialState] is the state of the store
    after the callback, passed through the [serializeState] hook when there
    is one: the properties of the callback are merged flat next to
    [initialState], there is no [initialProps].  The callback is taken to
    return objects that exist. *)
Theorem request_phase_result f context w res w' :
  getServerSideProps (Some f) context w = (Ok res, w') →
  window w' = None →
  returns_objects f →
  ∃ store w1 la w2 r w3 st inner,
    initStore context w = (Ok store, w1)
    ∧ heap w1 !! la = None
    ∧ heap w2 = <[la := plain (<["store" := store]> (own_props (heap w1) context))]> (heap w1)
    ∧ window w2 = window w1 ∧ made w2 = made w1 ∧ dispatched w2 = dispatched w1
    ∧ f (VObj la) w2 = (Ok r, w3)
    ∧ store_state w3 store = Some st
    ∧ let P := if truthy r then own_props (heap w3) r else ∅ in
      own_props (heap w') res = <["props" := VObj inner]> (delete "props" P)
      ∧ own_props (heap w') (VObj inner)
        = own_props (heap w3) (default VUndef (P !! "props"))
          ∪ {[ "initialState" := match serializeState config with
                                 | Some serialize => serialize st
                                 | None => st
                                 end ]}.
Proof.
  intros H Hsrv Hobj. unfold getServerSideProps in H.
  apply getStaticProps_inv in H
    as (store & w1 & la & w2 & r & w3 & st & inner & Hi & Hf & Hla & [c1 Hw2] & Hst & _ & _
        & Hwin & _ & _ & _ & _ & _ & Hres & Hin); [|done].
  exists store, w1, la, w2, r, w3, st, inner.
  split; [done|]. split; [done|]. rewrite Hw2. cbn [heap with_heap with_console window made dispatched].
  do 4 (split; [done|]). rewrite <- Hw2. split; [done|]. split; [done|].
  split; [done|]. rewrite Hin. rewrite <- Hwin, Hsrv. done.
Qed.

(** C6. When [initialProps.pageProps] exists (is truthy, as the code tests
    it), the merge step replaces [props.pageProps] by a new object in which
    every key of the page-level [pageProps] has the page-level value and
    every other key of the application-level [initialProps.pageProps] has
    the application-level value. *)
Theorem page_props_merge initialProps l o w :
  heap w !! l = Some o →
  truthy initialProps = true →
  truthy (get_own (heap w) initialProps "pageProps") = true →
  let app := get_own (heap w) initialProps "pageProps" in
  let page := default VUndef (props o !! "pageProps") in
  ∃ m w',
    mergePageProps initialProps (VObj l) w = (Ok tt, w')
    ∧ heap w !! m = None
    ∧ get_own (heap w') (VObj l) "pageProps" = VObj m
    ∧ ∀ k, own_props (heap w') (VObj m) !! k
           = match own_props (heap w) page !! k with
             | Some v => Some v
             | None => own_props (heap w) app !! k
             end.
Proof.
  intros Hl Hip Happ app page.
  rewrite (mergePageProps_spec initialProps l o w Hl).
  unfold app_pageProps. rewrite Hip, Happ.
  eexists _, _. split; [done|]. split; [apply fresh_loc_None|].
  cbn [heap with_heap].
  assert (Hne : fresh (dom (heap w)) ≠ l) by (by eapply fresh_loc_ne).
  split.
  - unfold get_own. simpl. rewrite lookup_insert_eq. simpl. by rewrite lookup_insert_eq.
  - intros k. simpl. rewrite lookup_insert_ne, lookup_insert_eq by done. simpl.
    unfold spread2. fold page. fold app. rewrite lookup_union.
    destruct (own_props (heap w) page !! k), (own_props (heap w) app !! k); done.
Qed.

(** C5, for a truthy snapshot.  For a render whose context exposes no
    request and whose properties refer to objects that exist: when the
    page-level snapshot [pageProps.initialState] is truthy, the component
    receives as [pageProps] a new object that holds the composed page
    properties without [initialState]: every other key has the value the
    page-level [pageProps] gives it, or else the one of
    [initialProps.pageProps].  Every object that existed before the render
    has the same properties after it, and is the very same object unless it
    is a store, so neither the properties given to [Wrapper], nor their
    [pageProps], nor [initialProps] is mutated; and rendering once more with
    the same properties gives the component properties with the same
    contents.  A snapshot that is there but falsy is not removed. *)
Theorem props_composition fiber wprops context w f el w' :
  Wrapper fiber wprops context w = (Ok (f, el), w') →
  exposes_no_request (heap w) context → props_allocated (heap w) wprops →
  let cp := component_props el in
  let page := get_own (heap w) wprops "pageProps" in
  let app := get_own (heap w) (get_own (heap w) wprops "initialProps") "pageProps" in
  (truthy (get_own (heap w) page "initialState") = true →
   ∃ c, get_own (heap w') cp "pageProps" = VObj c
        ∧ heap w !! c = None
        ∧ ∀ k, own_props (heap w') (VObj c) !! k
               = if decide (k = "initialState") then None
                 else match own_props (heap w) page !! k with
                      | Some v => Some v
                      | None => own_props (heap w) app !! k
                      end)
  ∧ stable w w'
  ∧ ∀ fiber2 f2 el2 w'',
      Wrapper fiber2 wprops context w' = (Ok (f2, el2), w'') →
      let cp2 := component_props el2 in
      (∀ k, k ≠ "pageProps" → own_props (heap w'') cp2 !! k = own_props (heap w') cp !! k)
      ∧ own_props (heap w'') (get_own (heap w'') cp2 "pageProps")
        = own_props (heap w') (get_own (heap w') cp "pageProps")
      ∧ same_shape (get_own (heap w'') cp2 "pageProps") (get_own (heap w') cp "pageProps").
Proof.
  intros H Hctx Hal cp page app.
  destruct (Wrapper_output _ _ _ _ _ _ _ H Hctx Hal) as (S & _ & Htop & Hpp & Hshape).
  fold cp in Htop, Hpp, Hshape.
  split.
  { intros HB. unfold page in HB. rewrite <- page_snapshot_get_own in HB.
    rewrite HB in Hshape. simpl in Hshape.
    destruct Hshape as (c & Hc & Hcw). exists c. split; [done|]. split; [done|].
    intros k. rewrite Hc in Hpp. rewrite Hpp. unfold exposed_pageProps. rewrite HB.
    destruct (decide (k = "initialState")) as [->|Hk].
    - apply lookup_delete_eq.
    - rewrite lookup_delete_ne by done. apply merged_pageProps_lookup. }
  split; [done|].
  intros fiber2 f2 el2 w'' H2 cp2.
  (* the second render reads the same properties *)
  destruct Hal as (Hwp & Hpage & Hip & Happ).
  assert (Ewp : own_props (heap w') wprops = own_props (heap w) wprops)
    by (by apply stable_own_props).
  assert (Eg : ∀ k, get_own (heap w') wprops k = get_own (heap w) wprops k)
    by (by intros k; apply stable_get_own).
  assert (Eapp : app_pageProps (heap w') (get_own (heap w) wprops "initialProps")
                 = app_pageProps (heap w) (get_own (heap w) wprops "initialProps")).
  { unfold app_pageProps.
    rewrite (stable_get_own w w' _ "pageProps" S Hip). reflexivity. }
  assert (Hal' : props_allocated (heap w') wprops).
  { unfold props_allocated. rewrite !Eg, Eapp. repeat split; by eapply stable_allocated. }
  assert (Hctx' : exposes_no_request (heap w') context) by (by eapply stable_exposes_no_request).
  destruct (Wrapper_output _ _ _ _ _ _ _ H2 Hctx' Hal') as (_ & _ & Htop2 & Hpp2 & Hshape2).
  fold cp2 in Htop2, Hpp2, Hshape2.
  assert (Erest : rest_props (heap w') wprops = rest_props (heap w) wprops)
    by (by unfold rest_props; rewrite Ewp).
  assert (Esnap : page_snapshot (heap w') wprops = page_snapshot (heap w) wprops).
  { unfold page_snapshot. rewrite Eg.
    destruct (get_own (heap w) wprops "pageProps") eqn:E; try done.
    by apply stable_get_own. }
  assert (Emerged : merged_pageProps (heap w') wprops = merged_pageProps (heap w) wprops).
  { unfold merged_pageProps. rewrite !Eg, Eapp.
    by rewrite !(stable_own_props w w') by done. }
  rewrite !Eg, Erest, Esnap, Eapp in *.
  rewrite (stable_own_props w w') in * by done.
  split; [intros k Hk; by rewrite Htop2, Htop|].
  split.
  { rewrite Hpp2, Hpp. unfold exposed_pageProps. by rewrite Esnap, Emerged. }
  destruct (_ || _).
  - destruct Hshape as (l & -> & _), Hshape2 as (l2 & -> & _). done.
  - rewrite Hshape, Hshape2. unfold same_shape. by destruct (default _ _).
Qed.

(** ** Further properties *)

(** *** Code that leaves the factory and the registry alone *)

Lemma calm_ret {A} (a : A) : calm (mret a).
Proof. intros w. done. Qed.

Lemma calm_bind {A B} (m : M A) (k : A → M B) :
  calm m → (∀ a, calm (k a)) → calm (m ≫= k).
Proof.
  intros Hm Hk w. specialize (Hm w). unfold mbind, M_bind, bind.
  destruct (m w) as [[a|e] w1]; simpl in *; [|done].
  specialize (Hk a w1). destruct Hm as [H1 H2], Hk as [H3 H4].
  split; congruence.
Qed.

Lemma calm_if {A} (b : bool) (m1 m2 : M A) : calm m1 → calm m2 → calm (if b then m1 else m2).
Proof. by destruct b. Qed.

Lemma calm_get v k : calm (get v k).
Proof. intros w. unfold get. by destruct v. Qed.

Lemma calm_read_heap : calm read_heap.
Proof. intros w. done. Qed.

Lemma calm_alloc o : calm (alloc o).
Proof. intros w. done. Qed.

Lemma calm_new_object m : calm (new_object m).
Proof. intros w. done. Qed.

Lemma calm_set v k x : calm (set v k x).
Proof. intros w. unfold set. by repeat case_match. Qed.

Lemma calm_delete_prop v k : calm (delete_prop v k).
Proof. intros w. unfold delete_prop. by repeat case_match. Qed.

Lemma calm_dispatch s a : calm (dispatch s a).
Proof. intros w. unfold dispatch. by repeat case_match. Qed.

Create HintDb calm.

#[local] Hint Resolve calm_ret calm_get calm_read_heap calm_alloc calm_new_object
  calm_set calm_delete_prop calm_dispatch : calm.

Ltac calm_steps :=
  repeat first
    [ apply calm_bind; [|intros ?]
    | apply calm_if
    | progress eauto with calm ].

Lemma calm_hydrate s A B : calm (hydrate s A B).
Proof. unfold hydrate. calm_steps. Qed.

Lemma calm_mergePageProps initialProps props : calm (mergePageProps initialProps props).
Proof. unfold mergePageProps. calm_steps. Qed.

Lemma calm_cleanup props B : calm (cleanup props B).
Proof. unfold cleanup. calm_steps. Qed.

#[local] Hint Resolve calm_hydrate calm_mergePageProps calm_cleanup : calm.

Lemma calm_run {A} (m : M A) w r w' :
  calm m → m w = (r, w') → made w' = made w ∧ window w' = window w.
Proof. intros Hc Hm. specialize (Hc w). by rewrite Hm in Hc. Qed.

(** *** The steps of a render *)

(** A render takes its parameter apart, acquires the store, hydrates while
    [isFirstRender.current] holds and then composes the properties. *)
Lemma Wrapper_steps fiber wprops context w f el w' :
  Wrapper fiber wprops context w = (Ok (f, el), w') →
  ∃ wa s wb wc,
    (∀ l o, heap w !! l = Some o → heap wa !! l = Some o)
    ∧ window wa = window w ∧ made wa = made w ∧ dispatched wa = dispatched w
    ∧ initStore context wa = (Ok s, wb)
    ∧ (if isFirstRender f then hydrate (store f) (deps f).2 (deps f).1 else mret tt) wb
      = (Ok tt, wc)
    ∧ quietly wc w' ∧ made w' = made wc ∧ window w' = window wc
    ∧ provided el = store f
    ∧ store f = match fiber with Some f0 => store f0 | None => s end
    ∧ isFirstRender f = match fiber with Some f0 => isFirstRender f0 | None => true end.
Proof.
  intros H. unfold Wrapper in H.
  apply bind_inv_Ok in H as (A & wx & HA & H). apply get_inv in HA as [-> ->].
  apply bind_inv_Ok in H as (ip & wx & Hb & H). apply get_inv in Hb as [-> ->].
  apply bind_inv_Ok in H as (h & wx & Hc & H). injection Hc as <- <-.
  apply bind_inv_Ok in H as (props & w1 & Hd & H).
  unfold new_object, alloc in Hd. injection Hd as <- <-.
  apply bind_inv_Ok in H as (page & wx & He & H). apply get_inv in He as [-> ->].
  apply bind_inv_Ok in H as (B & wx & Hf & H). apply get_opt_inv in Hf as [-> ->].
  apply bind_inv_Ok in H as ([] & wa & Hg & H).
  assert (Hwa : heap wa = <[fresh (dom (heap w)) := plain (rest_props (heap w) wprops)]> (heap w)
                ∧ window wa = window w ∧ made wa = made w ∧ dispatched wa = dispatched w).
  { destruct (debug config); by injection Hg as <-. }
  destruct Hwa as (Hha & Hwin & Hmade & Hdis).
  apply bind_inv_Ok in H as (s & wb & Hi & H).
  apply bind_inv_Ok in H as ([] & wc & Hh & H).
  exists wa, s, wb, wc.
  split.
  { intros l o Hl. rewrite Hha, lookup_insert_ne; [done|]. by eapply fresh_loc_ne. }
  do 4 (split; [done|]).
  pose proof H as Q. apply quiet_run in Q; [|by quiet_steps].
  pose proof H as C. apply calm_run in C as [C1 C2]; [|by calm_steps].
  apply bind_inv_Ok in H as ([] & w4 & _ & H).
  apply bind_inv_Ok in H as (rp & w5 & _ & H).
  apply bind_inv_Ok in H as (h5 & w6 & _ & H).
  apply bind_inv_Ok in H as (cp & w7 & _ & H).
  injection H as <- <- <-. simpl. done.
Qed.

Lemma dispatch_state s a w w' st :
  dispatch s a w = (Ok tt, w') → store_state w s = Some st →
  store_state w' s = Some (reducer st a).
Proof.
  intros H Hs. apply dispatch_inv in H as (_ & st' & Hs' & H' & _). congruence.
Qed.

(** What a successful [hydrate] does. *)
Lemma hydrate_trace s A B w w' :
  hydrate s A B w = (Ok tt, w') →
  dispatched w' = (hydrations s A B ++ dispatched w)%list
  ∧ (∀ s' st', s' ≠ s → store_state w s' = Some st' → store_state w' s' = Some st')
  ∧ (∀ st, store_state w s = Some st → store_state w' s = Some (hydrated st A B)).
Proof.
  unfold hydrate, hydrations, hydrated. intros H.
  apply bind_inv_Ok in H as ([] & w1 & H1 & H2).
  destruct (truthy A), (truthy B); simpl.
  - pose proof (dispatch_inv _ _ _ _ H1) as (E1 & _ & _ & _ & O1).
    pose proof (dispatch_inv _ _ _ _ H2) as (E2 & _ & _ & _ & O2).
    split; [by rewrite E2, E1|]. split; [by eauto|].
    intros st Hs. eapply dispatch_state; [exact H2|]. by eapply dispatch_state.
  - pose proof (dispatch_inv _ _ _ _ H1) as (E1 & _ & _ & _ & O1).
    injection H2 as <-. split; [done|]. split; [done|].
    intros st Hs. by eapply dispatch_state.
  - injection H1 as <-.
    pose proof (dispatch_inv _ _ _ _ H2) as (E2 & _ & _ & _ & O2).
    split; [done|]. split; [done|].
    intros st Hs. by eapply dispatch_state.
  - injection H1 as <-. injection H2 as <-. done.
Qed.

(** What a render pass dispatches, in terms of the snapshots it leaves in
    the fiber. *)
Lemma render_pass_trace fiber wprops context w f el w' :
  render_pass fiber wprops context w = (Ok (f, el), w') →
  let A := (deps f).2 in
  let B := (deps f).1 in
  dispatched w'
  = ((if pass_hydrates fiber f w' then hydrations (store f) A B else []) ++ dispatched w)%list
  ∧ (∀ st, store_state w (store f) = Some st →
           store_state w' (store f)
           = Some (if pass_hydrates fiber f w' then hydrated st A B else st))
  ∧ ∀ s st, s ≠ store f → store_state w s = Some st → store_state w' s = Some st.
Proof.
  intros H A B. subst A B. unfold render_pass in H.
  apply bind_inv_Ok in H as ([f1 el1] & wbody & Hb & H).
  apply Wrapper_steps in Hb
    as (wa & s0 & wb & wc & Hinc & _ & _ & Hda & Hi & Hh & [Qd Qs] & _ & _ & _ & _ & Hfirst).
  pose proof (quiet_run _ _ _ _ (quiet_initStore context) Hi) as [Qdi Qsi].
  assert (Hsa : ∀ s st, store_state w s = Some st → store_state wa s = Some st).
  { intros [| | | | |l] st; simpl; try done.
    destruct (heap w !! l) as [o|] eqn:E; [|done]. by rewrite (Hinc _ _ E). }
  assert (Hbody : dispatched wbody
                  = ((if isFirstRender f1 then hydrations (store f1) (deps f1).2 (deps f1).1
                      else []) ++ dispatched w)%list
                  ∧ (∀ st, store_state w (store f1) = Some st →
                           store_state wbody (store f1)
                           = Some (if isFirstRender f1
                                   then hydrated st (deps f1).2 (deps f1).1 else st))
                  ∧ ∀ s st, s ≠ store f1 → store_state w s = Some st →
                            store_state wbody s = Some st).
  { destruct (isFirstRender f1).
    - apply hydrate_trace in Hh as (Hd & Ho & Hs).
      split; [by rewrite Qd, Hd, Qdi, Hda|]. split; eauto 10.
    - injection Hh as <-. split; [by rewrite Qd, Qdi, Hda|]. split; eauto 10. }
  destruct Hbody as (Hbd & Hbt & Hbs).
  apply bind_inv_Ok in H as (srv & wx & Hsrv & H).
  unfold getIsServer in Hsrv. injection Hsrv as <- <-.
  destruct (window wbody) as [g|] eqn:Hwin.
  - apply bind_inv_Ok in H as (f2 & w3 & He & [= -> -> ->]).
    apply Wrapper_effect_inv in He as (Hdeps & Hstore & He).
    assert (Hwin' : window w' = Some g).
    { destruct (_ && _) in He.
      - apply (f_equal snd) in He. simpl in He. by rewrite <- He, hydrate_window.
      - by subst. }
    unfold pass_hydrates. rewrite Hwin', Hdeps, Hstore.
    destruct fiber as [f0|]; simpl in *.
    + rewrite <- Hfirst. destruct (isFirstRender f1); simpl in *.
      * rewrite andb_false_r in He. by subst w'.
      * rewrite andb_true_r in He.
        destruct (negb (bool_decide (deps f0 = deps f1))); simpl in *.
        -- apply hydrate_trace in He as (Hd & Ho & Hs).
           split; [by rewrite Hd, Hbd|]. split; eauto.
        -- by subst w'.
    + rewrite Hfirst in *. simpl in He. by subst w'.
  - injection H as -> -> ->. unfold pass_hydrates. rewrite Hwin.
    destruct fiber as [f0|]; simpl in *.
    + rewrite <- Hfirst, orb_false_r. done.
    + by rewrite Hfirst in Hbd, Hbt.
Qed.

(** X1. A render pass dispatches only into the store of its fiber, and only
    hydration actions: when it hydrates, one action per truthy snapshot of
    the properties it was given, the one for [initialState] (application
    level) first and the one for [pageProps.initialState] (page level)
    second, which take the store from its state [st] to [hydrated st A B];
    otherwise, and when both snapshots are falsy, nothing is dispatched and
    the store stays as it is.  No other store changes state. *)
Theorem render_pass_dispatches fiber wprops context w f el w' :
  render_pass fiber wprops context w = (Ok (f, el), w') →
  allocated (heap w) (get_own (heap w) wprops "pageProps") →
  let A := get_own (heap w) wprops "initialState" in
  let B := get_own (heap w) (get_own (heap w) wprops "pageProps") "initialState" in
  deps f = (B, A)
  ∧ dispatched w'
    = ((if pass_hydrates fiber f w'
        then (if truthy B then [(store f, Action HYDRATE (getDeserializedState B config))] else [])
             ++ (if truthy A then [(store f, Action HYDRATE (getDeserializedState A config))] else [])
        else []) ++ dispatched w)%list
  ∧ (∀ st, store_state w (store f) = Some st →
           store_state w' (store f)
           = Some (if pass_hydrates fiber f w' then hydrated st A B else st))
  ∧ ∀ s st, s ≠ store f → store_state w s = Some st → store_state w' s = Some st.
Proof.
  intros H Hpage A B.
  pose proof (render_pass_deps _ _ _ _ _ _ _ H Hpage) as Hd.
  pose proof (render_pass_trace _ _ _ _ _ _ _ H) as Ht.
  cbv zeta in Ht. rewrite Hd in Ht. split; [done|]. exact Ht.
Qed.

(** X2. In the browser, once a store is registered under the key, a render
    pass never invokes the factory and leaves the registry as it is; the
    store given to [Provider] is the registered one on mount and the one of
    the mount on every later render. *)
Theorem browser_render_reuses_store fiber wprops context w g s f el w' :
  render_pass fiber wprops context w = (Ok (f, el), w') →
  window w = Some g → g !! getStoreKey config = Some s →
  made w' = made w
  ∧ window w' = window w
  ∧ provided el = match fiber with Some f0 => store f0 | None => s end.
Proof.
  intros H Hw Hk. unfold render_pass in H.
  apply bind_inv_Ok in H as ([f1 el1] & wbody & Hb & H).
  apply Wrapper_steps in Hb
    as (wa & s0 & wb & wc & _ & Hwa & Hma & _ & Hi & Hh & _ & Hmc & Hwc & Hprov & Hstore & _).
  rewrite Hw in Hwa. rewrite (initStore_client_hit context wa g s Hwa Hk) in Hi.
  injection Hi as <- <-.
  assert (Hhc : made wc = made wa ∧ window wc = window wa).
  { destruct (isFirstRender f1).
    - by apply (calm_run _ _ _ _ (calm_hydrate _ _ _) Hh).
    - by injection Hh as <-. }
  destruct Hhc as [Hmh Hwh].
  apply bind_inv_Ok in H as (srv & wx & Hsrv & H).
  unfold getIsServer in Hsrv. injection Hsrv as <- <-.
  rewrite Hwc, Hwh, Hwa in H. simpl in H.
  apply bind_inv_Ok in H as (f2 & w3 & He & [= -> -> ->]).
  apply Wrapper_effect_inv in He as (_ & _ & He).
  assert (Hec : made w' = made wbody ∧ window w' = window wbody).
  { destruct (_ && _) in He.
    - by apply (calm_run _ _ _ _ (calm_hydrate _ _ _) He).
    - by subst. }
  destruct Hec as [-> ->].
  split; [congruence|]. split; [congruence|]. by rewrite Hprov, Hstore.
Qed.

Lemma alloc_included o w l o' :
  heap w !! l = Some o' → heap (alloc o w).2 !! l = Some o'.
Proof. intros Hl. simpl. rewrite lookup_insert_ne; [done|]. by eapply fresh_loc_ne. Qed.

Lemma included_stable w wa :
  (∀ l o, heap w !! l = Some o → heap wa !! l = Some o) → stable w wa.
Proof. intros H l o Hl. exists o. eauto. Qed.

(** An acquisition that has no store to reuse (in the browser nothing is
    registered under the key; on the server the context exposes no request)
    makes one at an unused location. *)
Lemma initStore_creates context w wa s wb init :
  (∀ l o, heap w !! l = Some o → heap wa !! l = Some o) →
  window wa = window w →
  match window w with
  | Some g => g !! getStoreKey config = None
  | None => exposes_no_request (heap w) context
  end →
  (∀ w0, makeStore context w0 = Ok init) →
  initStore context wa = (Ok s, wb) →
  s = VObj (fresh (dom (heap wa)))
  ∧ heap w !! fresh (dom (heap wa)) = None
  ∧ store_state wb s = Some init
  ∧ made wb = context :: made wa
  ∧ match window w with
    | Some g => window wb = Some (<[getStoreKey config := s]> g)
    | None => window wb = None
    end.
Proof.
  intros Hinc Hwa Hun Hmk Hi.
  assert (Hold : heap w !! fresh (dom (heap wa)) = None).
  { destruct (heap w !! fresh (dom (heap wa))) as [o|] eqn:E; [|done].
    apply Hinc in E. by rewrite fresh_loc_None in E. }
  destruct (window w) as [g|] eqn:Hw.
  - rewrite (initStore_client_miss context wa g init Hwa Hun (Hmk wa)) in Hi.
    injection Hi as <- <-. simpl. by rewrite lookup_insert_eq.
  - assert (Hno : exposes_no_request (heap wa) context)
      by (eapply stable_exposes_no_request; [by apply included_stable|done]).
    destruct ((exposed_req context wa).1) as [req|e] eqn:Hr.
    + assert (Ht : truthy req = false).
      { destruct req as [| | | | |l]; try done; [| | |by apply exposed_req_none in Hr].
        all: revert Hr; unfold exposed_req, mbind, M_bind, bind, get, mret, M_ret, ret.
        all: destruct Hno as (_ & Hq & Hc); destruct context; simpl; try done.
        all: rewrite Hq, Hc; simpl; by intros [= <-]. }
      rewrite (initStore_server_fresh context wa req init Hwa Hr Ht (Hmk wa)) in Hi.
      injection Hi as <- <-. simpl. by rewrite lookup_insert_eq.
    + unfold initStore in Hi. rewrite (bind_Ok _ _ _ _ _ (getIsServer_server _ Hwa)) in Hi.
      pose proof (exposed_req_world context wa) as Hsame.
      destruct (exposed_req context wa) as [r1 w1] eqn:E. simpl in *. subst.
      by rewrite (bind_Throw _ _ _ _ _ E) in Hi.
Qed.

(** The effect of a mount only clears [isFirstRender.current]. *)
Lemma render_pass_mount wprops context w f el w' :
  render_pass None wprops context w = (Ok (f, el), w') →
  ∃ f1, Wrapper None wprops context w = (Ok (f1, el), w')
        ∧ deps f = deps f1 ∧ store f = store f1.
Proof.
  intros H. unfold render_pass in H.
  apply bind_inv_Ok in H as ([f1 el1] & wbody & Hb & H).
  pose proof (Wrapper_steps _ _ _ _ _ _ _ Hb)
    as (wa & s0 & wb & wc & _ & _ & _ & _ & _ & _ & _ & _ & _ & _ & _ & Hfirst).
  apply bind_inv_Ok in H as (srv & wx & Hsrv & H).
  unfold getIsServer in Hsrv. injection Hsrv as <- <-.
  exists f1. destruct (window wbody).
  - apply bind_inv_Ok in H as (f2 & w3 & He & [= -> -> ->]).
    unfold Wrapper_effect in He. rewrite Hfirst in He. simpl in He.
    by injection He as <- <-.
  - by injection H as -> -> ->.
Qed.

(** A render on the server is the whole pass: no effect runs. *)
Lemma render_pass_server fiber wprops context w f el w' :
  render_pass fiber wprops context w = (Ok (f, el), w') → window w = None →
  Wrapper fiber wprops context w = (Ok (f, el), w').
Proof.
  intros H Hw. unfold render_pass in H.
  apply bind_inv_Ok in H as ([f1 el1] & wbody & Hb & H).
  pose proof (Wrapper_steps _ _ _ _ _ _ _ Hb)
    as (wa & s0 & wb & wc & _ & Hwa & _ & _ & Hi & Hh & _ & _ & Hwc & _).
  assert (Hwb : window wb = None).
  { pose proof (initStore_window_server context wa) as Hs. rewrite Hi in Hs.
    apply Hs. congruence. }
  assert (Hwh : window wc = None).
  { destruct (isFirstRender f1).
    - apply (calm_run _ _ _ _ (calm_hydrate _ _ _)) in Hh as [_ ->]. done.
    - by injection Hh as <-. }
  apply bind_inv_Ok in H as (srv & wx & Hsrv & H).
  unfold getIsServer in Hsrv. injection Hsrv as <- <-.
  rewrite Hwc, Hwh in H. by injection H as <- <- <-.
Qed.

(** A mount that makes its store hydrates it before it returns. *)
Lemma Wrapper_mount_creates wprops context w f el w' init :
  Wrapper None wprops context w = (Ok (f, el), w') →
  match window w with
  | Some g => g !! getStoreKey config = None
  | None => exposes_no_request (heap w) context
  end →
  (∀ w0, makeStore context w0 = Ok init) →
  ∃ l, provided el = VObj l
       ∧ heap w !! l = None
       ∧ made w' = context :: made w
       ∧ store_state w' (VObj l) = Some (hydrated init (deps f).2 (deps f).1)
       ∧ match window w with
         | Some g => window w' = Some (<[getStoreKey config := VObj l]> g)
         | None => window w' = None
         end.
Proof.
  intros H Hun Hmk.
  apply Wrapper_steps in H
    as (wa & s0 & wb & wc & Hinc & Hwa & Hma & _ & Hi & Hh & [_ Qs] & Hmc & Hwc & Hprov & Hstore & Hfirst).
  rewrite Hfirst in Hh.
  destruct (initStore_creates _ _ _ _ _ _ Hinc Hwa Hun Hmk Hi) as (-> & Hold & Hsb & Hmb & Hwb).
  simpl in Hstore. rewrite Hstore in *.
  apply hydrate_trace in Hh as Hht. destruct Hht as (_ & _ & Hst).
  pose proof (calm_run _ _ _ _ (calm_hydrate _ _ _) Hh) as [Hmh Hwh].
  exists (fresh (dom (heap wa))). split; [by rewrite Hprov|]. split; [done|].
  split; [congruence|]. split; [apply Qs; by apply Hst|].
  rewrite Hwc, Hwh. done.
Qed.

(** X3. A mount that finds no store to reuse (in the browser nothing is
    registered under the key; on the server the context exposes no request)
    invokes the factory once and gives [Provider] a new store which, when
    the render returns, is already in the state that hydration with the
    snapshots of the properties, [initialState] and then
    [pageProps.initialState], makes of the factory's initial state; in the
    browser that store is then the registered one. *)
Theorem mount_hydrates_new_store wprops context w f el w' init :
  render_pass None wprops context w = (Ok (f, el), w') →
  allocated (heap w) (get_own (heap w) wprops "pageProps") →
  match window w with
  | Some g => g !! getStoreKey config = None
  | None => exposes_no_request (heap w) context
  end →
  (∀ w0, makeStore context w0 = Ok init) →
  let A := get_own (heap w) wprops "initialState" in
  let B := get_own (heap w) (get_own (heap w) wprops "pageProps") "initialState" in
  ∃ l, provided el = VObj l
       ∧ heap w !! l = None
       ∧ made w' = context :: made w
       ∧ store_state w' (VObj l) = Some (hydrated init A B)
       ∧ match window w with
         | Some g => window w' = Some (<[getStoreKey config := VObj l]> g)
         | None => window w' = None
         end.
Proof.
  intros H Hpage Hun Hmk A B.
  pose proof (render_pass_deps _ _ _ _ _ _ _ H Hpage) as Hd.
  apply render_pass_mount in H as (f1 & H & Hdf & _).
  destruct (Wrapper_mount_creates _ _ _ _ _ _ _ H Hun Hmk) as (l & Hl).
  exists l. rewrite <- Hdf, Hd in Hl. exact Hl.
Qed.

(** X4. On the server, where the context of a render exposes no request,
    every later render of a mounted [Wrapper] invokes the factory again:
    the store it makes is left in its initial state and is not the one
    given to [Provider], which stays the store of the mount. *)
Theorem server_rerender_makes_spare_store f0 wprops context w f el w' init :
  render_pass (Some f0) wprops context w = (Ok (f, el), w') →
  window w = None → exposes_no_request (heap w) context →
  allocated (heap w) (store f0) →
  (∀ w0, makeStore context w0 = Ok init) →
  provided el = store f0
  ∧ store f = store f0
  ∧ made w' = context :: made w
  ∧ ∃ l, heap w !! l = None
         ∧ VObj l ≠ store f0
         ∧ store_state w' (VObj l) = Some init.
Proof.
  intros H Hw Hno Hal Hmk.
  apply render_pass_server in H; [|done].
  apply Wrapper_steps in H
    as (wa & s0 & wb & wc & Hinc & Hwa & Hma & _ & Hi & Hh & [_ Qs] & Hmc & Hwc & Hprov & Hstore & Hfirst).
  assert (Hun : match window w with
                | Some g => g !! getStoreKey config = None
                | None => exposes_no_request (heap w) context
                end) by (by rewrite Hw).
  destruct (initStore_creates _ _ _ _ _ _ Hinc Hwa Hun Hmk Hi) as (-> & Hold & Hsb & Hmb & _).
  simpl in Hstore.
  assert (Hne : VObj (fresh (dom (heap wa))) ≠ store f0).
  { intros E. rewrite <- E in Hal. simpl in Hal. rewrite Hold in Hal. by destruct Hal. }
  assert (Hhc : made wc = made wb
                ∧ store_state wc (VObj (fresh (dom (heap wa)))) = Some init).
  { destruct (isFirstRender f).
    - pose proof (calm_run _ _ _ _ (calm_hydrate _ _ _) Hh) as [Hmh _].
      apply hydrate_trace in Hh as (_ & Ho & _). split; [done|].
      apply Ho; [|done]. by rewrite Hstore.
    - by injection Hh as <-. }
  destruct Hhc as [Hmh Hsc].
  split; [by rewrite Hprov|]. split; [done|]. split; [congruence|].
  exists (fresh (dom (heap wa))). split; [done|]. split; [done|]. by apply Qs.
Qed.

(** *** The context of the callback *)

(** An acquisition keeps every object there is, and leaves every property
    but the request marker as it is. *)
Lemma initStore_keeps c w l o :
  heap w !! l = Some o →
  ∃ o', heap (initStore c w).2 !! l = Some o'
        ∧ ∀ k, k ≠ MARK → props o' !! k = props o !! k.
Proof.
  intros Hl. destruct (initStore_footprint c w l o Hl) as (o' & Ho' & [->|(_ & _ & _ & s & _ & ->)]).
  - eauto.
  - exists {| props := <[MARK := s]> (props o); redux := redux o |}. split; [done|].
    intros k Hk. simpl. by rewrite lookup_insert_ne.
Qed.

Lemma initStore_get_own c w v k :
  k ≠ MARK → allocated (heap w) v →
  get_own (heap (initStore c w).2) v k = get_own (heap w) v k.
Proof.
  intros Hk. destruct v as [| | | | |l]; try done. intros [o Ho].
  destruct (initStore_keeps c w l o Ho) as (o' & Ho' & Hp).
  unfold get_own. simpl. by rewrite Ho, Ho', Hp.
Qed.

Lemma truthy_get_own_allocated h v k : truthy (get_own h v k) = true → allocated h v.
Proof.
  destruct v as [| | | | |l]; try done. unfold get_own. simpl.
  destruct (h !! l); [eauto|done].
Qed.

Lemma store_state_truthy w s st : store_state w s = Some st → truthy s = true.
Proof. by destruct s. Qed.

(** X5. The application-level phase runs the callback on a new object that
    is the context with [ctx] replaced by a new copy of [context.ctx]
    carrying the acquired store; the store is not put at the top of the
    context, and no object that existed is written to on the way. *)
Theorem app_phase_context (f : Callback) context w env w' :
  getInitialAppProps (Some f) context w = (Ok env, w') →
  ∃ store w1 la li wa r wb,
    initStore context w = (Ok store, w1)
    ∧ f (VObj la) wa = (Ok r, wb)
    ∧ heap w1 !! la = None ∧ heap w1 !! li = None ∧ li ≠ la
    ∧ own_props (heap wa) (VObj la) = <["ctx" := VObj li]> (own_props (heap w1) context)
    ∧ own_props (heap wa) (VObj li)
      = <["store" := store]> (own_props (heap w1) (get_own (heap w1) context "ctx"))
    ∧ (∀ l o, heap w1 !! l = Some o → heap wa !! l = Some o)
    ∧ made wa = made w1 ∧ window wa = window w1 ∧ dispatched wa = dispatched w1.
Proof.
  intros H. unfold getInitialAppProps in H.
  apply makeProps_steps in H as (store & w1 & c1 & ip & w2 & c3 & st & Hi & Hcb & _).
  apply (callback_part_inv f context true store) in Hcb
    as (la & wa & r & wb & Hf & Hla & Hinc & Hwin & Hmade & Hdis & _ & (li & Hli & Hne & Ha & Hb) & _).
  exists store, w1, la, li, wa, r, wb. done.
Qed.


(** X7. A wrapped page inside a wrapped application: when the
    [getInitialProps] of the wrapped application hands [ctx] over to the
    [getInitialProps] of a wrapped page, the page callback runs on the copy
    of [context.ctx] that carries the store of the application-level phase,
    after a warning; the factory is not invoked a second time and the
    registry is not written to. *)
Theorem wrapped_page_in_wrapped_app (g : Callback) context w env w' :
  let f : Callback := λ arg, ctx ← get arg "ctx"; Wrapper_getInitialProps (Some g) ctx in
  let pctx := get_own (heap w) context "ctx" in
  Wrapper_getInitialProps (Some f) context w = (Ok env, w') →
  truthy pctx = true → allocated (heap w) pctx →
  truthy (get_own (heap w) pctx "ctx") = false →
  ∃ store w1 li wg r wb,
    initStore context w = (Ok store, w1)
    ∧ g (VObj li) wg = (Ok r, wb)
    ∧ heap w1 !! li = None
    ∧ own_props (heap wg) (VObj li) = <["store" := store]> (own_props (heap w1) pctx)
    ∧ made wg = made w1
    ∧ window wg = window w1
    ∧ dispatched wg = dispatched w1
    ∧ head (console wg) = Some (WARN, "No need to wrap pages if _app was wrapped", []).
Proof.
  intros f pctx H Hp Hpa Hpc.
  assert (Hca : allocated (heap w) context) by (by eapply truthy_get_own_allocated).
  unfold Wrapper_getInitialProps in H at 1.
  apply bind_inv_Ok in H as (c & wx & Hc & H). apply get_inv in Hc as [-> ->].
  fold pctx in H. rewrite Hp in H. unfold getInitialAppProps in H.
  apply makeProps_steps in H as (store & w1 & c1 & ip & w2 & c3 & st & Hi & Hcb & Hst & _).
  assert (Hw1 : w1 = (initStore context w).2) by (by rewrite Hi).
  assert (Hp1 : get_own (heap w1) context "ctx" = pctx).
  { rewrite Hw1. by apply initStore_get_own. }
  assert (Hpa1 : allocated (heap w1) pctx).
  { destruct pctx as [| | | | |l]; try done. destruct Hpa as [o Ho].
    destruct (initStore_keeps context w l o Ho) as (o' & Ho' & _).
    rewrite Hw1. simpl. eauto. }
  apply (callback_part_inv f context true store) in Hcb
    as (la & wa & r & wb & Hf & Hla & Hinc & Hwin & Hmade & Hdis & Hcon
        & (li & Hli & Hne & Ha & Hb) & Hend).
  cbn [heap with_console window made dispatched console] in *.
  rewrite Hp1 in Hb.
  (* the store is a store when the phase ends, so it is an object *)
  assert (Hts : truthy store = true).
  { destruct store; try done.
    all: destruct (truthy r); destruct Hend as [_ ->]; simpl in Hst; done. }
  (* the application callback hands [ctx] over *)
  unfold f in Hf.
  apply bind_inv_Ok in Hf as (c & wx & Hc & Hf). apply get_inv in Hc as [-> ->].
  assert (Ectx : get_own (heap wa) (VObj la) "ctx" = VObj li).
  { unfold get_own. by rewrite Ha, lookup_insert_eq. }
  rewrite Ectx in Hf.
  unfold Wrapper_getInitialProps in Hf.
  apply bind_inv_Ok in Hf as (c & wx & Hc & Hf). apply get_inv in Hc as [-> ->].
  assert (Ecc : get_own (heap wa) (VObj li) "ctx" = get_own (heap w) pctx "ctx").
  { unfold get_own at 1. rewrite Hb, lookup_insert_ne by done.
    fold (get_own (heap w1) pctx "ctx"). rewrite Hw1. by apply initStore_get_own. }
  rewrite Ecc, Hpc in Hf. unfold getInitialPageProps in Hf.
  apply bind_inv_Ok in Hf as (c & wx & Hc & Hf). apply get_inv in Hc as [-> ->].
  assert (Est : get_own (heap wa) (VObj li) "store" = store).
  { unfold get_own. by rewrite Hb, lookup_insert_eq. }
  rewrite Est, Hts in Hf.
  unfold mbind, M_bind, bind, console_warn, call in Hf.
  exists store, w1, li,
    (with_console ((WARN, "No need to wrap pages if _app was wrapped", []) :: console wa) wa),
    r, wb.
  split; [done|]. split; [done|]. split; [done|].
  cbn [heap with_console window made dispatched console].
  done.
Qed.

(** *** The request a context exposes *)

Lemma get_own_object_truthy h v k l : get_own h v k = VObj l → truthy v = true.
Proof.
  intros H. destruct (truthy v) eqn:E; [done|].
  unfold get_own in H. by rewrite falsy_own_props, lookup_empty in H.
Qed.

Lemma exposed_req_app c w r :
  get_own (heap w) (get_own (heap w) c "ctx") "req" = VObj r →
  (exposed_req c w).1 = Ok (VObj r).
Proof.
  intros Hr.
  pose proof (get_own_object_truthy _ _ _ _ Hr) as Hctx.
  assert (Hc : truthy c = true).
  { destruct (truthy c) eqn:E; [done|].
    unfold get_own in Hctx. by rewrite (falsy_own_props _ c E), lookup_empty in Hctx. }
  unfold exposed_req, mbind, M_bind, bind, mret, M_ret, ret.
  rewrite (get_truthy c "req" w Hc), (get_truthy c "ctx" w Hc), Hctx.
  rewrite (get_truthy _ "req" w Hctx), Hr. done.
Qed.

Lemma exposed_req_page c w r :
  get_own (heap w) c "req" = VObj r → truthy (get_own (heap w) c "ctx") = false →
  (exposed_req c w).1 = Ok (VObj r).
Proof.
  intros Hr Hctx.
  pose proof (get_own_object_truthy _ _ _ _ Hr) as Hc.
  unfold exposed_req, mbind, M_bind, bind, mret, M_ret, ret.
  by rewrite (get_truthy c "req" w Hc), (get_truthy c "ctx" w Hc), Hctx, Hr.
Qed.

Lemma after_acquisitions_get_own cs w v k :
  k ≠ MARK → allocated (heap w) v →
  get_own (heap (after_acquisitions cs w)) v k = get_own (heap w) v k.
Proof.
  intros Hk. revert w. induction cs as [|c cs IH]; intros w Hv; [done|].
  simpl. rewrite IH.
  - by apply initStore_get_own.
  - destruct v as [| | | | |l]; try done. destruct Hv as [o Ho].
    destruct (initStore_keeps c w l o Ho) as (o' & Ho' & _). simpl. eauto.
Qed.

(** X8. On the server the request found at [context.ctx.req] is the one
    that counts, whatever [context.req] is: the application-level phase,
    whose context holds the request there, and a page-level phase whose
    context holds the same request as [req] get the same store, which is
    the one attached to the request, whatever acquisitions happen in
    between. *)
Theorem app_and_page_share_request_store capp cpage r cs w s w1 :
  window w = None →
  get_own (heap w) (get_own (heap w) capp "ctx") "req" = VObj r →
  get_own (heap w) cpage "req" = VObj r →
  truthy (get_own (heap w) cpage "ctx") = false →
  initStore capp w = (Ok s, w1) →
  let w2 := after_acquisitions cs w1 in
  initStore cpage w2 = (Ok s, w2)
  ∧ get_own (heap w2) (VObj r) MARK = s
  ∧ truthy s = true.
Proof.
  intros Hw Happ Hpage Hnoctx Hi w2.
  pose proof (initStore_attaches capp r w s w1 Hw (exposed_req_app _ _ _ Happ) Hi) as Hat.
  assert (Hat2 : attached r s w2) by (by apply after_acquisitions_attached).
  assert (Hal : allocated (heap w) cpage).
  { eapply (truthy_get_own_allocated _ _ "req"). by rewrite Hpage. }
  assert (Hal1 : allocated (heap w1) cpage).
  { destruct cpage as [| | | | |l]; try done. destruct Hal as [o Ho].
    destruct (initStore_keeps capp w l o Ho) as (o' & Ho' & _).
    rewrite Hi in Ho'. simpl. eauto. }
  assert (Hw1 : w1 = (initStore capp w).2) by (by rewrite Hi).
  assert (Hreq2 : get_own (heap w2) cpage "req" = VObj r).
  { unfold w2. rewrite after_acquisitions_get_own by done.
    rewrite Hw1, initStore_get_own by done. done. }
  assert (Hctx2 : truthy (get_own (heap w2) cpage "ctx") = false).
  { unfold w2. rewrite after_acquisitions_get_own by done.
    rewrite Hw1, initStore_get_own by done. done. }
  assert (Hw2 : window w2 = None).
  { apply after_acquisitions_window_server. rewrite Hw1. by apply initStore_window_server. }
  split.
  { by apply (initStore_server_hit cpage r s w2 Hw2 (exposed_req_page _ _ _ Hreq2 Hctx2)). }
  split; [by apply attached_get|]. by destruct Hat2.
Qed.

(** X9. What the wrapped component receives, for a render whose context
    exposes no request and whose properties refer to objects that exist:
    it never receives [key], [ref], [__self] or [__source], which React
    keeps for itself; apart from these and from [pageProps], each property
    is the one given to [Wrapper] beside [initialState] and [initialProps]
    when there is one, and the one of [initialProps] otherwise, so that the
    snapshot and the envelope of the wrapper itself never reach the
    component; [pageProps] holds the merged page properties, without
    [initialState] when the page-level snapshot is truthy; when there is
    neither a snapshot nor truthy application-level page properties, it is
    the very value that was given, and the one of [initialProps] when none
    was given. *)
Theorem component_receives fiber wprops context w f el w' :
  Wrapper fiber wprops context w = (Ok (f, el), w') →
  exposes_no_request (heap w) context → props_allocated (heap w) wprops →
  let cp := component_props el in
  let ip := get_own (heap w) wprops "initialProps" in
  (∀ k, k ≠ "pageProps" →
        own_props (heap w') cp !! k
        = if bool_decide (k ∈ ["key"; "ref"; "__self"; "__source"]) then None
          else match own_props (heap w) wprops !! k with
               | Some v => if decide (k = "initialState" ∨ k = "initialProps")
                           then own_props (heap w) ip !! k else Some v
               | None => own_props (heap w) ip !! k
               end)
  ∧ own_props (heap w') (get_own (heap w') cp "pageProps") = exposed_pageProps (heap w) wprops
  ∧ (truthy (page_snapshot (heap w) wprops) = false →
     truthy (app_pageProps (heap w) ip) = false →
     get_own (heap w') cp "pageProps"
     = match own_props (heap w) wprops !! "pageProps" with
       | Some v => v
       | None => get_own (heap w) ip "pageProps"
       end).
Proof.
  intros H Hctx Hal cp ip.
  destruct (Wrapper_output _ _ _ _ _ _ _ H Hctx Hal) as (_ & _ & Htop & Hpp & Hshape).
  fold cp in Htop, Hpp, Hshape. fold ip in Htop, Hshape.
  split.
  { intros k Hk. rewrite (Htop k Hk), element_props_lookup.
    change reserved_props with ["key"; "ref"; "__self"; "__source"].
    case_bool_decide; [done|].
    rewrite lookup_union. unfold rest_props.
    destruct (decide (k = "initialState" ∨ k = "initialProps")) as [[->| ->]|Hn].
    - rewrite lookup_delete_ne, lookup_delete_eq by done.
      rewrite (left_id_L None _). by destruct (own_props (heap w) wprops !! "initialState").
    - rewrite lookup_delete_eq.
      rewrite (left_id_L None _). by destruct (own_props (heap w) wprops !! "initialProps").
    - rewrite !lookup_delete_ne by (intros <-; tauto).
      destruct (own_props (heap w) wprops !! k) as [v|]; simpl.
      + by destruct (own_props (heap w) ip !! k).
      + by rewrite (left_id_L None _). }
  split; [done|].
  intros Hs Ha. rewrite Hs, Ha in Hshape. simpl in Hshape. rewrite Hshape.
  rewrite lookup_union. unfold rest_props, get_own.
  rewrite !lookup_delete_ne by done.
  destruct (own_props (heap w) wprops !! "pageProps") as [v|] eqn:E; simpl.
  - by destruct (own_props (heap w) ip !! "pageProps").
  - by rewrite (left_id_L None _).
Qed.

Lemma initStore_console_window c w :
  console (initStore c w).2 = console w
  ∧ ∀ k, k ≠ getStoreKey config → window (initStore c w).2 ≫= (.!! k) = window w ≫= (.!! k).
Proof.
  destruct (window w) as [g|] eqn:Hw.
  - destruct (g !! getStoreKey config) as [s|] eqn:Hk.
    + rewrite (initStore_client_hit _ _ _ _ Hw Hk). simpl. by rewrite Hw.
    + unfold initStore. rewrite (bind_Ok _ _ _ _ _ (getIsServer_client _ _ Hw)).
      unfold mbind, M_bind, bind, in_window, window_get, window_set, mret, M_ret, ret.
      rewrite Hw, Hk, bool_decide_false by (by intros [? ?]).
      destruct (createStore_spec c w) as [(init & _ & ->)|(e & _ & ->)]; simpl; rewrite ?Hw; simpl.
      * split; [done|]. intros k Hne. by rewrite lookup_insert_ne.
      * done.
  - pose proof (initStore_window_server c w Hw) as Hw'. rewrite Hw'. split; [|done].
    pose proof (exposed_req_world c w) as Hsame.
    destruct (exposed_req c w) as [[req|e] w1] eqn:E; simpl in Hsame; subst w1.
    2:{ unfold initStore. rewrite (bind_Ok _ _ _ _ _ (getIsServer_server _ Hw)).
        by rewrite (bind_Throw _ _ _ _ _ E). }
    rewrite (initStore_server c w req Hw) by (by rewrite E).
    unfold mbind, M_bind, bind.
    destruct (createStore_spec c w) as [(init & _ & ->)|(e & _ & ->)];
      unfold set, get; repeat case_match; simplify_eq/=; done.
Qed.

(** An acquisition that finds a store, or cannot tell which request it
    serves, does not call the factory. *)
Lemma initStore_memoized c w : unmemoized c w = false → made (initStore c w).2 = made w.
Proof.
  unfold unmemoized. intros Hu.
  destruct (window w) as [g|] eqn:Hw.
  - apply bool_decide_eq_false in Hu.
    destruct (g !! getStoreKey config) as [s|] eqn:Hk; [|done].
    by rewrite (initStore_client_hit _ _ _ _ Hw Hk).
  - pose proof (exposed_req_world c w) as Hsame.
    destruct (exposed_req c w) as [[req|e] w1] eqn:E; simpl in Hsame, Hu; subst w1.
    2:{ unfold initStore. rewrite (bind_Ok _ _ _ _ _ (getIsServer_server _ Hw)).
        by rewrite (bind_Throw _ _ _ _ _ E). }
    apply orb_false_iff in Hu as [Hq Hm].
    apply negb_false_iff in Hq. apply negb_false_iff in Hm.
    rewrite (initStore_server c w req Hw) by (by rewrite E).
    by rewrite Hq, Hm.
Qed.

(** X10. An acquisition calls the factory exactly when no store is
    memoized where it looks for one.  It dispatches nothing, writes nothing
    to the console and changes the state of no store; of the objects that
    exist it can only touch the request marker, and in the browser it
    writes to none of them, whatever the context holds; of the registry it
    can only write the entry under the key. *)
Theorem acquisition_footprint c w :
  let w' := (initStore c w).2 in
  made w' = (if unmemoized c w then c :: made w else made w)
  ∧ dispatched w' = dispatched w
  ∧ console w' = console w
  ∧ (∀ s st, store_state w s = Some st → store_state w' s = Some st)
  ∧ (∀ l o, heap w !! l = Some o →
            ∃ o', heap w' !! l = Some o' ∧ redux o' = redux o
                  ∧ ∀ k, k ≠ MARK → props o' !! k = props o !! k)
  ∧ (is_Some (window w) → ∀ l o, heap w !! l = Some o → heap w' !! l = Some o)
  ∧ ∀ k, k ≠ getStoreKey config → window w' ≫= (.!! k) = window w ≫= (.!! k).
Proof.
  intros w'. subst w'.
  destruct (quiet_initStore c w) as [Hd Hs].
  destruct (initStore_console_window c w) as [Hc Hw].
  split.
  { destruct (unmemoized c w) eqn:Hu.
    - by apply initStore_unmemoized.
    - by apply initStore_memoized. }
  split; [done|]. split; [done|]. split; [done|]. split.
  { intros l o Hl.
    destruct (initStore_footprint c w l o Hl) as (o' & Ho' & [->|(_ & _ & _ & s & _ & ->)]).
    - eauto.
    - eexists. split; [done|]. split; [done|]. intros k Hk. simpl. by rewrite lookup_insert_ne. }
  split; [|done].
  intros [g Hg] l o Hl.
  destruct (initStore_footprint c w l o Hl) as (o' & Ho' & [->|(Hn & _)]); [done|congruence].
Qed.

(** *** From the request-time phase to the render *)

(** X11. From the request-time phase to the render, on the server: when
    the payload of the phase reaches [Wrapper] as [pageProps], in a world
    that kept what the phase left, the mount makes a store of its own and
    hydrates it with the serialized state in which the callback left the
    store of the request, after the application-level snapshot if there is
    one.  The callback is taken to return objects that exist and whose
    [props] have no [initialState] of their own. *)
Theorem request_state_reaches_render (f : Callback) context w res w1 v wprops rctx fb el v' init :
  getServerSideProps (Some f) context w = (Ok res, w1) →
  returns_objects f → leaves_snapshot f →
  window w1 = None → window v = None →
  (∀ l o, heap w1 !! l = Some o → heap v !! l = Some o) →
  get_own (heap v) wprops "pageProps" = get_own (heap w1) res "props" →
  props_allocated (heap v) wprops → exposes_no_request (heap v) rctx →
  (∀ w0, makeStore rctx w0 = Ok init) →
  render_pass None wprops rctx v = (Ok (fb, el), v') →
  ∃ store st l,
    (initStore context w).1 = Ok store
    ∧ store_state w1 store = Some st
    ∧ deps fb = (getSerializedState st config, get_own (heap v) wprops "initialState")
    ∧ provided el = VObj l ∧ heap v !! l = None ∧ VObj l ≠ store
    ∧ store_state v' (VObj l)
      = Some (hydrated init (get_own (heap v) wprops "initialState")
                (getSerializedState st config)).
Proof.
  intros H Hobj Hsnap Hw1 Hv Hinc Hpp Hal Hno Hmk Hr.
  unfold getServerSideProps in H.
  apply getStaticProps_inv in H
    as (store & w0 & la & wa & r & wb & st & inner & Hi & Hf & _ & _ & Hstb & Hst1 & _ & Hwb & _ & _
        & Hres & _ & Hin & Hrp & Hip); [|done].
  rewrite Hw1 in Hwb. rewrite <- Hwb in Hip.
  (* the snapshot the payload carries *)
  assert (Epp : get_own (heap v) wprops "pageProps" = VObj inner).
  { rewrite Hpp. unfold get_own. by rewrite Hrp, lookup_insert_eq. }
  assert (Esn : page_snapshot (heap v) wprops = getSerializedState st config).
  { rewrite page_snapshot_spec by (by rewrite Epp). rewrite Epp.
    unfold get_own. rewrite (own_props_included (heap w1) (heap v)) by done.
    rewrite Hip, lookup_union.
    replace (own_props (heap wb) _ !! "initialState") with (@None value).
    - by rewrite lookup_singleton_eq.
    - symmetry. destruct (truthy r) eqn:Ht.
      + apply (Hsnap _ _ _ _ Hf).
      + by rewrite lookup_empty. }
  (* the mount *)
  apply render_pass_mount in Hr as (f1 & Hr & -> & _).
  destruct (Wrapper_output _ _ _ _ _ _ _ Hr Hno Hal) as (_ & Hdeps & _).
  assert (Hun : match window v with
                | Some g => g !! getStoreKey config = None
                | None => exposes_no_request (heap v) rctx
                end) by (by rewrite Hv).
  destruct (Wrapper_mount_creates _ _ _ _ _ _ _ Hr Hun Hmk) as (l & Hprov & Hl & _ & Hstl & _).
  rewrite Hdeps in Hstl |- *. simpl in Hstl. rewrite Esn in *.
  exists store, st, l. rewrite Hi.
  do 5 (split; [done|]). split; [|done].
  intros E'. apply (store_state_included w1 v) in Hst1; [|done].
  rewrite <- E' in Hst1. simpl in Hst1. by rewrite Hl in Hst1.
Qed.

(** *** Navigation in the browser *)



(** *** Separate requests *)

(** On the server, an acquisition for a request that carries no store yet
    makes one at an unused location and attaches it to the request. *)
Lemma initStore_server_miss c w r s w1 :
  window w = None → (exposed_req c w).1 = Ok (VObj r) →
  truthy (get_own (heap w) (VObj r) MARK) = false →
  initStore c w = (Ok s, w1) →
  let l := fresh (dom (heap w)) in
  ∃ init o,
    makeStore c w = Ok init
    ∧ s = VObj l
    ∧ <[l := {| props := ∅; redux := Some init |}]> (heap w) !! r = Some o
    ∧ w1 = with_heap (<[r := {| props := <[MARK := VObj l]> (props o); redux := redux o |}]>
                        (<[l := {| props := ∅; redux := Some init |}]> (heap w)))
             (with_made (c :: made w) w).
Proof.
  intros Hw Hr Hm Hi l. rewrite (initStore_server c w _ Hw Hr) in Hi. simpl in Hi.
  rewrite Hm in Hi. unfold mbind, M_bind, bind in Hi.
  destruct (createStore_spec c w) as [(init & Hmk & Hc)|(e & _ & Hc)]; rewrite Hc in Hi; [|done].
  fold l in Hi. unfold set in Hi. cbn [heap with_heap with_made] in Hi.
  destruct (<[l := {| props := ∅; redux := Some init |}]> (heap w) !! r) as [o|] eqn:Ho; [|done].
  unfold get, get_own in Hi. simpl in Hi. rewrite lookup_insert_eq in Hi. simpl in Hi.
  rewrite lookup_insert_eq in Hi. injection Hi as <- <-.
  exists init, o. done.
Qed.

(** X16. On the server, two requests that carry no store yet never share
    one: the acquisitions for them, one after the other, each invoke the
    factory, and return two different new stores, each attached to its own
    request. *)
Theorem requests_do_not_share_stores c1 c2 r1 r2 w s1 w1 s2 w2 :
  window w = None → r1 ≠ r2 →
  (exposed_req c1 w).1 = Ok (VObj r1) →
  (exposed_req c2 w1).1 = Ok (VObj r2) →
  truthy (get_own (heap w) (VObj r1) MARK) = false →
  truthy (get_own (heap w) (VObj r2) MARK) = false →
  initStore c1 w = (Ok s1, w1) →
  initStore c2 w1 = (Ok s2, w2) →
  ∃ l1 l2,
    s1 = VObj l1 ∧ s2 = VObj l2 ∧ l1 ≠ l2
    ∧ heap w !! l1 = None ∧ heap w1 !! l2 = None
    ∧ made w2 = c2 :: c1 :: made w
    ∧ get_own (heap w2) (VObj r1) MARK = s1
    ∧ get_own (heap w2) (VObj r2) MARK = s2.
Proof.
  intros Hw Hne Hr1 Hr2 Hm1 Hm2 Hi1 Hi2.
  destruct (initStore_server_miss _ _ _ _ _ Hw Hr1 Hm1 Hi1) as (i1 & o1 & _ & -> & Ho1 & Hw1).
  set (l1 := fresh (dom (heap w))) in *.
  assert (Hwin1 : window w1 = None) by (by rewrite Hw1).
  assert (Hh1 : heap w1 = <[r1 := {| props := <[MARK := VObj l1]> (props o1); redux := redux o1 |}]>
                            (<[l1 := {| props := ∅; redux := Some i1 |}]> (heap w)))
    by (by rewrite Hw1).
  assert (Hm2' : truthy (get_own (heap w1) (VObj r2) MARK) = false).
  { unfold get_own in *. simpl in *. rewrite Hh1, lookup_insert_ne by done.
    destruct (decide (l1 = r2)) as [<-|Hn].
    - by rewrite lookup_insert_eq.
    - by rewrite lookup_insert_ne. }
  destruct (initStore_server_miss _ _ _ _ _ Hwin1 Hr2 Hm2' Hi2) as (i2 & o2 & _ & -> & Ho2 & Hw2).
  set (l2 := fresh (dom (heap w1))) in *.
  assert (Hl1 : is_Some (heap w1 !! l1)).
  { rewrite Hh1. destruct (decide (r1 = l1)) as [->|Hn].
    - rewrite lookup_insert_eq. eauto.
    - rewrite lookup_insert_ne, lookup_insert_eq by done. eauto. }
  assert (Hr1' : is_Some (heap w1 !! r1)) by (rewrite Hh1, lookup_insert_eq; eauto).
  assert (Hl12 : l1 ≠ l2).
  { destruct Hl1 as [o Ho]. apply not_eq_sym. by eapply fresh_loc_ne. }
  assert (Hr1l2 : r1 ≠ l2).
  { destruct Hr1' as [o Ho]. apply not_eq_sym. by eapply fresh_loc_ne. }
  exists l1, l2. split; [done|]. split; [done|]. split; [done|].
  split; [apply fresh_loc_None|]. split; [apply fresh_loc_None|].
  rewrite Hw2. cbn [heap with_heap with_made made]. split; [by rewrite Hw1|].
  unfold get_own. simpl. split.
  - rewrite lookup_insert_ne by done. fold l2.
    rewrite lookup_insert_ne by done.
    rewrite Hh1, lookup_insert_eq. simpl. by rewrite lookup_insert_eq.
  - rewrite lookup_insert_eq. simpl. by rewrite lookup_insert_eq.
Qed.

End createWrapper.

(** ** Two wrappers in one browser *)

(** X12. Two wrappers in one browser, neither with a store yet.  The key
    of a wrapper is its [config.storeKey], or the default key when that is
    unset or empty.  When the keys of the two differ, each gets a store of
    its own from its own factory, registered under its own key, and finds
    it again in every later acquisition; when the keys are the same, as
    they are when neither configuration sets one, the second wrapper gets
    the store of the first and its factory is never called. *)
Theorem store_keys_isolate_wrappers mk1 cfg1 mk2 cfg2 c1 c2 w g i1 i2 :
  let key := λ cfg, match storeKey cfg with
                    | Some k => if String.eqb k "" then STOREKEY else k
                    | None => STOREKEY
                    end in
  window w = Some g →
  g !! key cfg1 = None → g !! key cfg2 = None →
  mk1 c1 w = Ok i1 → (∀ w0, mk2 c2 w0 = Ok i2) →
  ∃ l1 w1 s2 w2,
    initStore mk1 cfg1 c1 w = (Ok (VObj l1), w1)
    ∧ initStore mk2 cfg2 c2 w1 = (Ok s2, w2)
    ∧ window w2 = Some (<[key cfg2 := s2]> (<[key cfg1 := VObj l1]> g))
    ∧ (∀ c, initStore mk1 cfg1 c w2 = (Ok (VObj l1), w2)
            ∧ initStore mk2 cfg2 c w2 = (Ok s2, w2))
    ∧ store_state w2 (VObj l1) = Some i1
    ∧ if decide (key cfg1 = key cfg2)
      then s2 = VObj l1 ∧ made w2 = c1 :: made w
      else ∃ l2, s2 = VObj l2 ∧ l2 ≠ l1
                 ∧ made w2 = c2 :: c1 :: made w
                 ∧ store_state w2 (VObj l2) = Some i2.
Proof.
  intros key. assert (Ek : key = getStoreKey) by done. clearbody key. subst key.
  intros Hw Hk1 Hk2 Hm1 Hm2.
  set (l1 := fresh (dom (heap w))).
  pose proof (initStore_client_miss mk1 cfg1 c1 w g i1 Hw Hk1 Hm1) as H1.
  cbv zeta in H1. fold l1 in H1.
  set (w1 := {| heap := <[l1 := {| props := ∅; redux := Some i1 |}]> (heap w);
                window := Some (<[getStoreKey cfg1 := VObj l1]> g);
                console := console w; made := c1 :: made w;
                dispatched := dispatched w |}) in *.
  destruct (decide (getStoreKey cfg1 = getStoreKey cfg2)) as [Heq|Hne].
  - assert (Hhit : ∀ c, initStore mk1 cfg1 c w1 = (Ok (VObj l1), w1)
                        ∧ initStore mk2 cfg2 c w1 = (Ok (VObj l1), w1)).
    { intros c. split; apply (initStore_client_hit _ _ c w1 (<[getStoreKey cfg1 := VObj l1]> g));
        try done; [|rewrite <- Heq]; apply lookup_insert_eq. }
    exists l1, w1, (VObj l1), w1.
    split; [done|]. split; [apply Hhit|].
    split; [by simpl; rewrite <- Heq, insert_insert_eq|]. split; [done|].
    split; [by simpl; rewrite lookup_insert_eq|]. done.
  - set (l2 := fresh (dom (heap w1))).
    assert (Hk2' : <[getStoreKey cfg1 := VObj l1]> g !! getStoreKey cfg2 = None)
      by (by rewrite lookup_insert_ne).
    pose proof (initStore_client_miss mk2 cfg2 c2 w1 _ i2 eq_refl Hk2' (Hm2 w1)) as H2.
    cbv zeta in H2. fold l2 in H2.
    set (w2 := {| heap := <[l2 := {| props := ∅; redux := Some i2 |}]> (heap w1);
                  window := Some (<[getStoreKey cfg2 := VObj l2]> (<[getStoreKey cfg1 := VObj l1]> g));
                  console := console w1; made := c2 :: made w1;
                  dispatched := dispatched w1 |}) in *.
    assert (Hl : l2 ≠ l1).
    { unfold l2. eapply fresh_loc_ne. unfold w1. simpl. apply lookup_insert_eq. }
    exists l1, w1, (VObj l2), w2.
    split; [done|]. split; [done|]. split; [done|]. split.
    { intros c. split.
      - apply (initStore_client_hit _ _ c w2 _ _ eq_refl).
        rewrite lookup_insert_ne by done. apply lookup_insert_eq.
      - apply (initStore_client_hit _ _ c w2 _ _ eq_refl). apply lookup_insert_eq. }
    split.
    { simpl. rewrite lookup_insert_ne by done. by rewrite lookup_insert_eq. }
    exists l2. split; [done|]. split; [done|]. split; [done|].
    simpl. by rewrite lookup_insert_eq.
Qed.

(** ** The debug flag *)

Section debug_flag.

Variable makeStore : value → World → Result value.
Variable config : Config.
Variable reducer : value → action → value.
Hypothesis blind : console_blind makeStore.

Lemma sim_refl w : sim w w.
Proof. done. Qed.

Lemma alike_ret {A} (a : A) : alike (mret a) (mret a).
Proof. intros w1 w2 H. done. Qed.

Lemma alike_bind {A B} (m1 m2 : M A) (k1 k2 : A → M B) :
  alike m1 m2 → (∀ a, alike (k1 a) (k2 a)) → alike (m1 ≫= k1) (m2 ≫= k2).
Proof.
  intros Hm Hk w1 w2 H. specialize (Hm w1 w2 H). unfold mbind, M_bind, bind.
  destruct (m1 w1) as [[a|e] w1'], (m2 w2) as [[a'|e'] w2']; simpl in *;
    destruct Hm as [Hr Hs]; simplify_eq; [by apply Hk|done].
Qed.

Lemma alike_if {A} (b : bool) (m1 m2 n1 n2 : M A) :
  alike m1 m2 → alike n1 n2 → alike (if b then m1 else n1) (if b then m2 else n2).
Proof. by destruct b. Qed.

Ltac alike_prim :=
  intros [h1 g1 c1 m1 d1] [h2 g2 c2 m2 d2] (Hh & Hg & Hm & Hd);
  simpl in Hh, Hg, Hm, Hd; subst;
  unfold sim; simpl; repeat case_match; simplify_eq/=; done.

Lemma alike_get v k : alike (get v k) (get v k).
Proof. unfold get. alike_prim. Qed.

Lemma alike_get_opt v k : alike (get_opt v k) (get_opt v k).
Proof. unfold get_opt, get, ret. alike_prim. Qed.

Lemma alike_read_heap : alike read_heap read_heap.
Proof. unfold read_heap. alike_prim. Qed.

Lemma alike_new_object m : alike (new_object m) (new_object m).
Proof. unfold new_object, alloc. alike_prim. Qed.

Lemma alike_set v k x : alike (set v k x) (set v k x).
Proof. unfold set. alike_prim. Qed.

Lemma alike_delete_prop v k : alike (delete_prop v k) (delete_prop v k).
Proof. unfold delete_prop. alike_prim. Qed.

Lemma alike_getIsServer : alike getIsServer getIsServer.
Proof. unfold getIsServer. alike_prim. Qed.

Lemma alike_in_window k : alike (in_window k) (in_window k).
Proof. unfold in_window. alike_prim. Qed.

Lemma alike_window_get k : alike (window_get k) (window_get k).
Proof. unfold window_get. alike_prim. Qed.

Lemma alike_window_set k x : alike (window_set k x) (window_set k x).
Proof. unfold window_set. alike_prim. Qed.

Lemma alike_dispatch s a : alike (dispatch reducer s a) (dispatch reducer s a).
Proof. unfold dispatch. alike_prim. Qed.

Lemma alike_createStore c : alike (createStore makeStore c) (createStore makeStore c).
Proof.
  intros w1 w2 H. unfold createStore. rewrite (blind c w1 w2 H).
  destruct w1, w2, H as (Hh & Hg & Hm & Hd). simpl in *. subst.
  unfold sim, alloc. destruct (makeStore c _); simpl; done.
Qed.

Lemma alike_log (b : bool) msg args :
  alike (if b then console_log msg args else mret tt) (mret tt).
Proof. destruct b; [|apply alike_ret]. unfold console_log. alike_prim. Qed.

Create HintDb alike.

#[local] Hint Resolve alike_ret alike_get alike_get_opt alike_read_heap alike_new_object
  alike_set alike_delete_prop alike_getIsServer alike_in_window alike_window_get
  alike_window_set alike_dispatch alike_createStore alike_log : alike.

Ltac alike_steps :=
  repeat first
    [ apply alike_bind; [|intros ?]
    | apply alike_if
    | progress eauto with alike ].

Lemma alike_exposed_req c : alike (exposed_req c) (exposed_req c).
Proof. unfold exposed_req. alike_steps. Qed.

#[local] Hint Resolve alike_exposed_req : alike.

Lemma alike_initStore c :
  alike (initStore makeStore config c) (initStore makeStore (undebugged config) c).
Proof. unfold initStore. change (getStoreKey (undebugged config)) with (getStoreKey config). alike_steps. Qed.

Lemma alike_hydrate s A B :
  alike (hydrate config reducer s A B) (hydrate (undebugged config) reducer s A B).
Proof.
  unfold hydrate.
  change (getDeserializedState A (undebugged config)) with (getDeserializedState A config).
  change (getDeserializedState B (undebugged config)) with (getDeserializedState B config).
  alike_steps.
Qed.

Lemma alike_mergePageProps ip props : alike (mergePageProps ip props) (mergePageProps ip props).
Proof. unfold mergePageProps. alike_steps. Qed.

Lemma alike_cleanup props B : alike (cleanup props B) (cleanup props B).
Proof. unfold cleanup. alike_steps. Qed.

#[local] Hint Resolve alike_initStore alike_hydrate alike_mergePageProps alike_cleanup : alike.

Lemma alike_Wrapper fiber wprops context :
  alike (Wrapper makeStore config reducer fiber wprops context)
        (Wrapper makeStore (undebugged config) reducer fiber wprops context).
Proof. unfold Wrapper. cbn [debug undebugged]. alike_steps. Qed.

Lemma alike_Wrapper_effect prev cur :
  alike (Wrapper_effect config reducer prev cur)
        (Wrapper_effect (undebugged config) reducer prev cur).
Proof. unfold Wrapper_effect. alike_steps. Qed.

#[local] Hint Resolve alike_Wrapper alike_Wrapper_effect : alike.

(** X13. The [debug] flag changes nothing of a render pass but the
    console: run with the flag as configured and with the flag off, from
    the same world, a pass has the same outcome, error or fiber and element,
    and leaves the same heap, registry, factory invocations and dispatched
    actions.  The factory is taken not to read the console. *)
Theorem debug_only_logs fiber wprops context w :
  let on := render_pass makeStore config reducer fiber wprops context w in
  let off := render_pass makeStore (undebugged config) reducer fiber wprops context w in
  on.1 = off.1
  ∧ heap on.2 = heap off.2 ∧ window on.2 = window off.2
  ∧ made on.2 = made off.2 ∧ dispatched on.2 = dispatched off.2.
Proof.
  intros on off.
  assert (H : alike (render_pass makeStore config reducer fiber wprops context)
                    (render_pass makeStore (undebugged config) reducer fiber wprops context)).
  { unfold render_pass. alike_steps. destruct a. alike_steps. }
  exact (H w w (sim_refl w)).
Qed.

Lemma alike_alike_ok {A} (m1 m2 : M A) : alike m1 m2 → alike_ok m1 m2.
Proof.
  intros H w1 w2 Hs a w1' Hm. destruct (H w1 w2 Hs) as [Hr Hw].
  rewrite Hm in Hr, Hw. simpl in *.
  exists (m2 w2).2. split; [|done]. destruct (m2 w2). simpl in *. by subst.
Qed.

Lemma alike_ok_bind {A B} (m1 m2 : M A) (k1 k2 : A → M B) :
  alike_ok m1 m2 → (∀ a, alike_ok (k1 a) (k2 a)) → alike_ok (m1 ≫= k1) (m2 ≫= k2).
Proof.
  intros Hm Hk w1 w2 H b w1' Hb.
  apply bind_inv_Ok in Hb as (a & wa & Ha & Hb).
  destruct (Hm w1 w2 H a wa Ha) as (wa' & Ha' & Hs).
  destruct (Hk a wa wa' Hs b w1' Hb) as (w2' & Hb' & Hs').
  exists w2'. split; [|done]. by rewrite (bind_Ok _ _ _ _ _ Ha').
Qed.

Lemma alike_ok_state_log (b : bool) store msg :
  alike_ok (if b then st ← getState store; console_log msg [st] else mret tt) (mret tt).
Proof.
  intros w1 w2 H [] w1' Hm. exists w2. split; [done|].
  destruct b; [|by injection Hm as <-].
  apply bind_inv_Ok in Hm as (st & wx & Hg & Hm).
  apply getState_inv in Hg as [-> _]. injection Hm as <-.
  destruct H as (? & ? & ? & ?). done.
Qed.

Lemma alike_getState s : alike (getState s) (getState s).
Proof. unfold getState. alike_prim. Qed.

(** X14. The [debug] flag changes nothing of a phase that returns but the
    console: when the shared phase routine returns with the flag as
    configured, it returns the same object with the flag off, in a world
    that differs in the console at most.  The factory and the callback are
    taken not to read the console. *)
Theorem phase_debug_only_logs callback context isApp w env w' :
  console_blind_callback callback →
  makeProps makeStore config callback context isApp w = (Ok env, w') →
  ∃ w'', makeProps makeStore (undebugged config) callback context isApp w = (Ok env, w'')
         ∧ sim w' w''.
Proof.
  intros Hcb H.
  assert (Ha : alike_ok (makeProps makeStore config callback context isApp)
                        (makeProps makeStore (undebugged config) callback context isApp)).
  { unfold makeProps. cbn [debug undebugged].
    apply alike_ok_bind; [apply alike_alike_ok, alike_initStore|intros store].
    apply alike_ok_bind; [apply alike_ok_state_log|intros []].
    apply alike_ok_bind.
    { apply alike_alike_ok. destruct callback as [f|]; [|alike_steps].
      simpl in Hcb. alike_steps. }
    intros ip.
    apply alike_ok_bind; [apply alike_ok_state_log|intros []].
    apply alike_alike_ok.
    apply alike_bind; [apply alike_getState|intros st].
    change (getSerializedState st (undebugged config)) with (getSerializedState st config).
    alike_steps. }
  exact (Ha w w (sim_refl w) env w' H).
Qed.

End debug_flag.

Lemma props_callback_blind : console_blind_callback (Some props_callback).
Proof.
  intros arg. unfold props_callback.
  apply alike_bind; [apply alike_new_object|intros inner; apply alike_new_object].
Qed.

(** ** The claims on concrete runs *)

Lemma client_store_memoized_witness :
  ∃ l w1,
    initStore counter_factory other_config VUndef browser0 = (Ok (VObj l), w1)
    ∧ heap browser0 !! l = None
    ∧ heap w1 !! l = Some {| props := ∅; redux := Some (VNum 0) |}
    ∧ window w1 = Some (<["other" := VObj l]> ∅)
    ∧ made w1 = VUndef :: made browser0
    ∧ acquire_all counter_factory other_config [VUndef; VNum 7; VUndef] w1
      = (Ok (replicate 3 (VObj l)), w1).
Proof.
  apply (client_store_memoized counter_factory other_config
           VUndef [VUndef; VNum 7; VUndef] browser0 ∅ (VNum 0)); reflexivity.
Defined.

Lemma server_store_per_request_witness :
  let w1 := (initStore counter_factory default_config (VObj 2) server0).2 in
  let w2 := after_acquisitions counter_factory default_config [VObj 5; VObj 3] w1 in
  initStore counter_factory default_config (VObj 3) w2 = (Ok (VObj 6), w2)
  ∧ ∃ l w4,
      initStore counter_factory default_config (VObj 5) server0 = (Ok (VObj l), w4)
      ∧ heap server0 !! l = None
      ∧ heap w4 = <[l := {| props := ∅; redux := Some (VNum 0) |}]> (heap server0)
      ∧ made w4 = VObj 5 :: made server0
      ∧ ∀ req4 init4 l' w5,
          (exposed_req (VObj 5) w4).1 = Ok req4 → truthy req4 = false →
          counter_factory (VObj 5) w4 = Ok init4 →
          initStore counter_factory default_config (VObj 5) w4 = (Ok (VObj l'), w5) → l' ≠ l.
Proof.
  apply (server_store_per_request counter_factory default_config
           (VObj 2) (VObj 3) [VObj 5; VObj 3] 1%positive server0 (VObj 6)
           (initStore counter_factory default_config (VObj 2) server0).2
           (VObj 5) (VObj 5) server0 VUndef (VNum 0));
    vm_compute; reflexivity.
Defined.

Lemma factory_error_not_memoized_witness :
  ∃ w',
    initStore flaky_factory default_config VUndef browser0 = (Throw (Thrown (VStr "boom")), w')
    ∧ heap w' = heap browser0
    ∧ window w' = window browser0
    ∧ made w' = VUndef :: made browser0
    ∧ unmemoized default_config VUndef w' = true
    ∧ made (initStore flaky_factory default_config VUndef w').2
      = VUndef :: VUndef :: made browser0.
Proof.
  apply (factory_error_not_memoized flaky_factory default_config VUndef browser0);
    reflexivity.
Defined.

(** After the failed acquisition above, the retry makes the store. *)
Example factory_retry_succeeds :
  (initStore flaky_factory default_config VUndef
     (initStore flaky_factory default_config VUndef browser0).2).1 = Ok (VObj 1).
Proof. vm_compute. reflexivity. Qed.

Lemma nested_page_phase_guard_witness :
  let w' := with_console ((WARN, "No need to wrap pages if _app was wrapped", []) :: console nested0) nested0 in
  getInitialPageProps counter_factory default_config (Some store_of_context) (VObj 2) nested0
    = store_of_context (VObj 2) w'
  ∧ made w' = made nested0
  ∧ heap w' = heap nested0
  ∧ window w' = window nested0.
Proof.
  apply (nested_page_phase_guard counter_factory default_config
           store_of_context (VObj 2) nested0 (VObj 1)); reflexivity.
Defined.



(** With a reducer for which hydration overwrites, the snapshots [1] and
    [5] leave the store in state [5]: the page-level snapshot wins. *)
Example page_snapshot_wins_on_overwrite :
  store_state (render_pass counter_factory default_config overwrite_reducer
                 None (VObj 4) VUndef render0).2 (VObj 6) = Some (VNum 5).
Proof. vm_compute. reflexivity. Qed.

Lemma hydration_round_trip_witness :
  getSerializedState (VNum 0) shift_config = VNum 1
  ∧ getDeserializedState (VNum 1) shift_config = VNum 0
  ∧ dispatch overwrite_reducer (VObj 1)
      (Action HYDRATE (getDeserializedState (getSerializedState (VNum 0) shift_config)
                         shift_config)) nested0
    = dispatch overwrite_reducer (VObj 1) (Action HYDRATE (VNum 0)) nested0
  ∧ hydrate shift_config overwrite_reducer (VObj 1) (VNum 1) VUndef nested0
    = dispatch overwrite_reducer (VObj 1) (Action HYDRATE (VNum 0)) nested0
  ∧ hydrate shift_config overwrite_reducer (VObj 1) VUndef (VNum 1) nested0
    = dispatch overwrite_reducer (VObj 1) (Action HYDRATE (VNum 0)) nested0.
Proof.
  apply (hydration_round_trip shift_config overwrite_reducer
           (λ v, match v with VNum n => VNum (n + 1) | _ => v end)
           (λ v, match v with VNum n => VNum (n - 1) | _ => v end)
           (VObj 1) (VNum 0) nested0).
  - reflexivity.
  - reflexivity.
  - intros [| | | n | |]; simpl; try reflexivity. f_equal. lia.
Defined.

(** C8 as stated fails for the state [-1] under hooks that shift by one and
    back: its serialized form is [0], which deserializes back to [-1], but
    [hydrate] skips the falsy [0] and leaves the store in state [0], where
    hydrating with [-1] directly leaves it in state [-1]. *)
Lemma hydration_round_trip_counterexample :
  let s := VNum (-1) in
  let snapshot := getSerializedState s shift_config in
  snapshot = VNum 0
  ∧ getDeserializedState snapshot shift_config = s
  ∧ hydrate shift_config overwrite_reducer (VObj 1) snapshot VUndef nested0 = (Ok tt, nested0)
  ∧ hydrate shift_config overwrite_reducer (VObj 1) VUndef snapshot nested0 = (Ok tt, nested0)
  ∧ store_state nested0 (VObj 1) = Some (VNum 0)
  ∧ store_state (dispatch overwrite_reducer (VObj 1) (Action HYDRATE s) nested0).2 (VObj 1)
    = Some (VNum (-1)).
Proof. vm_compute. done. Qed.



(** On the server the store state [0] leaves the routine serialized as [1];
    in the browser it leaves it as it is. *)
Example makeProps_server_serialized :
  let r := makeProps counter_factory shift_config None (VObj 5) false server0 in
  get_own (heap r.2) (default VUndef (match r.1 with Ok v => Some v | _ => None end))
    "initialState" = VNum 1.
Proof. vm_compute. reflexivity. Qed.

Example makeProps_client_raw :
  let r := makeProps counter_factory shift_config None VUndef false browser0 in
  get_own (heap r.2) (default VUndef (match r.1 with Ok v => Some v | _ => None end))
    "initialState" = VNum 0.
Proof. vm_compute. reflexivity. Qed.

(** C9 as stated fails: the payload of the request-time phase for a
    callback that returns [{props: {a: 1}}] is [{props: {initialState: 0,
    a: 1}}].  Neither it nor its [props] has an [initialProps]. *)
Lemma request_phase_envelope_counterexample :
  ∃ res w',
    getServerSideProps counter_factory default_config (Some props_callback) (VObj 2) server0
      = (Ok res, w')
    ∧ own_props (heap w') res = {[ "props" := VObj 13 ]}
    ∧ own_props (heap w') (VObj 13) = {[ "initialState" := VNum 0; "a" := VNum 1 ]}
    ∧ ¬ is_WrapperProps (heap w') res
    ∧ ¬ is_WrapperProps (heap w') (VObj 13).
Proof.
  exists (VObj 14),
    (getServerSideProps counter_factory default_config (Some props_callback) (VObj 2) server0).2.
  split; [vm_compute; reflexivity|].
  split; [vm_compute; reflexivity|].
  split; [vm_compute; reflexivity|].
  split; intros [[x Hx] _]; vm_compute in Hx; discriminate.
Qed.

Lemma props_callback_returns_objects : returns_objects props_callback.
Proof.
  intros arg w r w' H.
  unfold props_callback, mbind, M_bind, bind, new_object, alloc in H.
  injection H as <- <-. cbn [heap with_heap].
  set (n1 := fresh (dom (heap w))).
  set (h1 := <[n1 := plain {[ "a" := VNum 1 ]}]> (heap w)).
  set (n2 := fresh (dom h1)).
  assert (Hne : n2 ≠ n1) by (unfold n2, h1; eapply fresh_loc_ne; apply lookup_insert_eq).
  split.
  - simpl. rewrite lookup_insert_eq. eauto.
  - unfold get_own. simpl. rewrite lookup_insert_eq. simpl.
    rewrite lookup_singleton_eq. simpl.
    rewrite lookup_insert_ne by done. unfold h1. rewrite lookup_insert_eq. eauto.
Qed.

Lemma request_phase_result_witness :
  let w' := (getServerSideProps counter_factory shift_config (Some props_callback)
               (VObj 2) server0).2 in
  (∃ store w1 la w2 r w3 st inner,
     initStore counter_factory shift_config (VObj 2) server0 = (Ok store, w1)
     ∧ heap w1 !! la = None
     ∧ heap w2 = <[la := plain (<["store" := store]> (own_props (heap w1) (VObj 2)))]> (heap w1)
     ∧ window w2 = window w1 ∧ made w2 = made w1 ∧ dispatched w2 = dispatched w1
     ∧ props_callback (VObj la) w2 = (Ok r, w3)
     ∧ store_state w3 store = Some st
     ∧ let P := if truthy r then own_props (heap w3) r else ∅ in
       own_props (heap w') (VObj 14) = <["props" := VObj inner]> (delete "props" P)
       ∧ own_props (heap w') (VObj inner)
         = own_props (heap w3) (default VUndef (P !! "props"))
           ∪ {[ "initialState" := match serializeState shift_config with
                                  | Some serialize => serialize st
                                  | None => st
                                  end ]})
  ∧ own_props (heap w') (VObj 14) = {[ "props" := VObj 13 ]}
  ∧ own_props (heap w') (VObj 13) = {[ "initialState" := VNum 1; "a" := VNum 1 ]}.
Proof.
  split; [|vm_compute; done].
  apply (request_phase_result counter_factory shift_config props_callback
           (VObj 2) server0 (VObj 14)
           (getServerSideProps counter_factory shift_config (Some props_callback)
              (VObj 2) server0).2).
  - vm_compute. reflexivity.
  - vm_compute. reflexivity.
  - exact props_callback_returns_objects.
Defined.

Lemma page_props_merge_witness :
  let app := get_own (heap merge0) (VObj 2) "pageProps" in
  let page := default VUndef (props (plain {[ "pageProps" := VObj 3 ]}) !! "pageProps") in
  ∃ m w',
    mergePageProps (VObj 2) (VObj 5) merge0 = (Ok tt, w')
    ∧ heap merge0 !! m = None
    ∧ get_own (heap w') (VObj 5) "pageProps" = VObj m
    ∧ ∀ k, own_props (heap w') (VObj m) !! k
           = match own_props (heap merge0) page !! k with
             | Some v => Some v
             | None => own_props (heap merge0) app !! k
             end.
Proof.
  apply (page_props_merge (VObj 2) 5%positive (plain {[ "pageProps" := VObj 3 ]}) merge0);
    reflexivity.
Defined.

(** The page-level [x] wins over the application-level one, [y] and
    [initialState] are kept. *)
Example merge_of_render0 :
  let w' := (mergePageProps (VObj 2) (VObj 5) merge0).2 in
  own_props (heap w') (get_own (heap w') (VObj 5) "pageProps")
  = {[ "x" := VNum 7; "y" := VNum 2; "initialState" := VNum 5 ]}.
Proof. vm_compute. reflexivity. Qed.

Lemma props_composition_witness :
  let r := Wrapper counter_factory default_config overwrite_reducer None (VObj 4) VUndef render0 in
  let w' := r.2 in
  let cp := VObj 10 in
  let page := get_own (heap render0) (VObj 4) "pageProps" in
  let app := get_own (heap render0) (get_own (heap render0) (VObj 4) "initialProps") "pageProps" in
  ((∃ c, get_own (heap w') cp "pageProps" = VObj c
         ∧ heap render0 !! c = None
         ∧ ∀ k, own_props (heap w') (VObj c) !! k
                = if decide (k = "initialState") then None
                  else match own_props (heap render0) page !! k with
                       | Some v => Some v
                       | None => own_props (heap render0) app !! k
                       end)
   ∧ stable render0 w'
   ∧ ∀ fiber2 f2 el2 w'',
       Wrapper counter_factory default_config overwrite_reducer fiber2 (VObj 4) VUndef w'
         = (Ok (f2, el2), w'') →
       let cp2 := component_props el2 in
       (∀ k, k ≠ "pageProps" → own_props (heap w'') cp2 !! k = own_props (heap w') cp !! k)
       ∧ own_props (heap w'') (get_own (heap w'') cp2 "pageProps")
         = own_props (heap w') (get_own (heap w') cp "pageProps")
       ∧ same_shape (get_own (heap w'') cp2 "pageProps") (get_own (heap w') cp "pageProps"))
  ∧ own_props (heap render0) page = {[ "initialState" := VNum 5; "x" := VNum 7 ]}
  ∧ own_props (heap render0) app = {[ "x" := VNum 1; "y" := VNum 2 ]}
  ∧ own_props (heap w') (get_own (heap w') cp "pageProps") = {[ "x" := VNum 7; "y" := VNum 2 ]}.
Proof.
  split; [|vm_compute; done].
  assert (Hrun : Wrapper counter_factory default_config overwrite_reducer
                   None (VObj 4) VUndef render0
                 = (Ok ({| isFirstRender := true; store := VObj 6; deps := (VNum 5, VNum 1) |},
                        {| provided := VObj 6; component_props := VObj 10 |}),
                    (Wrapper counter_factory default_config overwrite_reducer
                       None (VObj 4) VUndef render0).2))
    by (vm_compute; reflexivity).
  assert (Hctx : exposes_no_request (heap render0) VUndef) by (repeat split).
  assert (Hal : props_allocated (heap render0) (VObj 4))
    by (repeat split; vm_compute; eauto).
  destruct (props_composition counter_factory default_config overwrite_reducer
              None (VObj 4) VUndef render0 _ _ _ Hrun Hctx Hal) as (Hremoved & Hrest).
  split; [|exact Hrest].
  apply Hremoved. reflexivity.
Defined.

(** C5 as stated fails: the page-level snapshot [0] is there, yet the
    component receives the very [pageProps] object that was given, with its
    [initialState] still in it. *)
Lemma props_composition_counterexample :
  let r := Wrapper counter_factory default_config overwrite_reducer
             None (VObj 2) VUndef falsy_page0 in
  let cp := VObj 5 in
  own_props (heap falsy_page0) (get_own (heap falsy_page0) (VObj 2) "pageProps")
    !! "initialState" = Some (VNum 0)
  ∧ r.1 = Ok ({| isFirstRender := true; store := VObj 4; deps := (VNum 0, VNum 5) |},
              {| provided := VObj 4; component_props := cp |})
  ∧ get_own (heap r.2) cp "pageProps" = VObj 1
  ∧ own_props (heap r.2) (VObj 1) !! "initialState" = Some (VNum 0).
Proof. vm_compute. done. Qed.

(** The render of [render0]: the component gets [x], [y] and no
    [initialState] in its page properties, and the objects it was given are
    as they were. *)
Example composition_of_render0 :
  let w' := (Wrapper counter_factory default_config overwrite_reducer
               None (VObj 4) VUndef render0).2 in
  own_props (heap w') (get_own (heap w') (VObj 10) "pageProps")
    = {[ "x" := VNum 7; "y" := VNum 2 ]}
  ∧ heap w' !! 3%positive = heap render0 !! 3%positive
  ∧ heap w' !! 4%positive = heap render0 !! 4%positive.
Proof. vm_compute. done. Qed.

(** The registry key is [config.storeKey], and the default key when it is
    unset or empty. *)
Example getStoreKey_default :
  getStoreKey default_config = STOREKEY
  ∧ getStoreKey {| serializeState := None; deserializeState := None;
                   storeKey := Some ""; debug := false |} = STOREKEY
  ∧ getStoreKey {| serializeState := None; deserializeState := None;
                   storeKey := Some "mine"; debug := false |} = "mine".
Proof. done. Qed.

(** A snapshot [0] is skipped by [hydrate], and as a page-level snapshot it
    stays in the page properties. *)
Example falsy_snapshot_is_skipped :
  dispatched (hydrate default_config overwrite_reducer (VObj 1) (VNum 0) (VNum 5) nested0).2
    = [(VObj 1, Action HYDRATE (VNum 5))]
  ∧ (cleanup (VObj 3) (VNum 0) render0) = (Ok (VObj 3), render0).
Proof. vm_compute. done. Qed.

(** The round trip end to end: the state [0] of the store of a request is
    sent as the snapshot [1], and hydrating with that snapshot dispatches the
    payload [0]. *)
Example snapshot_round_trip :
  let sent := makeProps counter_factory shift_config None (VObj 2) false server0 in
  let snapshot := get_own (heap sent.2) (VObj 8) "initialState" in
  sent.1 = Ok (VObj 8)
  ∧ snapshot = VNum 1
  ∧ dispatched (hydrate shift_config overwrite_reducer (VObj 1) snapshot VUndef nested0).2
    = [(VObj 1, Action HYDRATE (VNum 0))].
Proof. vm_compute. done. Qed.

(** A mount, a render with the same snapshots and a render with a new
    application-level snapshot [2]: the first and the third pass hydrate,
    application level first; the second dispatches nothing. *)
Example passes_of_render0 :
  let run :=
    '(f1, _) ← render_pass counter_factory default_config overwrite_reducer
                 None (VObj 4) VUndef;
    '(f2, _) ← render_pass counter_factory default_config overwrite_reducer
                 (Some f1) (VObj 4) VUndef;
    next ← new_object {[ "initialState" := VNum 2; "pageProps" := VObj 3 ]};
    render_pass counter_factory default_config overwrite_reducer (Some f2) next VUndef in
  dispatched (run render0).2
  = [(VObj 6, Action HYDRATE (VNum 5)); (VObj 6, Action HYDRATE (VNum 2));
     (VObj 6, Action HYDRATE (VNum 5)); (VObj 6, Action HYDRATE (VNum 1))].
Proof. vm_compute. reflexivity. Qed.

(** All defaults, a store that starts at [0] and a callback that dispatches
    an increment: the request-time phase returns [initialState = 1]. *)
Example request_phase_counts :
  let callback : value → M value :=
    λ ctx, s ← get ctx "store";
           dispatch counter_reducer s (Action "INCREMENT" VUndef);;
           mret VUndef in
  let r := getServerSideProps counter_factory default_config (Some callback) (VObj 2) server0 in
  ∃ res, r.1 = Ok res
         ∧ own_props (heap r.2) (get_own (heap r.2) res "props")
           = {[ "initialState" := VNum 1 ]}.
Proof. eexists. split; vm_compute; reflexivity. Qed.

(** ** The further properties on concrete runs *)

Lemma render_pass_dispatches_witness :
  let f := {| isFirstRender := false; store := VObj 6; deps := (VNum 5, VNum 1) |} in
  let w' := (render_pass counter_factory default_config overwrite_reducer
               None (VObj 4) VUndef render0).2 in
  deps f = (VNum 5, VNum 1)
  ∧ dispatched w'
    = [(VObj 6, Action HYDRATE (VNum 5)); (VObj 6, Action HYDRATE (VNum 1))]
  ∧ (∀ st, store_state render0 (store f) = Some st →
           store_state w' (store f)
           = Some (hydrated default_config overwrite_reducer st (VNum 1) (VNum 5)))
  ∧ ∀ s st, s ≠ store f → store_state render0 s = Some st → store_state w' s = Some st.
Proof.
  apply (render_pass_dispatches counter_factory default_config overwrite_reducer
           None (VObj 4) VUndef render0
           {| isFirstRender := false; store := VObj 6; deps := (VNum 5, VNum 1) |}
           {| provided := VObj 6; component_props := VObj 10 |}).
  - vm_compute. reflexivity.
  - vm_compute. eauto.
Defined.

Lemma browser_render_reuses_store_witness :
  let f0 := {| isFirstRender := false; store := VObj 6; deps := (VNum 5, VNum 1) |} in
  let w := (render_pass counter_factory default_config overwrite_reducer
              None (VObj 4) VUndef render0).2 in
  let w' := (render_pass counter_factory default_config overwrite_reducer
               (Some f0) (VObj 4) VUndef w).2 in
  made w' = made w
  ∧ window w' = window w
  ∧ VObj 6 = store f0.
Proof.
  apply (browser_render_reuses_store counter_factory default_config overwrite_reducer
           (Some {| isFirstRender := false; store := VObj 6; deps := (VNum 5, VNum 1) |})
           (VObj 4) VUndef
           (render_pass counter_factory default_config overwrite_reducer
              None (VObj 4) VUndef render0).2
           {[ STOREKEY := VObj 6 ]} (VObj 6)
           {| isFirstRender := false; store := VObj 6; deps := (VNum 5, VNum 1) |}
           {| provided := VObj 6; component_props := VObj 15 |}).
  - vm_compute. reflexivity.
  - vm_compute. reflexivity.
  - vm_compute. reflexivity.
Defined.

Lemma mount_hydrates_new_store_witness :
  let w' := (render_pass counter_factory default_config overwrite_reducer
               None (VObj 4) VUndef render0).2 in
  ∃ l, VObj 6 = VObj l
       ∧ heap render0 !! l = None
       ∧ made w' = VUndef :: made render0
       ∧ store_state w' (VObj l)
         = Some (hydrated default_config overwrite_reducer (VNum 0) (VNum 1) (VNum 5))
       ∧ window w' = Some (<[getStoreKey default_config := VObj l]> ∅).
Proof.
  apply (mount_hydrates_new_store counter_factory default_config overwrite_reducer
           (VObj 4) VUndef render0
           {| isFirstRender := false; store := VObj 6; deps := (VNum 5, VNum 1) |}
           {| provided := VObj 6; component_props := VObj 10 |}).
  - vm_compute. reflexivity.
  - vm_compute. eauto.
  - vm_compute. reflexivity.
  - intros w0. reflexivity.
Defined.

Lemma server_rerender_makes_spare_store_witness :
  let f0 := {| isFirstRender := true; store := VObj 7; deps := (VUndef, VUndef) |} in
  let w := (render_pass counter_factory default_config overwrite_reducer
              None (VObj 5) (VObj 5) server0).2 in
  let w' := (render_pass counter_factory default_config overwrite_reducer
               (Some f0) (VObj 5) (VObj 5) w).2 in
  VObj 7 = store f0
  ∧ store f0 = store f0
  ∧ made w' = VObj 5 :: made w
  ∧ ∃ l, heap w !! l = None
         ∧ VObj l ≠ store f0
         ∧ store_state w' (VObj l) = Some (VNum 0).
Proof.
  apply (server_rerender_makes_spare_store counter_factory default_config overwrite_reducer
           {| isFirstRender := true; store := VObj 7; deps := (VUndef, VUndef) |}
           (VObj 5) (VObj 5)
           (render_pass counter_factory default_config overwrite_reducer
              None (VObj 5) (VObj 5) server0).2
           {| isFirstRender := true; store := VObj 7; deps := (VUndef, VUndef) |}
           {| provided := VObj 7; component_props := VObj 11 |}).
  - vm_compute. reflexivity.
  - vm_compute. reflexivity.
  - vm_compute. repeat split; eauto.
  - vm_compute. eauto.
  - intros w0. reflexivity.
Defined.

Lemma app_phase_context_witness :
  ∃ store w1 la li wa r wb,
    initStore counter_factory default_config (VObj 3) server0 = (Ok store, w1)
    ∧ store_of_context (VObj la) wa = (Ok r, wb)
    ∧ heap w1 !! la = None ∧ heap w1 !! li = None ∧ li ≠ la
    ∧ own_props (heap wa) (VObj la) = <["ctx" := VObj li]> (own_props (heap w1) (VObj 3))
    ∧ own_props (heap wa) (VObj li)
      = <["store" := store]> (own_props (heap w1) (get_own (heap w1) (VObj 3) "ctx"))
    ∧ (∀ l o, heap w1 !! l = Some o → heap wa !! l = Some o)
    ∧ made wa = made w1 ∧ window wa = window w1 ∧ dispatched wa = dispatched w1.
Proof.
  apply (app_phase_context counter_factory default_config store_of_context (VObj 3) server0
           (VObj 10)
           (getInitialAppProps counter_factory default_config (Some store_of_context)
              (VObj 3) server0).2).
  vm_compute. reflexivity.
Defined.


Lemma wrapped_page_in_wrapped_app_witness :
  ∃ store w1 li wg r wb,
    initStore counter_factory default_config (VObj 3) server0 = (Ok store, w1)
    ∧ props_callback (VObj li) wg = (Ok r, wb)
    ∧ heap w1 !! li = None
    ∧ own_props (heap wg) (VObj li)
      = <["store" := store]> (own_props (heap w1) (get_own (heap server0) (VObj 3) "ctx"))
    ∧ made wg = made w1
    ∧ window wg = window w1
    ∧ dispatched wg = dispatched w1
    ∧ head (console wg) = Some (WARN, "No need to wrap pages if _app was wrapped", []).
Proof.
  apply (wrapped_page_in_wrapped_app counter_factory default_config props_callback
           (VObj 3) server0 (VObj 11)
           (Wrapper_getInitialProps counter_factory default_config
              (Some (λ arg, ctx ← get arg "ctx";
                            Wrapper_getInitialProps counter_factory default_config
                              (Some props_callback) ctx))
              (VObj 3) server0).2).
  - vm_compute. reflexivity.
  - reflexivity.
  - vm_compute. eauto.
  - reflexivity.
Defined.

Lemma app_and_page_share_request_store_witness :
  let w1 := (initStore counter_factory default_config (VObj 3) server0).2 in
  let w2 := after_acquisitions counter_factory default_config [VObj 5; VObj 2] w1 in
  initStore counter_factory default_config (VObj 2) w2 = (Ok (VObj 6), w2)
  ∧ get_own (heap w2) (VObj 1) MARK = VObj 6
  ∧ truthy (VObj 6) = true.
Proof.
  apply (app_and_page_share_request_store counter_factory default_config
           (VObj 3) (VObj 2) 1%positive [VObj 5; VObj 2] server0 (VObj 6)).
  - reflexivity.
  - vm_compute. reflexivity.
  - vm_compute. reflexivity.
  - vm_compute. reflexivity.
  - vm_compute. reflexivity.
Defined.

Lemma component_receives_witness :
  let w' := (Wrapper counter_factory default_config overwrite_reducer
               None (VObj 2) VUndef keyed0).2 in
  let cp := VObj 5 in
  let ip := get_own (heap keyed0) (VObj 2) "initialProps" in
  ((∀ k, k ≠ "pageProps" →
         own_props (heap w') cp !! k
         = if bool_decide (k ∈ ["key"; "ref"; "__self"; "__source"]) then None
           else match own_props (heap keyed0) (VObj 2) !! k with
                | Some v => if decide (k = "initialState" ∨ k = "initialProps")
                            then own_props (heap keyed0) ip !! k else Some v
                | None => own_props (heap keyed0) ip !! k
                end)
   ∧ own_props (heap w') (get_own (heap w') cp "pageProps")
     = exposed_pageProps (heap keyed0) (VObj 2)
   ∧ (truthy (page_snapshot (heap keyed0) (VObj 2)) = false →
      truthy (app_pageProps (heap keyed0) ip) = false →
      get_own (heap w') cp "pageProps"
      = match own_props (heap keyed0) (VObj 2) !! "pageProps" with
        | Some v => v
        | None => get_own (heap keyed0) ip "pageProps"
        end))
  ∧ own_props (heap keyed0) (VObj 2)
    = {[ "key" := VStr "k"; "a" := VNum 1; "initialProps" := VObj 1 ]}
  ∧ own_props (heap keyed0) ip = {[ "b" := VNum 2; "ref" := VNum 9 ]}
  ∧ own_props (heap w') cp = {[ "a" := VNum 1; "b" := VNum 2 ]}.
Proof.
  split; [|vm_compute; done].
  apply (component_receives counter_factory default_config overwrite_reducer
           None (VObj 2) VUndef keyed0
           {| isFirstRender := true; store := VObj 4; deps := (VUndef, VUndef) |}
           {| provided := VObj 4; component_props := VObj 5 |}).
  - vm_compute. reflexivity.
  - repeat split.
  - vm_compute. repeat split; eauto.
Defined.

Lemma props_callback_leaves_snapshot : leaves_snapshot props_callback.
Proof.
  intros arg w r w' H.
  unfold props_callback, mbind, M_bind, bind, new_object, alloc in H.
  injection H as <- <-. cbn [heap with_heap].
  set (n1 := fresh (dom (heap w))).
  set (h1 := <[n1 := plain {[ "a" := VNum 1 ]}]> (heap w)).
  set (n2 := fresh (dom h1)).
  assert (Hne : n2 ≠ n1) by (unfold n2, h1; eapply fresh_loc_ne; apply lookup_insert_eq).
  unfold get_own. simpl. rewrite lookup_insert_eq. simpl.
  rewrite lookup_singleton_eq. simpl.
  rewrite lookup_insert_ne by done. unfold h1. rewrite lookup_insert_eq. done.
Qed.

Lemma request_state_reaches_render_witness :
  let w1 := (getServerSideProps counter_factory shift_config (Some props_callback)
               (VObj 2) server0).2 in
  let v := (new_object {[ "pageProps" := VObj 13 ]} w1).2 in
  let v' := (render_pass counter_factory shift_config overwrite_reducer
               None (VObj 15) (VObj 5) v).2 in
  let fb := {| isFirstRender := true; store := VObj 17; deps := (VNum 1, VUndef) |} in
  ∃ store st l,
    (initStore counter_factory shift_config (VObj 2) server0).1 = Ok store
    ∧ store_state w1 store = Some st
    ∧ deps fb = (getSerializedState st shift_config, get_own (heap v) (VObj 15) "initialState")
    ∧ VObj 17 = VObj l ∧ heap v !! l = None ∧ VObj l ≠ store
    ∧ store_state v' (VObj l)
      = Some (hydrated shift_config overwrite_reducer (VNum 0)
                (get_own (heap v) (VObj 15) "initialState")
                (getSerializedState st shift_config)).
Proof.
  apply (request_state_reaches_render counter_factory shift_config overwrite_reducer
           props_callback (VObj 2) server0 (VObj 14)
           (getServerSideProps counter_factory shift_config (Some props_callback)
              (VObj 2) server0).2
           (new_object {[ "pageProps" := VObj 13 ]}
              (getServerSideProps counter_factory shift_config (Some props_callback)
                 (VObj 2) server0).2).2
           (VObj 15) (VObj 5)
           {| isFirstRender := true; store := VObj 17; deps := (VNum 1, VUndef) |}
           {| provided := VObj 17; component_props := VObj 20 |}).
  - vm_compute. reflexivity.
  - exact props_callback_returns_objects.
  - exact props_callback_leaves_snapshot.
  - reflexivity.
  - reflexivity.
  - intros l o. apply alloc_included.
  - vm_compute. reflexivity.
  - vm_compute. repeat split; eauto.
  - vm_compute. repeat split; eauto.
  - intros w0. reflexivity.
  - vm_compute. reflexivity.
Defined.

Lemma store_keys_isolate_wrappers_witness :
  ∃ l1 w1 s2 w2,
    initStore counter_factory default_config VUndef browser0 = (Ok (VObj l1), w1)
    ∧ initStore (λ _ _, Ok (VNum 7)) other_config VNull w1 = (Ok s2, w2)
    ∧ window w2 = Some (<["other" := s2]> (<["__NEXT_REDUX_WRAPPER_STORE__" := VObj l1]> ∅))
    ∧ (∀ c, initStore counter_factory default_config c w2 = (Ok (VObj l1), w2)
            ∧ initStore (λ _ _, Ok (VNum 7)) other_config c w2 = (Ok s2, w2))
    ∧ store_state w2 (VObj l1) = Some (VNum 0)
    ∧ ∃ l2, s2 = VObj l2 ∧ l2 ≠ l1
            ∧ made w2 = VNull :: VUndef :: made browser0
            ∧ store_state w2 (VObj l2) = Some (VNum 7).
Proof.
  apply (store_keys_isolate_wrappers counter_factory default_config
           (λ _ _, Ok (VNum 7)) other_config VUndef VNull browser0 ∅ (VNum 0) (VNum 7)).
  - reflexivity.
  - reflexivity.
  - reflexivity.
  - reflexivity.
  - intros w0. reflexivity.
Defined.

Lemma debug_only_logs_witness :
  let on := render_pass counter_factory debug_config overwrite_reducer
              None (VObj 4) VUndef render0 in
  let off := render_pass counter_factory (undebugged debug_config) overwrite_reducer
               None (VObj 4) VUndef render0 in
  on.1 = off.1
  ∧ heap on.2 = heap off.2 ∧ window on.2 = window off.2
  ∧ made on.2 = made off.2 ∧ dispatched on.2 = dispatched off.2.
Proof.
  apply (debug_only_logs counter_factory debug_config overwrite_reducer).
  intros c w1 w2 H. reflexivity.
Defined.

Lemma phase_debug_only_logs_witness :
  ∃ w'', makeProps counter_factory (undebugged debug_config) (Some props_callback)
           (VObj 2) false server0 = (Ok (VObj 10), w'')
         ∧ sim (makeProps counter_factory debug_config (Some props_callback)
                  (VObj 2) false server0).2 w''.
Proof.
  apply (phase_debug_only_logs counter_factory debug_config).
  - intros c w1 w2 H. reflexivity.
  - exact props_callback_blind.
  - vm_compute. reflexivity.
Defined.


Lemma requests_do_not_share_stores_witness :
  let r1 := initStore counter_factory default_config (VObj 2) two_requests0 in
  let r2 := initStore counter_factory default_config (VObj 4) r1.2 in
  ∃ l1 l2,
    VObj 5 = VObj l1 ∧ VObj 6 = VObj l2 ∧ l1 ≠ l2
    ∧ heap two_requests0 !! l1 = None ∧ heap r1.2 !! l2 = None
    ∧ made r2.2 = VObj 4 :: VObj 2 :: made two_requests0
    ∧ get_own (heap r2.2) (VObj 1) MARK = VObj 5
    ∧ get_own (heap r2.2) (VObj 3) MARK = VObj 6.
Proof.
  apply (requests_do_not_share_stores counter_factory default_config
           (VObj 2) (VObj 4) 1%positive 3%positive two_requests0).
  - reflexivity.
  - discriminate.
  - vm_compute. reflexivity.
  - vm_compute. reflexivity.
  - vm_compute. reflexivity.
  - vm_compute. reflexivity.
  - vm_compute. reflexivity.
  - vm_compute. reflexivity.
Defined.
